(** * gimme-aws-creds: a shallow embedding of [gimme_aws_creds/main.py]

    The development follows the source file top to bottom:
    string helpers and the two library calls whose semantics the code relies
    on ([re.sub] with the pattern [':saml-provider.*'] and [int(str)]),
    the credential file as [configparser.RawConfigParser] holds, writes and
    reads it,
    the monad of effects of the command line tool (standard streams, the
    credential file, the calls to the federation service, [exit]),
    the methods of [GimmeAWSCreds] in source order, and then the properties. *)

From Stdlib Require Import ZArith String Ascii List DecimalString DecimalNat Lia.
From stdpp Require Import gmap strings list.

Local Open Scope string_scope.
Local Open Scope list_scope.
Local Open Scope Z_scope.

(** ** Strings *)

Module Str.

(** The line feed, the one character the regular expression [.] refuses. *)
Definition LF : ascii := "010"%char.

Definition is_LF (c : ascii) : bool := Ascii.eqb c LF.

(** [needle in hay] of Python, for strings. *)
Fixpoint contains (needle hay : string) : bool :=
  String.prefix needle hay ||
  match hay with
  | EmptyString => false
  | String _ hay' => contains needle hay'
  end.

(** No line feed in the string. *)
Fixpoint single_line (s : string) : bool :=
  match s with
  | EmptyString => true
  | String c s' => negb (is_LF c) && single_line s'
  end.

(** [str.lower()] on the ASCII letters; other bytes are left as they are
    (the non-ASCII characters whose lower case is an ASCII letter are not
    letters of ['default'] or ['role'], the only strings the result is
    compared with). *)
Definition lower_ascii (c : ascii) : ascii :=
  let n := nat_of_ascii c in
  if (Nat.leb 65 n && Nat.leb n 90)%bool then ascii_of_nat (n + 32) else c.

Fixpoint lower (s : string) : string :=
  match s with
  | EmptyString => EmptyString
  | String c s' => String (lower_ascii c) (lower s')
  end.

(** ['{}'.format(i)] for a list index. *)
Definition of_nat (n : nat) : string := NilZero.string_of_uint (Nat.to_uint n).

(** The character occurs in the string. *)
Fixpoint has_char (a : ascii) (s : string) : bool :=
  match s with
  | EmptyString => false
  | String c s' => Ascii.eqb c a || has_char a s'
  end.


(** The end of line that [print] appends. *)
Definition NL : string := String LF EmptyString.

(** The string is made of ASCII characters (code points below 128). *)
Fixpoint ascii_only (s : string) : bool :=
  match s with
  | EmptyString => true
  | String c s' => Nat.ltb (nat_of_ascii c) 128 && ascii_only s'
  end.

(** Every character of the string passes the test. *)
Fixpoint all_chars (test : ascii -> bool) (s : string) : bool :=
  match s with
  | EmptyString => true
  | String c s' => test c && all_chars test s'
  end.

(** The ASCII characters that [str.strip()] drops and that [\s] matches:
    tab to carriage return, the four separators 28 to 31, and the space. *)
Definition is_space (c : ascii) : bool :=
  let n := nat_of_ascii c in
  (Nat.leb 9 n && Nat.leb n 13)%bool || (Nat.leb 28 n && Nat.leb n 32)%bool.

(** [str.lstrip()], [str.rstrip()] and [str.strip()] *)
Fixpoint lstrip (s : string) : string :=
  match s with
  | EmptyString => EmptyString
  | String c s' => if is_space c then lstrip s' else s
  end.

Fixpoint rstrip (s : string) : string :=
  match s with
  | EmptyString => EmptyString
  | String c s' =>
      match rstrip s' with
      | EmptyString => if is_space c then EmptyString else String c EmptyString
      | kept => String c kept
      end
  end.

Definition strip (s : string) : string := rstrip (lstrip s).

(** The index of the first character that is not white space, as
    [re.compile(r"\S").search(line)] finds it. *)
Fixpoint first_nonspace (line : string) : option nat :=
  match line with
  | EmptyString => None
  | String c line' => if is_space c then S <$> first_nonspace line' else Some O
  end.

(** The visible ASCII characters: [!] to [~]. *)
Definition graphic (c : ascii) : bool :=
  let n := nat_of_ascii c in Nat.leb 33 n && Nat.leb n 126.

Definition CR : ascii := "013"%char.
Definition TAB : ascii := "009"%char.

(** The lines of a text file opened for reading in text mode: a line ends
    at a line feed, at a carriage return or at the two together (universal
    newlines); the end of line is left out here. *)
Fixpoint lines (text : string) : list string :=
  match text with
  | EmptyString => []
  | String c text' =>
      if Ascii.eqb c LF then EmptyString :: lines text'
      else if Ascii.eqb c CR then
        EmptyString :: match text' with
                       | String c' text'' => if Ascii.eqb c' LF then lines text'' else lines text'
                       | EmptyString => []
                       end
      else match lines text' with
           | [] => [String c EmptyString]
           | line :: rest => String c line :: rest
           end
  end.

(** The strings of a list, one after the other. *)
Fixpoint cat (texts : list string) : string :=
  match texts with
  | [] => EmptyString
  | text :: texts' => text +:+ cat texts'
  end.

End Str.

(** ** [re.sub(':saml-provider.*', repl, string)]

    The pattern is the literal [:saml-provider] followed by [.*]; without
    [re.DOTALL] the dot matches every character but the line feed, so a match
    runs from an occurrence of the literal to the end of its line. [re.sub]
    scans from the left, replaces every match and resumes after it. *)

Module Re.

Definition marker : string := ":saml-provider".

(** [re.sub] expands backslash escapes of the replacement ([\n], [\g<0>],
    [\1], ...) and takes it literally exactly when it holds no backslash.
    The embedding is of the literal case: statements about [sub] are made
    for plain templates. *)
Fixpoint plain_template (repl : string) : bool :=
  match repl with
  | EmptyString => true
  | String c repl' => negb (Ascii.eqb c "092"%char) && plain_template repl'
  end.

(** The scan, one character at a time. [in_match] says that the position is
    inside a match (the literal was seen on this line): such characters are
    consumed by [.*] up to the line feed, which ends the match and is kept. *)
Fixpoint scan (repl : string) (in_match : bool) (s : string) : string :=
  match s with
  | EmptyString => EmptyString
  | String c s' =>
      if in_match then
        if Str.is_LF c then String c (scan repl false s')
        else scan repl true s'
      else if String.prefix marker s then repl +:+ scan repl true s'
      else String c (scan repl false s')
  end.

Definition sub (repl s : string) : string := scan repl false s.

End Re.

(** The role ARN of a role, as [_get_aws_account_info] computes it (lines
    170-172): [re.sub(':saml-provider.*', ':role/' + role, identityProviderArn)]. *)
Definition derive_role_arn (identityProviderArn role : string) : string :=
  Re.sub (":role/" +:+ role) identityProviderArn.

(** ** [int(str)]

    Python's [int] on a string of ASCII characters: surrounding white space
    (tab, line feed, vertical tab, form feed, carriage return, space) is
    dropped, one sign is allowed, then decimal digits, with single
    underscores between digits. Anything else raises [ValueError] ([None]
    here). On a string with other characters [int] also accepts the decimal
    digits and the white space of other scripts: the embedding is of the
    ASCII case, and statements about [parse] are made for lines that satisfy
    [Str.ascii_only]. *)

Module PyInt.

Definition is_space (c : ascii) : bool :=
  let n := nat_of_ascii c in
  (Nat.leb 9 n && Nat.leb n 13)%bool || Nat.eqb n 32.

Definition digit (c : ascii) : option Z :=
  let n := nat_of_ascii c in
  if (Nat.leb 48 n && Nat.leb n 57)%bool then Some (Z.of_nat (n - 48)) else None.

Fixpoint lstrip (s : string) : string :=
  match s with
  | EmptyString => EmptyString
  | String c s' => if is_space c then lstrip s' else s
  end.

Definition strip (s : string) : string :=
  String.rev (lstrip (String.rev (lstrip s))).

(** Digits with single underscores between them; [after_digit] says that
    the previous character was a digit. *)
Fixpoint digits (acc : Z) (after_digit : bool) (s : string) : option Z :=
  match s with
  | EmptyString => if after_digit then Some acc else None
  | String c s' =>
      match digit c with
      | Some d => digits (10 * acc + d) true s'
      | None =>
          if (Ascii.eqb c "_"%char && after_digit)%bool
          then digits acc false s'
          else None
      end
  end.

Definition parse (s : string) : option Z :=
  match strip s with
  | String "-"%char s' => Z.opp <$> digits 0 false s'
  | String "+"%char s' => digits 0 false s'
  | s' => digits 0 false s'
  end.

End PyInt.

(** ** Exceptions and the ways a call can end *)

Inductive exn : Type :=
| KeyError (key : string)            (* [d[key]] on a dict without the key *)
| IndexError                         (* [l[i]] out of range *)
| EOFError                           (* [input()] at the end of standard input *)
| ValueError                         (* [add_section] of the default section *)
| DuplicateSectionError (section : string)
| NoSectionError (section : string)
| ClientError                        (* the federation service refused the call *)
| ParsingError                       (* [config.read]: lines that are no option *)
| MissingSectionHeaderError          (* [config.read]: an option before any section *)
| DuplicateOptionError (section option : string).

(** A call returns a value, leaves through [exit(code)] (the argument is
    absent in [exit()]), or raises an exception nobody catches. *)
Inductive outcome (A : Type) : Type :=
| Return (a : A)
| Exit (code : option Z)
| Raise (e : exn).
Arguments Return {A} a.
Arguments Exit {A} code.
Arguments Raise {A} e.

(** The exit status the shell sees: [exit()] is [SystemExit(None)], status 0;
    an uncaught exception ends the interpreter with status 1. *)
Definition exit_status {A} (o : outcome A) : Z :=
  match o with
  | Return _ => 0
  | Exit None => 0
  | Exit (Some code) => code
  | Raise _ => 1
  end.

(** ** The credential file, as [configparser.RawConfigParser] holds it

    A parser is the dict of defaults (the [DEFAULT] section) and the ordered
    dict of sections, each an ordered dict of options. The methods of the
    parser come first, then the text that [config.write] makes of a parser
    and what [config.read] makes of a text. *)

Module ConfigParser.

Definition alist (V : Type) : Type := list (string * V).

Fixpoint get {V} (k : string) (l : alist V) : option V :=
  match l with
  | [] => None
  | (k', v) :: l' => if String.eqb k k' then Some v else get k l'
  end.

(** [d[k] = v] on an ordered dict: in place for a known key, at the end
    for a new one. *)
Fixpoint put {V} (k : string) (v : V) (l : alist V) : alist V :=
  match l with
  | [] => [(k, v)]
  | (k', v') :: l' => if String.eqb k k' then (k', v) :: l' else (k', v') :: put k v l'
  end.

Record t : Type := Parser {
  defaults : alist string;
  sections : alist (alist string)
}.

(** [RawConfigParser()] *)
Definition empty : t := Parser [] [].

Definition default_section : string := "DEFAULT".

(** [has_section]: [section in self._sections]; the default section is
    not acknowledged. *)
Definition has_section (c : t) (section : string) : bool :=
  match get section (sections c) with Some _ => true | None => false end.

(** [add_section]: [ValueError] for the default section's name,
    [DuplicateSectionError] for a section that is there, a new empty
    section otherwise. *)
Definition add_section (c : t) (section : string) : exn + t :=
  if String.eqb section default_section then inl ValueError
  else if has_section c section then inl (DuplicateSectionError section)
  else inr (Parser (defaults c) (sections c ++ [(section, [])])%list).

(** [set]: [if not section or section == self.default_section] the option
    goes to the defaults, otherwise to the section, which must exist;
    [optionxform] lowers the option's name. *)
Definition set (c : t) (section option value : string) : exn + t :=
  if (String.eqb section EmptyString || String.eqb section default_section)%bool
  then inr (Parser (put (Str.lower option) value (defaults c)) (sections c))
  else match get section (sections c) with
       | None => inl (NoSectionError section)
       | Some opts =>
           inr (Parser (defaults c)
                       (put section (put (Str.lower option) value opts) (sections c)))
       end.

(** *** The text of the file

    [config.write(fp)] and [config.read(filename)] of a [RawConfigParser()]
    made with the default arguments (delimiters [=] and [:], comment prefixes
    [#] and [;], no inline comment, strict, empty lines in values), on ASCII
    text, as CPython 3.11 has them. *)

(** [str(value).replace('\n', '\n\t')] *)
Fixpoint continued (value : string) : string :=
  match value with
  | EmptyString => EmptyString
  | String c value' =>
      if Str.is_LF c then String c (String Str.TAB (continued value'))
      else String c (continued value')
  end.

(** [_write_section]: the header, one line per option, an empty line. *)
Definition write_option (item : string * string) : string :=
  item.1 +:+ " = " +:+ continued item.2 +:+ Str.NL.

Definition write_section (name : string) (items : alist string) : string :=
  "[" +:+ name +:+ "]" +:+ Str.NL +:+ Str.cat (write_option <$> items) +:+ Str.NL.

(** [write]: the defaults, when there are some, then the sections. *)
Definition write (c : t) : string :=
  match defaults c with
  | [] => EmptyString
  | _ => write_section default_section (defaults c)
  end +:+ Str.cat ((fun s => write_section s.1 s.2) <$> sections c).

(** The state of [_read]: while the file is read a value is the list of
    its lines. [sectname] names the current section ([cursect] is the dict of
    the defaults for the default section's name, the dict of that section
    otherwise), [optname] the option whose value may go on on the next
    line; [added_sections] and [added_options] are [elements_added];
    [errors] says that a line was no option ([e] is not [None]). *)
Record reading : Type := Reading {
  read_defaults : alist (list string);
  read_sections : alist (alist (list string));
  sectname : option string;
  optname : option string;
  indent_level : nat;
  added_sections : list string;
  added_options : list (string * string);
  errors : bool
}.

Definition start : reading := Reading [] [] None None 0 [] [] false.

(** [cursect[optname] = [optval]] *)
Definition set_value (r : reading) (name option : string) (val : list string) : reading :=
  if String.eqb name default_section
  then Reading (put option val (read_defaults r)) (read_sections r) (sectname r) (optname r)
               (indent_level r) (added_sections r) (added_options r) (errors r)
  else Reading (read_defaults r)
               (put name (put option val (default [] (get name (read_sections r))))
                    (read_sections r))
               (sectname r) (optname r) (indent_level r) (added_sections r)
               (added_options r) (errors r).

(** [cursect[optname].append(value)] *)
Definition append_to (option value : string) (options : alist (list string))
  : alist (list string) :=
  (fun item => if String.eqb item.1 option then (item.1, item.2 ++ [value]) else item)
    <$> options.

Definition append_value (r : reading) (name option value : string) : reading :=
  if String.eqb name default_section
  then Reading (append_to option value (read_defaults r)) (read_sections r) (sectname r)
               (optname r) (indent_level r) (added_sections r) (added_options r) (errors r)
  else Reading (read_defaults r)
               ((fun s => if String.eqb s.1 name then (s.1, append_to option value s.2) else s)
                  <$> read_sections r)
               (sectname r) (optname r) (indent_level r) (added_sections r)
               (added_options r) (errors r).

(** [cursect is not None and optname]: the section and the option that a
    line can go on. *)
Definition continuing (r : reading) : option (string * string) :=
  match sectname r, optname r with
  | Some name, Some (String c option) => Some (name, String c option)
  | _, _ => None
  end.

(** The text before the last occurrence of the character, when it occurs. *)
Fixpoint before_last (a : ascii) (s : string) : option string :=
  match s with
  | EmptyString => None
  | String c s' =>
      match before_last a s' with
      | Some kept => Some (String c kept)
      | None => if Ascii.eqb c a then Some EmptyString else None
      end
  end.

(** [SECTCRE.match(value)]: an opening bracket at the start of the line, a
    header of one character at least, a closing bracket; the header runs to
    the last closing bracket of the line. *)
Definition section_header (value : string) : option string :=
  match value with
  | String "["%char rest =>
      match before_last "]"%char rest with
      | Some (String c header) => Some (String c header)
      | _ => None
      end
  | _ => None
  end.

(** The text before the first delimiter and the text after it. *)
Fixpoint split_delimiter (value : string) : option (string * string) :=
  match value with
  | EmptyString => None
  | String c value' =>
      if (Ascii.eqb c "="%char || Ascii.eqb c ":"%char)%bool then Some (EmptyString, value')
      else match split_delimiter value' with
           | Some (option, rest) => Some (String c option, rest)
           | None => None
           end
  end.

(** [_optcre.match(value)], the groups [option] and [value]: a shortest
    option, white space, the first delimiter, white space, the rest. *)
Definition option_line (value : string) : option (string * string) :=
  match split_delimiter value with
  | Some (option, rest) => Some (Str.rstrip option, Str.lstrip rest)
  | None => None
  end.

(** A line that is no continuation: a section header or an option. *)
Definition read_entry (r : reading) (value : string) : exn + reading :=
  match section_header value with
  | Some header =>
      if bool_decide (header ∈ (read_sections r).*1) then
        if bool_decide (header ∈ added_sections r) then inl (DuplicateSectionError header)
        else inr (Reading (read_defaults r) (read_sections r) (Some header) None
                          (indent_level r) (added_sections r ++ [header])
                          (added_options r) (errors r))
      else if String.eqb header default_section then
        inr (Reading (read_defaults r) (read_sections r) (Some header) None
                     (indent_level r) (added_sections r) (added_options r) (errors r))
      else
        inr (Reading (read_defaults r) (read_sections r ++ [(header, [])]) (Some header) None
                     (indent_level r) (added_sections r ++ [header])
                     (added_options r) (errors r))
  | None =>
      match sectname r with
      | None => inl MissingSectionHeaderError
      | Some name =>
          match option_line value with
          | Some (option, optval) =>
              let failed := (errors r || String.eqb option EmptyString)%bool in
              let option := Str.lower (Str.rstrip option) in
              if bool_decide ((name, option) ∈ added_options r)
              then inl (DuplicateOptionError name option)
              else inr (set_value
                          (Reading (read_defaults r) (read_sections r) (sectname r)
                                   (Some option) (indent_level r) (added_sections r)
                                   (added_options r ++ [(name, option)]) failed)
                          name option [Str.strip optval])
          | None =>
              inr (Reading (read_defaults r) (read_sections r) (sectname r) (optname r)
                           (indent_level r) (added_sections r) (added_options r) true)
          end
      end
  end.

(** The body of the loop of [_read], for one line. *)
Definition read_line (r : reading) (line : string) : exn + reading :=
  let value := Str.strip line in
  if (String.prefix "#" value || String.prefix ";" value)%bool then inr r
  else if String.eqb value EmptyString then
    inr (match continuing r with
         | Some (name, option) => append_value r name option EmptyString
         | None => r
         end)
  else
    let cur_indent_level := default O (Str.first_nonspace line) in
    match (if Nat.ltb (indent_level r) cur_indent_level then continuing r else None) with
    | Some (name, option) => inr (append_value r name option value)
    | None =>
        read_entry (Reading (read_defaults r) (read_sections r) (sectname r) (optname r)
                            cur_indent_level (added_sections r) (added_options r) (errors r))
                   value
    end.

Fixpoint read_lines (r : reading) (lines : list string) : exn + reading :=
  match lines with
  | [] => inr r
  | line :: lines' =>
      match read_line r line with
      | inl e => inl e
      | inr r' => read_lines r' lines'
      end
  end.

(** ['\n'.join(val).rstrip()] of [_join_multiline_values] *)
Fixpoint join_lines (val : list string) : string :=
  match val with
  | [] => EmptyString
  | [line] => line
  | line :: val' => line +:+ Str.NL +:+ join_lines val'
  end.

Definition joined (options : alist (list string)) : alist string :=
  (fun item => (item.1, Str.rstrip (join_lines item.2))) <$> options.

Definition finish (r : reading) : t :=
  Parser (joined (read_defaults r)) ((fun s => (s.1, joined s.2)) <$> read_sections r).

(** [config.read] of a file that holds the text, into a new parser. *)
Definition read (text : string) : exn + t :=
  match read_lines start (Str.lines text) with
  | inl e => inl e
  | inr r => if errors r then inl ParsingError else inr (finish r)
  end.

(** *** Names and values that the text holds as they are

    A value of visible ASCII characters; an option name of visible ASCII
    characters, not empty, in lower case, without delimiter and not beginning
    like a comment or a section; a section name of visible ASCII characters,
    not empty, without closing bracket, other than the default section's. *)

Definition plain_value (value : string) : bool := Str.all_chars Str.graphic value.

Definition option_char (c : ascii) : bool :=
  Str.graphic c && negb (Ascii.eqb c "="%char) && negb (Ascii.eqb c ":"%char)
  && negb (Nat.leb 65 (nat_of_ascii c) && Nat.leb (nat_of_ascii c) 90).

Definition plain_option (option : string) : bool :=
  match option with
  | EmptyString => false
  | String c _ =>
      negb (Ascii.eqb c "#"%char) && negb (Ascii.eqb c ";"%char) && negb (Ascii.eqb c "["%char)
  end && Str.all_chars option_char option.

Definition section_char (c : ascii) : bool :=
  Str.graphic c && negb (Ascii.eqb c "]"%char).

Definition plain_section (name : string) : bool :=
  negb (String.eqb name EmptyString) && negb (String.eqb name default_section)
  && Str.all_chars section_char name.

Definition plain_items (items : alist string) : bool :=
  forallb (fun item => plain_option item.1 && plain_value item.2) items.

Definition plain (c : t) : bool :=
  plain_items (defaults c)
  && forallb (fun s => plain_section s.1 && plain_items s.2) (sections c).

End ConfigParser.

(** ** Records of the data the program handles *)

(** One application record of the Okta apps API, with the fields the code
    reads: [name], [id], [label], [settings.app.identityProviderArn],
    [_embedded.user.profile.samlRoles], and the [href]s of
    [_links.appLinks] and [_links.logo]. *)
Record RawApp : Type := {
  raw_name : string;
  raw_id : string;
  raw_label : string;
  raw_identityProviderArn : string;
  raw_samlRoles : list string;
  raw_appLinks : list string;
  raw_logo : list string
}.

(** [role_info]: [{'name': ..., 'arn': ...}] *)
Record Role : Type := {
  role_name : string;
  role_arn : string
}.

(** [new_app_entry['links']] *)
Record Links : Type := {
  appLink : string;
  appLogo : string
}.

(** [new_app_entry]: one AWS application of the user with its roles. *)
Record Entitlement : Type := {
  app_id : string;
  app_name : string;
  app_identityProviderArn : string;
  app_roles : list Role;
  app_links : Links
}.

(** [response['Credentials']] of [assume_role_with_saml]. *)
Record Credentials : Type := {
  AccessKeyId : string;
  SecretAccessKey : string;
  SessionToken : string
}.

(** The arguments of [client.assume_role_with_saml]; [self.role_arn] and
    [self.idp_arn] are [None] until [run] sets them. *)
Record StsRequest : Type := {
  RoleArn : option string;
  PrincipalArn : option string;
  SAMLAssertion : string;
  DurationSeconds : Z
}.

(** [OktaError], with the two attributes the handlers read. *)
Record OktaError : Type := {
  error_code : string;
  error_summary : string
}.

(** ** The world the program acts on *)

Inductive event : Type :=
| Stdout (text : string)             (* text written to standard output *)
| Stderr (text : string)             (* text written to standard error *)
| MakeDirs                           (* [os.makedirs(creds_dir)] *)
| WriteFile (c : ConfigParser.t)     (* the credential file rewritten *)
| StsCall (req : StsRequest).        (* a request sent to the federation service *)

Record world : Type := World {
  stdin : list string;                       (* lines not read yet *)
  trace : list event;                        (* what was done, oldest first *)
  creds_dir : bool;                          (* [~/.aws] exists *)
  creds_file : option ConfigParser.t;        (* [~/.aws/credentials], if it exists *)
  self_idp_arn : option string;              (* [self.idp_arn] *)
  self_role_arn : option string              (* [self.role_arn] *)
}.

(** [GimmeAWSCreds()] in a given environment: [__init__] sets both ARNs to [None]. *)
Definition init_world (input : list string) (dir : bool) (file : option ConfigParser.t) : world :=
  World input [] dir file None None.

Definition stdout_of (w : world) : list string :=
  omap (fun e => match e with Stdout s => Some s | _ => None end) (trace w).

Definition stderr_of (w : world) : list string :=
  omap (fun e => match e with Stderr s => Some s | _ => None end) (trace w).

Definition sts_calls_of (w : world) : list StsRequest :=
  omap (fun e => match e with StsCall r => Some r | _ => None end) (trace w).

Definition file_writes_of (w : world) : list ConfigParser.t :=
  omap (fun e => match e with WriteFile c => Some c | _ => None end) (trace w).

(** ** The monad of the program: state and early exit *)

Definition M (A : Type) : Type := world -> outcome A * world.

Definition ret {A} (a : A) : M A := fun w => (Return a, w).

Definition bind {A B} (m : M A) (k : A -> M B) : M B :=
  fun w =>
    match m w with
    | (Return a, w') => k a w'
    | (Exit code, w') => (Exit code, w')
    | (Raise e, w') => (Raise e, w')
    end.

Declare Scope prog_scope.
Delimit Scope prog_scope with prog.
Notation "x <- m ;; k" := (bind m (fun x => k))
  (at level 100, m at next level, right associativity) : prog_scope.
Notation "m ;;; k" := (bind m (fun _ => k))
  (at level 100, right associativity) : prog_scope.
Local Open Scope prog_scope.

Definition raise {A} (e : exn) : M A := fun w => (Raise e, w).

(** [exit(code)] and [exit()] *)
Definition exit {A} (code : option Z) : M A := fun w => (Exit code, w).

Definition lift {A} (r : exn + A) : M A :=
  match r with
  | inl e => raise e
  | inr a => ret a
  end.

Definition emit (e : event) : M unit :=
  fun w => (Return tt,
            World (stdin w) (trace w ++ [e])%list (creds_dir w) (creds_file w)
                  (self_idp_arn w) (self_role_arn w)).

(** [print(text)] *)
Definition print (text : string) : M unit := emit (Stdout (text +:+ Str.NL)).

(** [print(text, end='', flush=True)] *)
Definition print_no_end (text : string) : M unit := emit (Stdout text).

(** [print(text, file=sys.stderr)] *)
Definition print_err (text : string) : M unit := emit (Stderr (text +:+ Str.NL)).

(** [input(prompt)]: the prompt goes to standard output, then one line is
    read; [EOFError] when there is none. *)
Definition input (prompt : string) : M string :=
  emit (Stdout prompt) ;;;
  fun w =>
    match stdin w with
    | [] => (Raise EOFError, w)
    | line :: rest =>
        (Return line,
         World rest (trace w) (creds_dir w) (creds_file w) (self_idp_arn w) (self_role_arn w))
    end.

Definition get_world : M world := fun w => (Return w, w).

(** [os.makedirs(creds_dir)] *)
Definition makedirs : M unit :=
  emit MakeDirs ;;;
  fun w => (Return tt,
            World (stdin w) (trace w) true (creds_file w) (self_idp_arn w) (self_role_arn w)).

(** [with open(self.AWS_CONFIG, 'w+') as configfile: config.write(configfile)] *)
Definition write_file (c : ConfigParser.t) : M unit :=
  emit (WriteFile c) ;;;
  fun w => (Return tt,
            World (stdin w) (trace w) (creds_dir w) (Some c) (self_idp_arn w) (self_role_arn w)).

(** [self.idp_arn = ...] and [self.role_arn = ...] *)
Definition set_idp_arn (a : string) : M unit :=
  fun w => (Return tt,
            World (stdin w) (trace w) (creds_dir w) (creds_file w) (Some a) (self_role_arn w)).

Definition set_role_arn (a : string) : M unit :=
  fun w => (Return tt,
            World (stdin w) (trace w) (creds_dir w) (creds_file w) (self_idp_arn w) (Some a)).

(** ** The collaborators of the program

    What the configuration, the Okta clients and the federation client
    answer during one run. The calls into [Config] and [OktaClient] that
    answer nothing the program reads ([config.update_config_file],
    [okta.set_username], [okta.auth_session] but for the user name,
    [okta.auth_oauth], [okta.use_oauth_access_token], [config.clean_up]) are
    not embedded: their code is outside [main.py], what they print or read is
    not in the trace, and authentication is taken to succeed. *)

Record Env : Type := {
  FILE_ROOT : string;                           (* [expanduser("~")] *)
  configure : bool;                             (* [config.configure] *)
  api_key : option string;                      (* [config.api_key] *)
  conf_dict : gmap string string;               (* [config.get_config_dict()] *)
  auth_username : string;                       (* [okta.auth_session()['username']] *)
  users_get : OktaError + string;               (* the user's [id], or the error of the users API *)
  apps_first : OktaError + list RawApp;         (* the first page of the apps API *)
  apps_next : list (OktaError + list RawApp);   (* the pages the ['next'] links lead to *)
  server_json : list Entitlement;               (* [okta_connection.get(url).json()] *)
  get_saml_response : string -> string;         (* [okta.get_saml_response(link)['SAMLResponse']] *)
  assume_role_with_saml : StsRequest -> option Credentials
                                                (* the federation service; [None]: the call raises *)
}.

(** Truth value of [d.get(key)] for a dict of strings: false for a missing
    key and for the empty string. *)
Definition truthy (v : option string) : bool :=
  match v with
  | Some (String _ _) => true
  | _ => false
  end.

(** [d[key]] *)
Definition item (d : gmap string string) (key : string) : exn + string :=
  match d !! key with
  | Some v => inr v
  | None => inl (KeyError key)
  end.

(** [l[i]] for a Python list: a negative index counts from the end. *)
Definition py_index {A} (l : list A) (i : Z) : exn + A :=
  let j := if i <? 0 then i + Z.of_nat (length l) else i in
  if j <? 0 then inl IndexError
  else match l !! Z.to_nat j with
       | Some a => inr a
       | None => inl IndexError
       end.

(** [for text in texts: print(text)] *)
Fixpoint print_all (texts : list string) : M unit :=
  match texts with
  | [] => ret tt
  | text :: texts' => print text ;;; print_all texts'
  end.

(** ** The methods of [GimmeAWSCreds] *)

Section GimmeAWSCreds.

Variable E : Env.

Definition AWS_CONFIG : string := FILE_ROOT E +:+ "/.aws/credentials".

(** [_write_aws_creds] (lines 59-82). The world keeps the credential file as
    the parser it holds, and [config.read(self.AWS_CONFIG)] takes that parser.
    For names and values that the text of the file holds as they are, this is
    what [ConfigParser.read] makes of the text that [ConfigParser.write] wrote
    (lemma [read_write] below), while the text written for the empty profile
    name or for one with a line feed is refused by [ConfigParser.read] (lemma
    [special_names_are_not_read_back]); what is stated of a write that follows
    another write is stated for names and values of the first kind. *)
Definition _write_aws_creds (profile access_key secret_key token : string) : M unit :=
  w <- get_world ;;
  (if negb (creds_dir w) then makedirs else ret tt) ;;;
  w <- get_world ;;
  let config :=
    match creds_file w with
    | Some stored => stored                      (* [config.read(self.AWS_CONFIG)] *)
    | None => ConfigParser.empty
    end in
  config <- (if negb (ConfigParser.has_section config profile)
             then lift (ConfigParser.add_section config profile)
             else ret config) ;;
  config <- lift (ConfigParser.set config profile "aws_access_key_id" access_key) ;;
  config <- lift (ConfigParser.set config profile "aws_secret_access_key" secret_key) ;;
  config <- lift (ConfigParser.set config profile "aws_session_token" token) ;;
  write_file config.

(** [_get_sts_creds] (lines 84-95); [duration] is 3600 at its one call. *)
Definition _get_sts_creds (assertion : string) (duration : Z) : M Credentials :=
  w <- get_world ;;
  let req := {| RoleArn := self_role_arn w;
                PrincipalArn := self_idp_arn w;
                SAMLAssertion := assertion;
                DurationSeconds := duration |} in
  emit (StsCall req) ;;;
  match assume_role_with_saml E req with
  | Some creds => ret creds
  | None => raise ClientError
  end.

(** [_call_gimme_creds_server] (lines 97-107) *)
Definition _call_gimme_creds_server : M (list Entitlement) :=
  match server_json E with
  | [] => print "No AWS accounts found." ;;; exit None
  | _ => ret (server_json E)
  end.

(** The handlers of [OktaError] (lines 122-128 and 147-153): both branches
    print and leave with status 1. *)
Definition okta_error {A} (not_found : string) (e : OktaError) : M A :=
  (if String.eqb (error_code e) "E0000007"
   then print not_found
   else print ("Error: " +:+ error_summary e)) ;;;
  exit (Some 1).

(** The loop over the other pages (lines 142-145). *)
Fixpoint next_pages (pages : list (OktaError + list RawApp)) (final_result : list RawApp)
  : M (OktaError + list RawApp) :=
  match pages with
  | [] => ret (inr final_result)
  | page :: pages' =>
      print_no_end "." ;;;
      match page with
      | inl e => ret (inl e)
      | inr records => next_pages pages' (final_result ++ records)%list
      end
  end.

(** [role_info] (lines 168-173) *)
Definition role_info (identityProviderArn role : string) : Role :=
  {| role_name := role; role_arn := derive_role_arn identityProviderArn role |}.

(** [new_app_entry] (lines 160-178); [[0]] on an empty list of links is
    an [IndexError]. *)
Definition new_app_entry (app : RawApp) : exn + Entitlement :=
  let roles := role_info (raw_identityProviderArn app) <$> raw_samlRoles app in
  match raw_appLinks app, raw_logo app with
  | link :: _, logo :: _ =>
      inr {| app_id := raw_id app;
             app_name := raw_label app;
             app_identityProviderArn := raw_identityProviderArn app;
             app_roles := roles;
             app_links := {| appLink := link; appLogo := logo |} |}
  | _, _ => inl IndexError
  end.

(** The loop that fills [app_list] (lines 156-179). *)
Fixpoint app_list_of (final_result : list RawApp) : exn + list Entitlement :=
  match final_result with
  | [] => inr []
  | app :: rest =>
      if String.eqb (raw_name app) "amazon_aws" then
        match new_app_entry app with
        | inl e => inl e
        | inr entry =>
            match app_list_of rest with
            | inl e => inl e
            | inr app_list => inr (entry :: app_list)
            end
        end
      else app_list_of rest
  end.

(** [_get_aws_account_info] (lines 109-186) *)
Definition _get_aws_account_info (okta_org_url okta_api_key username : string)
  : M (list Entitlement) :=
  _user <- match users_get E with
           | inr user => ret user
           | inl e => okta_error ("Error: " +:+ username +:+ " was not found!") e
           end ;;
  pages <- match apps_first E with
           | inl e => ret (inl e)
           | inr final_result => next_pages (apps_next E) final_result
           end ;;
  final_result <- match pages with
                  | inr final_result => print ("done" +:+ Str.NL) ;;; ret final_result
                  | inl e => okta_error ("Error: No applications found for " +:+ username) e
                  end ;;
  app_list <- lift (app_list_of final_result) ;;
  match app_list with
  | [] => print "No AWS accounts found." ;;; exit None
  | _ => ret app_list
  end.

(** The loop of [_get_user_int_selection] (lines 262-267): [ValueError] is
    caught and the question asked again, [retries] times at most. *)
Fixpoint read_selection (retries : nat) : M (option Z) :=
  match retries with
  | O => ret None
  | S retries' =>
      line <- input "Selection: " ;;
      match PyInt.parse line with
      | Some selection => ret (Some selection)
      | None =>
          print "Invalid selection, must be an integer value." ;;;
          read_selection retries'
      end
  end.

(** [_get_user_int_selection] (lines 259-276) *)
Definition _get_user_int_selection (min_int max_int : Z) (max_retries : nat) : M (option Z) :=
  selection <- read_selection max_retries ;;
  match selection with
  | None => ret None
  | Some selection =>
      if ((selection <? min_int) || (selection >? max_int))%bool
      then ret None
      else ret (Some selection)
  end.

Definition max_retries_default : nat := 5.

(** [app_strs] of [_choose_app] (lines 196-198): the numbered names. *)
Definition app_strs (aws_info : list Entitlement) : list string :=
  imap (fun i app => "[" +:+ Str.of_nat i +:+ "] " +:+ app_name app) aws_info.

(** [_choose_app] (lines 188-214) *)
Definition _choose_app (aws_info : list Entitlement) : M (option Entitlement) :=
  match aws_info with
  | [] => ret None
  | _ =>
      match app_strs aws_info with
      | [] => ret None
      | _ =>
          print "Pick an app:" ;;;
          print_all (app_strs aws_info) ;;;
          selection <- _get_user_int_selection 0 (Z.of_nat (length aws_info) - 1)
                                               max_retries_default ;;
          match selection with
          | None => print "You made an invalid selection" ;;; exit (Some 1)
          | Some selection => app <- lift (py_index aws_info selection) ;; ret (Some app)
          end
      end
  end.

(** [_get_app_by_name] (lines 216-221): falls off the loop, and returns
    [None], when no name matches. *)
Fixpoint _get_app_by_name (aws_info : list Entitlement) (appname : string)
  : option Entitlement :=
  match aws_info with
  | [] => None
  | app :: aws_info' =>
      if String.eqb (app_name app) appname then Some app
      else _get_app_by_name aws_info' appname
  end.

(** The loop of [_get_role_by_name] over [app_info['roles']]. *)
Fixpoint role_by_name (roles : list Role) (rolename : string) : option Role :=
  match roles with
  | [] => None
  | role :: roles' =>
      if String.eqb (role_name role) rolename then Some role
      else role_by_name roles' rolename
  end.

(** [_get_role_by_name] (lines 223-228) *)
Definition _get_role_by_name (app_info : Entitlement) (rolename : string) : option Role :=
  role_by_name (app_roles app_info) rolename.

(** [role_strs] of [_choose_role] (lines 238-242): the numbered names. *)
Definition role_strs (app_info : Entitlement) : list string :=
  imap (fun i role => "[" +:+ Str.of_nat i +:+ "] " +:+ role_name role)
       (app_roles app_info).

(** [_choose_role] (lines 230-257). An application record and a role
    record are never falsy, so the two [if not ...] guards on them do not
    fire. *)
Definition _choose_role (app_info : Entitlement) : M (option Role) :=
  match role_strs app_info with
  | [] => ret None
  | _ =>
      print "Pick a role:" ;;;
      print_all (role_strs app_info) ;;;
      selection <- _get_user_int_selection 0 (Z.of_nat (length (app_roles app_info)) - 1)
                                           max_retries_default ;;
      match selection with
      | None => print "You made an invalid selection" ;;; exit (Some 1)
      | Some selection =>
          role <- lift (py_index (app_roles app_info) selection) ;; ret (Some role)
      end
  end.

(** [run], first part (lines 280-334): the configuration is checked, the
    user authenticated and the list of AWS applications obtained, from the
    Okta APIs or from the gimme-creds server. These are the statements of
    [main.py] itself: the effects of [config.update_config_file()] (line 284)
    and of the authentication calls (lines 309 and 322) on the standard
    streams are those of their own code and are not described here. *)
Definition run_accounts : M (list Entitlement) :=
  (if configure E then exit None else ret tt) ;;;
  (if negb (truthy (conf_dict E !! "okta_org_url"))
   then print "No Okta organization URL in configuration.  Try running --config again." ;;;
        exit (Some 1)
   else ret tt) ;;;
  (if negb (truthy (conf_dict E !! "gimme_creds_server"))
   then print "No Gimme-Creds server URL in configuration.  Try running --config again." ;;;
        exit (Some 1)
   else ret tt) ;;;
  okta_org_url <- lift (item (conf_dict E) "okta_org_url") ;;
  if bool_decide (conf_dict E !! "gimme_creds_server" = Some "internal") then
    match api_key E with
    | None => print "OKTA_API_KEY environment variable not found!" ;;; exit (Some 1)
    | Some okta_api_key =>
        print_no_end "Authentication Success! Getting AWS Accounts" ;;;
        _get_aws_account_info okta_org_url okta_api_key (auth_username E)
    end
  else
    (if negb (truthy (conf_dict E !! "client_id"))
     then print "No OAuth Client ID in configuration.  Try running --config again."
     else ret tt) ;;;
    (if negb (truthy (conf_dict E !! "okta_auth_server"))
     then print "No OAuth Authorization server in configuration.  Try running --config again."
     else ret tt) ;;;
    _client_id <- lift (item (conf_dict E) "client_id") ;;
    _authorization_server <- lift (item (conf_dict E) "okta_auth_server") ;;
    print "Authentication Success! Calling Gimme-Creds Server..." ;;;
    _call_gimme_creds_server.

(** [run], lines 336-346: the application, by name when the configuration
    names one, by asking otherwise. *)
Definition run_select_app (aws_results : list Entitlement) : M Entitlement :=
  aws_app <- (if negb (truthy (conf_dict E !! "aws_appname"))
              then _choose_app aws_results
              else appname <- lift (item (conf_dict E) "aws_appname") ;;
                   ret (_get_app_by_name aws_results appname)) ;;
  match aws_app with
  | None =>
      appname <- lift (item (conf_dict E) "aws_appname") ;;
      print ("AWS app " +:+ appname +:+ " not found for this user.") ;;;
      exit (Some 1)
  | Some aws_app => ret aws_app
  end.

(** [run], lines 348-356: the role, in the same way. *)
Definition run_select_role (aws_app : Entitlement) : M Role :=
  aws_role <- (if negb (truthy (conf_dict E !! "aws_rolename"))
               then _choose_role aws_app
               else rolename <- lift (item (conf_dict E) "aws_rolename") ;;
                    ret (_get_role_by_name aws_app rolename)) ;;
  match aws_role with
  | None => print "No roles available to this user." ;;; exit (Some 1)
  | Some aws_role => ret aws_role
  end.

(** [run], second part (lines 336-362): one application and one role are
    resolved and the two ARNs stored in [self]. *)
Definition run_selection (aws_results : list Entitlement) : M (Entitlement * Role) :=
  aws_app <- run_select_app aws_results ;;
  aws_role <- run_select_role aws_app ;;
  set_idp_arn (app_identityProviderArn aws_app) ;;;
  set_role_arn (role_arn aws_role) ;;;
  ret (aws_app, aws_role).

(** The profile name (lines 372-377): [default], the configured role name,
    or the configured profile. *)
Definition profile_name : exn + string :=
  match item (conf_dict E) "cred_profile" with
  | inl e => inl e
  | inr cred_profile =>
      if String.eqb (Str.lower cred_profile) "default" then inr "default"
      else if String.eqb (Str.lower cred_profile) "role"
           then item (conf_dict E) "aws_rolename"
           else inr cred_profile
  end.

(** [run], last part (lines 367-391): the credentials are written to the
    credential file or printed on standard error. *)
Definition run_delivery (aws_creds : Credentials) : M unit :=
  write_aws_creds <- lift (item (conf_dict E) "write_aws_creds") ;;
  if String.eqb write_aws_creds "True" then
    print ("writing to " +:+ " " +:+ AWS_CONFIG) ;;;
    profile_name <- lift profile_name ;;
    _write_aws_creds profile_name
                     (AccessKeyId aws_creds) (SecretAccessKey aws_creds) (SessionToken aws_creds)
  else
    print_err ("export AWS_ACCESS_KEY_ID=" +:+ AccessKeyId aws_creds) ;;;
    print_err ("export AWS_SECRET_ACCESS_KEY=" +:+ SecretAccessKey aws_creds) ;;;
    print_err ("export AWS_SESSION_TOKEN=" +:+ SessionToken aws_creds).

(** [run] (lines 278-393); [config.clean_up()], its last line, does not
    touch the world modelled here. *)
Definition run : M unit :=
  aws_results <- run_accounts ;;
  selected <- run_selection aws_results ;;
  let saml_data := get_saml_response E (appLink (app_links (fst selected))) in
  aws_creds <- _get_sts_creds saml_data 3600 ;;
  run_delivery aws_creds.

End GimmeAWSCreds.

(** ** Sample data: two AWS applications, their Okta records, a configuration *)

Module Sample.

Definition idp_111 : string := "arn:aws:iam::111:saml-provider/Okta".
Definition idp_222 : string := "arn:aws:iam::222:saml-provider/Okta".

(** An identity provider reference without [:saml-provider]. *)
Definition idp_oidc : string := "arn:aws:iam::111:oidc-provider/Okta".


Definition raw (label idp : string) (samlRoles : list string) : RawApp :=
  {| raw_name := "amazon_aws"; raw_id := "0oa1"; raw_label := label;
     raw_identityProviderArn := idp; raw_samlRoles := samlRoles;
     raw_appLinks := ["https://okta.example/home/amazon_aws/0oa1"];
     raw_logo := ["https://okta.example/logo.png"] |}.

(** A record of another connector type. *)
Definition other_raw : RawApp :=
  {| raw_name := "salesforce"; raw_id := "0oa9"; raw_label := "CRM";
     raw_identityProviderArn := EmptyString; raw_samlRoles := [];
     raw_appLinks := ["https://okta.example/home/salesforce/0oa9"];
     raw_logo := ["https://okta.example/logo2.png"] |}.

Definition links : Links :=
  {| appLink := "https://okta.example/home/amazon_aws/0oa1";
     appLogo := "https://okta.example/logo.png" |}.

Definition admin_111 : Role :=
  {| role_name := "Admin"; role_arn := "arn:aws:iam::111:role/Admin" |}.
Definition admin_222 : Role :=
  {| role_name := "Admin"; role_arn := "arn:aws:iam::222:role/Admin" |}.
Definition reader_111 : Role :=
  {| role_name := "Reader"; role_arn := "arn:aws:iam::111:role/Reader" |}.
(** A second role called Admin, with another ARN. *)
Definition admin_999 : Role :=
  {| role_name := "Admin"; role_arn := "arn:aws:iam::999:role/Admin" |}.

Definition prod : Entitlement :=
  {| app_id := "0oa1"; app_name := "Prod"; app_identityProviderArn := idp_111;
     app_roles := [admin_111]; app_links := links |}.
Definition dev : Entitlement :=
  {| app_id := "0oa2"; app_name := "Dev"; app_identityProviderArn := idp_222;
     app_roles := [admin_222]; app_links := links |}.
(** A second application called Prod. *)
Definition prod_again : Entitlement :=
  {| app_id := "0oa3"; app_name := "Prod"; app_identityProviderArn := idp_222;
     app_roles := [reader_111; admin_111; admin_999]; app_links := links |}.

Definition creds : Credentials :=
  {| AccessKeyId := "ASIAEXAMPLE"; SecretAccessKey := "secret"; SessionToken := "token" |}.

(** A configuration: [internal] says whether the Okta APIs are called
    directly, [write] is [write_aws_creds]. *)
Definition conf (internal : bool) (write cred_profile appname rolename : string)
  : gmap string string :=
  list_to_map
    [("okta_org_url", "https://example.okta.com");
     ("gimme_creds_server", if internal then "internal" else "https://creds.example");
     ("client_id", "0oaclient"); ("okta_auth_server", "aus1");
     ("write_aws_creds", write); ("cred_profile", cred_profile);
     ("aws_appname", appname); ("aws_rolename", rolename)].

(** An environment where every collaborator answers. *)
Definition env (conf_dict : gmap string string) (records : list RawApp)
           (served : list Entitlement) : Env :=
  {| FILE_ROOT := "/home/alice"; configure := false; api_key := Some "00key";
     conf_dict := conf_dict; auth_username := "alice";
     users_get := inr "00u1"; apps_first := inr records; apps_next := [];
     server_json := served;
     get_saml_response := fun _ => "PHNhbWw+";
     assume_role_with_saml := fun _ => Some creds |}.

(** A fresh process: nothing done yet, [~/.aws] present, no credential file. *)
Definition start (lines : list string) : world := init_world lines true None.

(** A credential file with a profile of the user's own. *)
Definition stored : ConfigParser.t :=
  ConfigParser.Parser
    [("region", "eu-west-1")]
    [("default", [("aws_access_key_id", "AKIAOLD"); ("output", "json")]);
     ("work", [("aws_access_key_id", "AKIAWORK")])].

End Sample.

(** ** Vocabulary of the statements *)

(** The world after more events, all else unchanged. *)
Definition extend (w : world) (events : list event) : world :=
  World (stdin w) (trace w ++ events)%list (creds_dir w) (creds_file w)
        (self_idp_arn w) (self_role_arn w).

(** The world with other lines left to read. *)
Definition with_stdin (w : world) (lines : list string) : world :=
  World lines (trace w) (creds_dir w) (creds_file w) (self_idp_arn w) (self_role_arn w).

(** A name of the configuration that is set: the key is there and its value
    is not the empty string. *)
Definition pinned (E : Env) (key name : string) : Prop :=
  conf_dict E !! key = Some name /\ name <> EmptyString.

(** The question of [_get_user_int_selection] and its complaint about an
    answer that is not an integer. *)
Definition question : event := Stdout "Selection: ".
Definition complaint : event :=
  Stdout ("Invalid selection, must be an integer value." +:+ Str.NL).

(** [k] answers refused: each was asked for and complained about. *)
Fixpoint refusals (k : nat) : list event :=
  match k with
  | O => []
  | S k' => question :: complaint :: refusals k'
  end.

(** A title and the numbered lines under it, as printed. *)
Definition menu (title : string) (lines : list string) : list event :=
  Stdout (title +:+ Str.NL) :: ((fun line => Stdout (line +:+ Str.NL)) <$> lines).

(** The lines that [int] refuses. *)
Definition not_integers (lines : list string) : Prop :=
  Forall (fun line => PyInt.parse line = None) lines.

(** Lines typed in ASCII characters: those that [PyInt.parse] reads as
    [int] does. *)
Definition ascii_lines (lines : list string) : Prop :=
  Forall (fun line => Str.ascii_only line = true) lines.

(** The records of the pages that follow the first, when every page could be
    fetched; the first error otherwise. *)
Fixpoint collect (pages : list (OktaError + list RawApp)) : OktaError + list RawApp :=
  match pages with
  | [] => inr []
  | inl e :: _ => inl e
  | inr records :: pages' =>
      match collect pages' with
      | inl e => inl e
      | inr more => inr (records ++ more)%list
      end
  end.

(** An application record and the entry made from it. *)
Definition entry_of (app : RawApp) (entry : Entitlement) : Prop :=
  app_id entry = raw_id app /\
  app_name entry = raw_label app /\
  app_identityProviderArn entry = raw_identityProviderArn app /\
  role_name <$> app_roles entry = raw_samlRoles app.

(** The records of the AWS connector type. *)
Definition aws_records (final_result : list RawApp) : list RawApp :=
  filter (fun app => raw_name app = "amazon_aws") final_result.

(** The role names of the record make plain templates for [re.sub]: none
    holds a backslash. *)
Definition plain_roles (app : RawApp) : Prop :=
  Forall (fun role => Re.plain_template (":role/" +:+ role) = true) (raw_samlRoles app).

(** The configuration that [_write_aws_creds] starts from: the credential
    file when there is one, an empty parser otherwise. *)
Definition stored_config (w : world) : ConfigParser.t :=
  match creds_file w with
  | Some stored => stored
  | None => ConfigParser.empty
  end.

Definition section_names (c : ConfigParser.t) : list string :=
  fst <$> ConfigParser.sections c.

(** The three options that hold the credentials. *)
Definition credential_options : list string :=
  ["aws_access_key_id"; "aws_secret_access_key"; "aws_session_token"].

(** The three [config.set] of [_write_aws_creds] (lines 76-78). *)
Definition set_credentials (config : ConfigParser.t)
           (profile access_key secret_key token : string) : exn + ConfigParser.t :=
  match ConfigParser.set config profile "aws_access_key_id" access_key with
  | inl e => inl e
  | inr c1 =>
      match ConfigParser.set c1 profile "aws_secret_access_key" secret_key with
      | inl e => inl e
      | inr c2 => ConfigParser.set c2 profile "aws_session_token" token
      end
  end.

(** What the parser of [_write_aws_creds] holds when it is written (lines
    73-78 on the configuration read). *)
Definition with_credentials (config : ConfigParser.t)
           (profile access_key secret_key token : string) : exn + ConfigParser.t :=
  match (if negb (ConfigParser.has_section config profile)
         then ConfigParser.add_section config profile
         else inr config) with
  | inl e => inl e
  | inr c => set_credentials c profile access_key secret_key token
  end.

(** The options of a section once the credentials are set in it. *)
Definition credentials_in (options : ConfigParser.alist string)
           (access_key secret_key token : string) : ConfigParser.alist string :=
  ConfigParser.put "aws_session_token" token
    (ConfigParser.put "aws_secret_access_key" secret_key
       (ConfigParser.put "aws_access_key_id" access_key options)).

(** The three lines of the credentials, as printed on standard error. *)
Definition export_lines (aws_creds : Credentials) : list string :=
  [("export AWS_ACCESS_KEY_ID=" +:+ AccessKeyId aws_creds) +:+ Str.NL;
   ("export AWS_SECRET_ACCESS_KEY=" +:+ SecretAccessKey aws_creds) +:+ Str.NL;
   ("export AWS_SESSION_TOKEN=" +:+ SessionToken aws_creds) +:+ Str.NL].

(** A computation keeps a relation between the world it starts in and the
    world it leaves, whatever its outcome. *)
Definition keeps {A} (R : world -> world -> Prop) (m : M A) : Prop :=
  forall w, R w (snd (m w)).

(** The second world is the first after some printing on standard output:
    no line was read, and the standard error, the credential file, the
    requests to the federation service and [self] are as they were. *)
Definition printed (w w' : world) : Prop :=
  exists texts, w' = extend w (Stdout <$> texts).

(** The second world is the first after printing on standard output and
    reading lines of standard input, and nothing else. *)
Definition asked (w w' : world) : Prop :=
  exists texts k, w' = with_stdin (extend w (Stdout <$> texts)) (drop k (stdin w)).

(** The pages asked for after the first: all of them, or those up to the
    first that fails, that one included. *)
Fixpoint fetched_pages (pages : list (OktaError + list RawApp)) : nat :=
  match pages with
  | [] => O
  | inl _ :: _ => 1
  | inr _ :: pages' => S (fetched_pages pages')
  end.

(** The line an [OktaError] handler prints: [not_found] for the error code
    [E0000007], the summary of the error otherwise. *)
Definition okta_message (not_found : string) (e : OktaError) : string :=
  (if String.eqb (error_code e) "E0000007" then not_found
   else "Error: " +:+ error_summary e) +:+ Str.NL.

(** The progress marks and the last line of a fetch that went through. *)
Definition progress (pages : nat) : list event :=
  replicate pages (Stdout ".") ++ [Stdout (("done" +:+ Str.NL) +:+ Str.NL)].

(** The request that [run] sends for an application and a role. *)
Definition request_for (E : Env) (app : Entitlement) (role : Role) : StsRequest :=
  {| RoleArn := Some (role_arn role);
     PrincipalArn := Some (app_identityProviderArn app);
     SAMLAssertion := get_saml_response E (appLink (app_links app));
     DurationSeconds := 3600 |}.

(** The world once an application and a role are stored in [self]. *)
Definition with_selection (w : world) (app : Entitlement) (role : Role) : world :=
  World (stdin w) (trace w) (creds_dir w) (creds_file w)
        (Some (app_identityProviderArn app)) (Some (role_arn role)).

(** The section of the profile holds the three credentials. *)
Definition profile_holds (c : ConfigParser.t) (profile access_key secret_key token : string)
  : Prop :=
  exists options,
    ConfigParser.get profile (ConfigParser.sections c) = Some options /\
    ConfigParser.get "aws_access_key_id" options = Some access_key /\
    ConfigParser.get "aws_secret_access_key" options = Some secret_key /\
    ConfigParser.get "aws_session_token" options = Some token.

(** A parser as a dict of dicts: no section name and no option name twice. *)
Definition distinct_names (c : ConfigParser.t) : Prop :=
  NoDup (section_names c) /\
  NoDup (ConfigParser.defaults c).*1 /\
  Forall (fun section => NoDup (section.2).*1) (ConfigParser.sections c).

(** The directory made when it is missing. *)
Definition made_dir (w : world) : list event :=
  if creds_dir w then [] else [MakeDirs].

(** A parser that its own text gives back: distinct names, as in the dicts
    of Python, made of characters that the text of the file holds as they
    are. *)
Definition plain_config (c : ConfigParser.t) : Prop :=
  distinct_names c /\ ConfigParser.plain c = true.

(** A profile name and three credentials that the text of the file holds as
    they are. *)
Definition plain_write (profile access_key secret_key token : string) : Prop :=
  ConfigParser.plain_section profile = true /\
  ConfigParser.plain_value access_key = true /\
  ConfigParser.plain_value secret_key = true /\
  ConfigParser.plain_value token = true.

(** The characters that do not end a line. *)
Definition no_break (c : ascii) : bool :=
  negb (Ascii.eqb c Str.LF) && negb (Ascii.eqb c Str.CR).

(** The lines that [config.write] makes of an option and of a section. *)
Definition option_text (item : string * string) : string := item.1 +:+ " = " +:+ item.2.

Definition header_line (name : string) : string := "[" +:+ name +:+ "]".

Definition section_lines (name : string) (items : ConfigParser.alist string) : list string :=
  header_line name :: (option_text <$> items) ++ [EmptyString].

(** The parser with one more option: what reading the line of an option
    under the header [name] adds to what was read before. *)
Definition store (c : ConfigParser.t) (name option value : string) : ConfigParser.t :=
  if String.eqb name ConfigParser.default_section
  then ConfigParser.Parser (ConfigParser.put option value (ConfigParser.defaults c))
                           (ConfigParser.sections c)
  else ConfigParser.Parser
         (ConfigParser.defaults c)
         (ConfigParser.put name
            (ConfigParser.put option value
               (default [] (ConfigParser.get name (ConfigParser.sections c))))
            (ConfigParser.sections c)).

(** The option is in the section of that name ([DEFAULT] names the
    defaults). *)
Definition recorded (c : ConfigParser.t) (name option : string) : Prop :=
  (name = ConfigParser.default_section /\ option ∈ (ConfigParser.defaults c).*1) \/
  (exists options, ConfigParser.get name (ConfigParser.sections c) = Some options /\
                   option ∈ options.*1).

(** The state of [config.read] between two lines: what was read so far makes
    the parser [c], the current section is [name], no line was refused, and
    the options the reader remembers are options of [c]. *)
Definition reads_as (r : ConfigParser.reading) (c : ConfigParser.t) (name : option string)
  : Prop :=
  ConfigParser.finish r = c /\ ConfigParser.sectname r = name /\
  ConfigParser.errors r = false /\
  forall n k, (n, k) ∈ ConfigParser.added_options r -> recorded c n k.

(** Every role of the entry has the ARN derived from the provider ARN of the
    entry and the name of the role. *)
Definition derived_roles (entry : Entitlement) : Prop :=
  Forall (fun role =>
            role_arn role = derive_role_arn (app_identityProviderArn entry) (role_name role))
         (app_roles entry).

(** * Properties *)

(** ** The regular expression substitution *)

Section ReSub.

Lemma app_cons (c : ascii) (s t : string) : String c s +:+ t = String c (s +:+ t).
Proof. reflexivity. Qed.

Lemma app_empty_l (s : string) : EmptyString +:+ s = s.
Proof. reflexivity. Qed.

Lemma app_empty_r (s : string) : s +:+ EmptyString = s.
Proof. induction s as [|c s IH]; [reflexivity|]. rewrite app_cons, IH. reflexivity. Qed.

Lemma app_assoc_str (s t u : string) : (s +:+ t) +:+ u = s +:+ t +:+ u.
Proof. induction s as [|c s IH]; [reflexivity|]. rewrite !app_cons, IH. reflexivity. Qed.



(** Without the literal there is no match: the string comes back as it is. *)
Lemma scan_no_marker (repl s : string) :
  Str.contains Re.marker s = false -> Re.scan repl false s = s.
Proof.
  induction s as [|c s IH]; intros H; [reflexivity|].
  cbn [Str.contains] in H. apply orb_false_iff in H as [Hp Hc].
  cbn [Re.scan]. rewrite Hp, (IH Hc). reflexivity.
Qed.


Lemma single_line_app (s t : string) :
  Str.single_line (s +:+ t) = true -> Str.single_line s = true /\ Str.single_line t = true.
Proof.
  induction s as [|c s IH]; [intros H; split; [reflexivity | exact H]|].
  rewrite app_cons. cbn [Str.single_line]. intros H.
  apply andb_true_iff in H as [Hc Hs]. destruct (IH Hs) as [H1 H2].
  rewrite Hc, H1. auto.
Qed.


End ReSub.

(** ** Derivation of the role ARN *)

Section RoleArn.







End RoleArn.




(** ** The exchange with the federation service *)

(** [_get_sts_creds] sends [self.role_arn] and [self.idp_arn] as they are
    and hands back what the service answers. *)
Lemma get_sts_creds_sends (E : Env) (assertion : string) (duration : Z) (w : world) :
  let req := {| RoleArn := self_role_arn w; PrincipalArn := self_idp_arn w;
                SAMLAssertion := assertion; DurationSeconds := duration |} in
  _get_sts_creds E assertion duration w
  = (match assume_role_with_saml E req with
     | Some creds => Return creds
     | None => Raise ClientError
     end,
     World (stdin w) (trace w ++ [StsCall req])%list (creds_dir w) (creds_file w)
           (self_idp_arn w) (self_role_arn w)).
Proof.
  intros req. unfold _get_sts_creds, bind, get_world, emit. cbn.
  fold req. destruct (assume_role_with_saml E req); reflexivity.
Qed.

(** C4, as stated, fails: with a provider reference that has no
    [:saml-provider], the role ARN is that reference, and the run sends it to
    the federation service and delivers the credentials it gets back. *)
Lemma unmarked_provider_counterexample :
  let E := Sample.env (Sample.conf true "False" "role" "Prod" "Admin")
                      [Sample.raw "Prod" Sample.idp_oidc ["Admin"]] [] in
  let r := run E (Sample.start []) in
  Str.contains Re.marker Sample.idp_oidc = false /\
  fst r = Return tt /\
  sts_calls_of (snd r)
  = [ {| RoleArn := Some Sample.idp_oidc; PrincipalArn := Some Sample.idp_oidc;
         SAMLAssertion := "PHNhbWw+"; DurationSeconds := 3600 |} ] /\
  stderr_of (snd r)
  = [ "export AWS_ACCESS_KEY_ID=ASIAEXAMPLE" +:+ Str.NL;
      "export AWS_SECRET_ACCESS_KEY=secret" +:+ Str.NL;
      "export AWS_SESSION_TOKEN=token" +:+ Str.NL ].
Proof. vm_compute. repeat split. Qed.

(** C4 (amended). For a provider reference that does not contain
    [:saml-provider] (and a role name without backslash) the derived role ARN
    is the provider reference, unchanged; the role record carries it, and
    [_get_sts_creds] sends the stored role ARN to the federation service
    without a check of its own: the exchange ends as the service decides. *)
Theorem unmarked_provider_is_submitted
    (E : Env) (idp role assertion : string) (duration : Z) (w : world) :
  Re.plain_template (":role/" +:+ role) = true ->
  Str.contains Re.marker idp = false ->
  self_role_arn w = Some (derive_role_arn idp role) ->
  derive_role_arn idp role = idp /\
  role_arn (role_info idp role) = idp /\
  let req := {| RoleArn := Some idp; PrincipalArn := self_idp_arn w;
                SAMLAssertion := assertion; DurationSeconds := duration |} in
  let r := _get_sts_creds E assertion duration w in
  trace (snd r) = (trace w ++ [StsCall req])%list /\
  fst r = match assume_role_with_saml E req with
          | Some creds => Return creds
          | None => Raise ClientError
          end.
Proof.
  intros _ Hc Hself.
  assert (derive_role_arn idp role = idp) as Hd by (apply scan_no_marker, Hc).
  split; [exact Hd|]. split; [exact Hd|].
  rewrite get_sts_creds_sends. rewrite Hself, Hd. cbn. auto.
Qed.

Lemma unmarked_provider_is_submitted_witness :
  let E := Sample.env (Sample.conf true "False" "role" "Prod" "Admin") [] [] in
  let w := World [] [] true None (Some Sample.idp_oidc) (Some Sample.idp_oidc) in
  derive_role_arn Sample.idp_oidc "Admin" = Sample.idp_oidc /\
  fst (_get_sts_creds E "PHNhbWw+" 3600 w) = Return Sample.creds.
Proof.
  intros E w.
  destruct (unmarked_provider_is_submitted E Sample.idp_oidc "Admin" "PHNhbWw+" 3600 w)
    as (Hd & _ & _ & Hr); try reflexivity.
  split; [exact Hd | exact Hr].
Defined.

(** ** Resolution by name *)

Section ByName.

Lemma get_app_by_name_none (aws_info : list Entitlement) (appname : string) :
  _get_app_by_name aws_info appname = None <->
  forall app, app ∈ aws_info -> app_name app <> appname.
Proof.
  induction aws_info as [|a l IH]; cbn [_get_app_by_name].
  - split; [intros _ app Hin; inversion Hin | reflexivity].
  - destruct (String.eqb_spec (app_name a) appname) as [Heq|Hne].
    + split; [discriminate|]. intros H. exfalso. apply (H a); [left | exact Heq].
    + rewrite IH. split.
      * intros H app Hin. apply elem_of_cons in Hin as [->|Hin]; auto.
      * intros H app Hin. apply H. right. exact Hin.
Qed.

Lemma get_app_by_name_first (before after : list Entitlement) (app : Entitlement)
      (appname : string) :
  (forall a, a ∈ before -> app_name a <> appname) ->
  app_name app = appname ->
  _get_app_by_name (before ++ app :: after) appname = Some app.
Proof.
  intros Hb Ha. induction before as [|b l IH]; cbn [_get_app_by_name List.app].
  - rewrite (proj2 (String.eqb_eq _ _) Ha). reflexivity.
  - rewrite (proj2 (String.eqb_neq _ _) (Hb b ltac:(left))).
    apply IH. intros a Hin. apply Hb. right. exact Hin.
Qed.

Lemma role_by_name_none (roles : list Role) (rolename : string) :
  role_by_name roles rolename = None <->
  forall role, role ∈ roles -> role_name role <> rolename.
Proof.
  induction roles as [|a l IH]; cbn [role_by_name].
  - split; [intros _ role Hin; inversion Hin | reflexivity].
  - destruct (String.eqb_spec (role_name a) rolename) as [Heq|Hne].
    + split; [discriminate|]. intros H. exfalso. apply (H a); [left | exact Heq].
    + rewrite IH. split.
      * intros H role Hin. apply elem_of_cons in Hin as [->|Hin]; auto.
      * intros H role Hin. apply H. right. exact Hin.
Qed.

Lemma role_by_name_first (before after : list Role) (role : Role) (rolename : string) :
  (forall r, r ∈ before -> role_name r <> rolename) ->
  role_name role = rolename ->
  role_by_name (before ++ role :: after) rolename = Some role.
Proof.
  intros Hb Ha. induction before as [|b l IH]; cbn [role_by_name List.app].
  - rewrite (proj2 (String.eqb_eq _ _) Ha). reflexivity.
  - rewrite (proj2 (String.eqb_neq _ _) (Hb b ltac:(left))).
    apply IH. intros r Hin. apply Hb. right. exact Hin.
Qed.

Lemma pinned_truthy (E : Env) (key name : string) :
  pinned E key name ->
  truthy (conf_dict E !! key) = true /\ item (conf_dict E) key = inr name.
Proof.
  intros [Hk Hn]. unfold item. rewrite Hk. destruct name; [congruence|]. auto.
Qed.

(** With a pinned application name the application is looked up, and
    nothing is asked. *)
Lemma run_select_app_pinned (E : Env) (aws_results : list Entitlement)
      (appname : string) (w : world) :
  pinned E "aws_appname" appname ->
  run_select_app E aws_results w
  = match _get_app_by_name aws_results appname with
    | Some app => (Return app, w)
    | None =>
        (Exit (Some 1),
         World (stdin w)
               (trace w ++ [Stdout ("AWS app " +:+ appname
                                    +:+ " not found for this user." +:+ Str.NL)])%list
               (creds_dir w) (creds_file w) (self_idp_arn w) (self_role_arn w))
    end.
Proof.
  intros Hp. destruct (pinned_truthy _ _ _ Hp) as [Ht Hi].
  unfold run_select_app, bind. rewrite Ht, Hi. cbn.
  destruct (_get_app_by_name aws_results appname); [reflexivity|].
  unfold print, exit. cbn. rewrite !app_assoc_str. reflexivity.
Qed.

Lemma run_select_role_pinned (E : Env) (aws_app : Entitlement)
      (rolename : string) (w : world) :
  pinned E "aws_rolename" rolename ->
  run_select_role E aws_app w
  = match _get_role_by_name aws_app rolename with
    | Some role => (Return role, w)
    | None =>
        (Exit (Some 1),
         World (stdin w)
               (trace w ++ [Stdout ("No roles available to this user." +:+ Str.NL)])%list
               (creds_dir w) (creds_file w) (self_idp_arn w) (self_role_arn w))
    end.
Proof.
  intros Hp. destruct (pinned_truthy _ _ _ Hp) as [Ht Hi].
  unfold run_select_role, bind. rewrite Ht, Hi. cbn.
  destruct (_get_role_by_name aws_app rolename); reflexivity.
Qed.

End ByName.

(** C10. In a list with several entries of the same name, the lookup by
    name returns the first entry of that name, for applications and for
    roles, and [None] when no entry has the name; with both names pinned,
    [run] resolves the application and the role without reading a line or
    printing a question. *)
Theorem pinned_lookup_first_match :
  (forall (before after : list Entitlement) (app : Entitlement) (appname : string),
     (forall a, a ∈ before -> app_name a <> appname) ->
     app_name app = appname ->
     _get_app_by_name (before ++ app :: after) appname = Some app) /\
  (forall (aws_info : list Entitlement) (appname : string),
     (forall a, a ∈ aws_info -> app_name a <> appname) ->
     _get_app_by_name aws_info appname = None) /\
  (forall (app_info : Entitlement) (before after : list Role) (role : Role) (rolename : string),
     app_roles app_info = (before ++ role :: after)%list ->
     (forall r, r ∈ before -> role_name r <> rolename) ->
     role_name role = rolename ->
     _get_role_by_name app_info rolename = Some role) /\
  (forall (app_info : Entitlement) (rolename : string),
     (forall r, r ∈ app_roles app_info -> role_name r <> rolename) ->
     _get_role_by_name app_info rolename = None) /\
  (forall (E : Env) (aws_results : list Entitlement) (appname rolename : string)
          (app : Entitlement) (role : Role) (w : world),
     pinned E "aws_appname" appname ->
     pinned E "aws_rolename" rolename ->
     _get_app_by_name aws_results appname = Some app ->
     _get_role_by_name app rolename = Some role ->
     run_selection E aws_results w
     = (Return (app, role),
        World (stdin w) (trace w) (creds_dir w) (creds_file w)
              (Some (app_identityProviderArn app)) (Some (role_arn role)))).
Proof.
  split; [exact get_app_by_name_first|].
  split; [intros l n H; apply get_app_by_name_none, H|].
  split; [intros a b c r n Hr Hb Hn; unfold _get_role_by_name; rewrite Hr;
          apply role_by_name_first; assumption|].
  split; [intros a n H; apply role_by_name_none, H|].
  intros E aws_results appname rolename app role w Ha Hr Happ Hrole.
  unfold run_selection, bind.
  rewrite (run_select_app_pinned E aws_results appname w Ha), Happ.
  rewrite (run_select_role_pinned E app rolename w Hr), Hrole.
  reflexivity.
Qed.

Lemma pinned_lookup_first_match_witness :
  let E := Sample.env (Sample.conf false "False" "role" "Prod" "Admin") [] [] in
  let aws_results := [Sample.dev; Sample.prod_again; Sample.prod] in
  _get_app_by_name aws_results "Prod" = Some Sample.prod_again /\
  _get_app_by_name aws_results "prod" = None /\
  _get_role_by_name Sample.prod_again "Admin" = Some Sample.admin_111 /\
  _get_role_by_name Sample.prod_again "admin" = None /\
  run_selection E aws_results (Sample.start ["1"])
  = (Return (Sample.prod_again, Sample.admin_111),
     World ["1"] [] true None (Some Sample.idp_222) (Some "arn:aws:iam::111:role/Admin")).
Proof.
  intros E aws_results.
  destruct pinned_lookup_first_match as (Happ & Hnone & Hrole & Hrnone & Hrun).
  split; [apply (Happ [Sample.dev] [Sample.prod] Sample.prod_again "Prod");
          [intros a Hin; apply list_elem_of_singleton in Hin; subst a; discriminate
          | reflexivity]|].
  split; [apply Hnone; intros a Hin; repeat (apply elem_of_cons in Hin as [->|Hin]);
          try discriminate; inversion Hin|].
  split; [apply (Hrole Sample.prod_again [Sample.reader_111] [Sample.admin_999]);
          [reflexivity
          | intros r Hin; apply list_elem_of_singleton in Hin; subst r; discriminate
          | reflexivity]|].
  split; [apply Hrnone; intros r Hin; repeat (apply elem_of_cons in Hin as [->|Hin]);
          try discriminate; inversion Hin|].
  apply (Hrun E aws_results "Prod" "Admin"); try reflexivity;
    (split; [reflexivity | discriminate]).
Defined.

(** C6 (what the code does). The two stages do not follow the same policy.
    A pinned application that is not in the list ends the run with status 1
    after a message that names it ([Staging] below). A pinned role that the
    resolved application does not have ([Nope] below, for an application
    whose role is [Admin]) ends it with status 1 after the fixed text
    [No roles available to this user.]: the missing role is not named, and
    the text is not true of a user who has the role [Admin]. In both cases
    nothing is asked, no line is read and [self] is left as it was. *)
Theorem missing_pinned_role_is_not_named :
  let app_stage :=
    run_selection (Sample.env (Sample.conf false "False" "role" "Staging" "Admin") [] [])
                  [Sample.prod] (Sample.start ["0"]) in
  let role_stage :=
    run_selection (Sample.env (Sample.conf false "False" "role" "Prod" "Nope") [] [])
                  [Sample.prod] (Sample.start ["0"]) in
  (app_stage
   = (Exit (Some 1),
      World ["0"] [Stdout ("AWS app Staging not found for this user." +:+ Str.NL)]
            true None None None) /\
   Str.contains "Staging" ("AWS app Staging not found for this user." +:+ Str.NL) = true) /\
  (role_stage
   = (Exit (Some 1),
      World ["0"] [Stdout ("No roles available to this user." +:+ Str.NL)]
            true None None None) /\
   Str.contains "Nope" ("No roles available to this user." +:+ Str.NL) = false /\
   role_name <$> app_roles Sample.prod = ["Admin"]).
Proof. vm_compute. repeat split. Qed.

(** What [run] does with a pinned name that has no match, for every list. A
    pinned application name without an exact match ends the run with status 1
    after one message that names the application; a pinned role name without
    an exact match among the roles of the resolved application ends it with
    status 1 after the fixed message [No roles available to this user.]. In
    both cases nothing is asked and nothing but the message changes: no line
    is read, the credential file and the two ARNs of [self] stay as they
    were. *)
Lemma pinned_name_not_found (E : Env) (aws_results : list Entitlement) (w : world) :
  (forall appname,
     pinned E "aws_appname" appname ->
     (forall a, a ∈ aws_results -> app_name a <> appname) ->
     run_selection E aws_results w
     = (Exit (Some 1),
        World (stdin w)
              (trace w ++ [Stdout ("AWS app " +:+ appname
                                   +:+ " not found for this user." +:+ Str.NL)])%list
              (creds_dir w) (creds_file w) (self_idp_arn w) (self_role_arn w))) /\
  (forall aws_app rolename,
     pinned E "aws_rolename" rolename ->
     (forall r, r ∈ app_roles aws_app -> role_name r <> rolename) ->
     let failed :=
       (@Exit (Entitlement * Role) (Some 1),
        World (stdin w)
              (trace w ++ [Stdout ("No roles available to this user." +:+ Str.NL)])%list
              (creds_dir w) (creds_file w) (self_idp_arn w) (self_role_arn w)) in
     (forall w0, run_select_app E aws_results w0 = (Return aws_app, w) ->
                 run_selection E aws_results w0 = failed) /\
     (forall appname, pinned E "aws_appname" appname ->
                      _get_app_by_name aws_results appname = Some aws_app ->
                      run_selection E aws_results w = failed)).
Proof.
  split.
  - intros appname Hp Hnone. unfold run_selection, bind.
    rewrite (run_select_app_pinned E aws_results appname w Hp).
    rewrite (proj2 (get_app_by_name_none _ _) Hnone). reflexivity.
  - intros aws_app rolename Hp Hnone failed.
    assert (run_select_role E aws_app w
            = (Exit (Some 1), snd failed)) as Hrole.
    { rewrite (run_select_role_pinned E aws_app rolename w Hp).
      unfold _get_role_by_name. rewrite (proj2 (role_by_name_none _ _) Hnone). reflexivity. }
    split.
    + intros w0 Happ. unfold run_selection, bind. rewrite Happ, Hrole. reflexivity.
    + intros appname Hpa Happ. unfold run_selection, bind.
      rewrite (run_select_app_pinned E aws_results appname w Hpa), Happ, Hrole. reflexivity.
Qed.

Lemma pinned_name_not_found_witness :
  run_selection (Sample.env (Sample.conf false "False" "role" "Staging" "Admin") [] [])
                [Sample.prod; Sample.dev] (Sample.start ["0"])
  = (Exit (Some 1),
     World ["0"] [Stdout ("AWS app Staging not found for this user." +:+ Str.NL)]
           true None None None) /\
  run_selection (Sample.env (Sample.conf false "False" "role" "Prod" "Nope") [] [])
                [Sample.prod; Sample.dev] (Sample.start ["0"])
  = (Exit (Some 1),
     World ["0"] [Stdout ("No roles available to this user." +:+ Str.NL)]
           true None None None).
Proof.
  split.
  - apply (proj1 (pinned_name_not_found
                    (Sample.env (Sample.conf false "False" "role" "Staging" "Admin") [] [])
                    [Sample.prod; Sample.dev] (Sample.start ["0"])) "Staging").
    + split; [reflexivity | discriminate].
    + intros a Hin. repeat (apply elem_of_cons in Hin as [->|Hin]);
        try discriminate; inversion Hin.
  - assert (pinned (Sample.env (Sample.conf false "False" "role" "Prod" "Nope") [] [])
                   "aws_rolename" "Nope") as Hrole
      by (split; [reflexivity | discriminate]).
    assert (forall r, r ∈ app_roles Sample.prod -> role_name r <> "Nope") as Hnone
      by (intros r Hin; repeat (apply elem_of_cons in Hin as [->|Hin]);
          try discriminate; inversion Hin).
    destruct (proj2 (pinned_name_not_found _ [Sample.prod; Sample.dev] (Sample.start ["0"]))
                    Sample.prod "Nope" Hrole Hnone) as [_ H].
    apply (H "Prod"); [split; [reflexivity | discriminate] | reflexivity].
Defined.

(** ** Interactive selection *)

Section Interactive.

Lemma extend_extend (w : world) (es es' : list event) :
  extend (extend w es) es' = extend w (es ++ es').
Proof. unfold extend. cbn. rewrite <- app_assoc. reflexivity. Qed.

Lemma extend_nil (w : world) : extend w [] = w.
Proof. destruct w. unfold extend. cbn. rewrite app_nil_r. reflexivity. Qed.

Lemma print_all_trace (texts : list string) (w : world) :
  print_all texts w
  = (Return tt, extend w ((fun line => Stdout (line +:+ Str.NL)) <$> texts)).
Proof.
  revert w. induction texts as [|t l IH]; intros w; cbn [print_all].
  - unfold ret. rewrite extend_nil. reflexivity.
  - unfold bind, print, emit. cbn. rewrite IH. unfold extend. cbn.
    rewrite <- app_assoc. reflexivity.
Qed.

(** The loop asks again after each line that is not an integer, and stops
    at the first integer. *)
Lemma read_selection_integer (retries : nat) (bad : list string) (line : string) (n : Z)
      (rest : list string) (w : world) :
  not_integers bad -> (length bad < retries)%nat -> PyInt.parse line = Some n ->
  stdin w = (bad ++ line :: rest)%list ->
  read_selection retries w
  = (Return (Some n), with_stdin (extend w (refusals (length bad) ++ [question])) rest).
Proof.
  revert retries w. induction bad as [|b bad IH]; intros retries w Hbad Hlen Hline Hin.
  - destruct retries as [|retries]; [cbn in Hlen; lia|].
    cbn [read_selection]. unfold bind, input, emit, bind. cbn. cbn in Hin.
    rewrite Hin, Hline. reflexivity.
  - destruct retries as [|retries]; [cbn in Hlen; lia|].
    apply Forall_cons in Hbad as [Hb Hbad].
    cbn [read_selection]. unfold bind at 1, input, emit, bind. cbn. cbn in Hin.
    rewrite Hin, Hb. unfold bind, print, emit. cbn.
    erewrite IH; [| exact Hbad | cbn in Hlen; lia | exact Hline | reflexivity].
    unfold with_stdin, extend. cbn. rewrite <- !app_assoc. reflexivity.
Qed.

(** After [retries] lines that are not integers the loop gives up. *)
Lemma read_selection_exhausted (retries : nat) (bad rest : list string) (w : world) :
  not_integers bad -> length bad = retries -> stdin w = (bad ++ rest)%list ->
  read_selection retries w
  = (Return None, with_stdin (extend w (refusals retries)) rest).
Proof.
  revert retries w. induction bad as [|b bad IH]; intros retries w Hbad Hlen Hin.
  - cbn in Hlen. subst retries. cbn. unfold ret, with_stdin. rewrite extend_nil.
    cbn in Hin. rewrite <- Hin. destruct w; reflexivity.
  - destruct retries as [|retries]; [discriminate|].
    apply Forall_cons in Hbad as [Hb Hbad].
    cbn [read_selection]. unfold bind at 1, input, emit, bind. cbn. cbn in Hin.
    rewrite Hin, Hb. unfold bind, print, emit. cbn.
    erewrite IH; [| exact Hbad | cbn in Hlen; lia | reflexivity].
    unfold with_stdin, extend. cbn. rewrite <- !app_assoc. reflexivity.
Qed.

(** [_get_user_int_selection] for any bounds, hence for roles as for
    applications: the first integer decides, in range or not. *)
Lemma get_user_int_selection_integer (min_int max_int : Z) (bad : list string)
      (line : string) (n : Z) (rest : list string) (w : world) :
  not_integers bad -> (length bad < max_retries_default)%nat -> PyInt.parse line = Some n ->
  stdin w = (bad ++ line :: rest)%list ->
  _get_user_int_selection min_int max_int max_retries_default w
  = (Return (if ((min_int <=? n) && (n <=? max_int))%bool then Some n else None),
     with_stdin (extend w (refusals (length bad) ++ [question])) rest).
Proof.
  intros Hbad Hlen Hline Hin. unfold _get_user_int_selection, bind.
  rewrite (read_selection_integer max_retries_default bad line n rest w Hbad Hlen Hline Hin).
  rewrite Z.gtb_ltb.
  destruct (Z.ltb_spec n min_int), (Z.ltb_spec max_int n),
           (Z.leb_spec min_int n), (Z.leb_spec n max_int); try lia; reflexivity.
Qed.

Lemma choose_app_nonempty (aws_info : list Entitlement) (w : world) :
  aws_info <> [] ->
  _choose_app aws_info w
  = (selection <- _get_user_int_selection 0 (Z.of_nat (length aws_info) - 1)
                                          max_retries_default ;;
     match selection with
     | None => print "You made an invalid selection" ;;; exit (Some 1)
     | Some selection => app <- lift (py_index aws_info selection) ;; ret (Some app)
     end) (extend w (menu "Pick an app:" (app_strs aws_info))).
Proof.
  intros Hne. unfold _choose_app.
  destruct aws_info as [|a l]; [congruence|].
  destruct (app_strs (a :: l)) as [|s strs] eqn:Hs; [discriminate Hs|].
  unfold bind at 1, print at 1, emit. unfold bind at 1. rewrite print_all_trace.
  unfold extend, menu. cbn [stdin trace creds_dir creds_file self_idp_arn self_role_arn].
  rewrite <- app_assoc. reflexivity.
Qed.

Lemma py_index_spec {A} (l : list A) (n : Z) :
  0 <= n ->
  py_index l n = match l !! Z.to_nat n with Some a => inr a | None => inl IndexError end.
Proof.
  intros Hn. unfold py_index.
  destruct (n <? 0) eqn:H1; [apply Z.ltb_lt in H1; lia|]. rewrite H1. reflexivity.
Qed.

End Interactive.

(** C2, as stated, fails: an integer out of range ends the loop like any
    integer, and [_choose_app] then leaves with status 1. With the lines
    [x], [9], [0] and two applications the question is asked twice, [9] is
    refused as a selection and [0] is never read. *)
Lemma out_of_range_counterexample :
  let r := _choose_app [Sample.prod; Sample.dev] (Sample.start ["x"; "9"; "0"]) in
  fst r = Exit (Some 1) /\
  fst r <> Return (Some Sample.prod) /\
  stdin (snd r) = ["0"] /\
  trace (snd r)
  = (menu "Pick an app:" ["[0] Prod"; "[1] Dev"]
     ++ [question; complaint; question;
         Stdout ("You made an invalid selection" +:+ Str.NL)])%list.
Proof. vm_compute. repeat split. discriminate. Qed.

(** C2 (amended). [_choose_app] on a list that is not empty prints the
    numbered names and asks for a selection. Each line that is not an integer
    is answered by a complaint and the question again, five questions at
    most. The first integer ends the loop: in range it selects the
    application of that index; out of range it is not asked again, the
    message [You made an invalid selection] is printed and the process leaves
    with status 1, as it does after five lines that are not integers. (For
    lines typed in ASCII characters, on which [PyInt.parse] is [int].) *)
Theorem choose_app_selection (aws_info : list Entitlement) (w : world) :
  aws_info <> [] ->
  let asked := extend w (menu "Pick an app:" (app_strs aws_info)) in
  let invalid := Stdout ("You made an invalid selection" +:+ Str.NL) in
  (forall (bad : list string) (line : string) (n : Z) (rest : list string),
     ascii_lines bad -> Str.ascii_only line = true ->
     not_integers bad -> (length bad < 5)%nat -> PyInt.parse line = Some n ->
     stdin w = (bad ++ line :: rest)%list ->
     _choose_app aws_info w
     = match (if 0 <=? n then aws_info !! Z.to_nat n else None) with
       | Some app =>
           (Return (Some app),
            with_stdin (extend asked (refusals (length bad) ++ [question])) rest)
       | None =>
           (Exit (Some 1),
            with_stdin (extend asked (refusals (length bad) ++ [question; invalid])) rest)
       end) /\
  (forall (bad rest : list string),
     ascii_lines bad ->
     not_integers bad -> length bad = 5%nat -> stdin w = (bad ++ rest)%list ->
     _choose_app aws_info w
     = (Exit (Some 1), with_stdin (extend asked (refusals 5 ++ [invalid])) rest)).
Proof.
  intros Hne asked invalid. split.
  - intros bad line n rest _ _ Hbad Hlen Hline Hin.
    rewrite (choose_app_nonempty aws_info w Hne). fold asked.
    unfold bind at 1, _get_user_int_selection, bind at 1.
    rewrite (read_selection_integer max_retries_default bad line n rest asked Hbad Hlen Hline Hin).
    destruct (0 <=? n) eqn:H0.
    + apply Z.leb_le in H0.
      assert ((n <? 0) = false) as -> by (apply Z.ltb_ge; lia). cbn [orb].
      destruct (aws_info !! Z.to_nat n) as [app|] eqn:Hl.
      * pose proof (lookup_lt_Some _ _ _ Hl) as Hlt.
        assert ((n >? Z.of_nat (length aws_info) - 1) = false) as ->
            by (rewrite Z.gtb_ltb; apply Z.ltb_ge; lia).
        unfold ret at 1, bind. rewrite (py_index_spec aws_info n H0), Hl.
        reflexivity.
      * apply lookup_ge_None in Hl.
        assert ((n >? Z.of_nat (length aws_info) - 1) = true) as ->
            by (rewrite Z.gtb_ltb; apply Z.ltb_lt; lia).
        unfold ret, bind, print, emit, exit, with_stdin, extend. cbn.
        rewrite <- !app_assoc. reflexivity.
    + apply Z.leb_gt in H0.
      assert ((n <? 0) = true) as -> by (apply Z.ltb_lt; lia). cbn [orb].
      unfold ret, bind, print, emit, exit, with_stdin, extend. cbn.
      rewrite <- !app_assoc. reflexivity.
  - intros bad rest _ Hbad Hlen Hin.
    rewrite (choose_app_nonempty aws_info w Hne). fold asked.
    unfold bind at 1, _get_user_int_selection, bind at 1.
    rewrite (read_selection_exhausted max_retries_default bad rest asked Hbad Hlen Hin).
    unfold ret, bind, print, emit, exit, with_stdin, extend. cbn.
    rewrite <- !app_assoc. reflexivity.
Qed.

Lemma choose_app_selection_witness :
  _choose_app [Sample.prod; Sample.dev] (Sample.start ["x"; "0"])
  = (Return (Some Sample.prod),
     World [] (menu "Pick an app:" ["[0] Prod"; "[1] Dev"]
               ++ [question; complaint; question])%list
           true None None None) /\
  _choose_app [Sample.prod; Sample.dev] (Sample.start ["x"; "9"; "0"])
  = (Exit (Some 1),
     World ["0"] (menu "Pick an app:" ["[0] Prod"; "[1] Dev"]
                  ++ [question; complaint; question;
                      Stdout ("You made an invalid selection" +:+ Str.NL)])%list
           true None None None) /\
  _choose_app [Sample.prod; Sample.dev] (Sample.start ["a"; "b"; "c"; "d"; "e"; "0"])
  = (Exit (Some 1),
     World ["0"] (menu "Pick an app:" ["[0] Prod"; "[1] Dev"]
                  ++ refusals 5
                  ++ [Stdout ("You made an invalid selection" +:+ Str.NL)])%list
           true None None None).
Proof.
  assert ([Sample.prod; Sample.dev] <> []) as Hne by discriminate.
  split; [|split].
  - apply (proj1 (choose_app_selection _ (Sample.start ["x"; "0"]) Hne) ["x"] "0" 0 []);
      [repeat constructor | reflexivity | repeat constructor | cbn; lia
      | reflexivity | reflexivity].
  - apply (proj1 (choose_app_selection _ (Sample.start ["x"; "9"; "0"]) Hne) ["x"] "9" 9 ["0"]);
      [repeat constructor | reflexivity | repeat constructor | cbn; lia
      | reflexivity | reflexivity].
  - apply (proj2 (choose_app_selection _ (Sample.start ["a"; "b"; "c"; "d"; "e"; "0"]) Hne)
                 ["a"; "b"; "c"; "d"; "e"] ["0"]);
      [repeat constructor | repeat constructor | reflexivity | reflexivity].
Defined.

(** ** The list of AWS applications *)

Section Catalog.

Lemma new_app_entry_spec (app : RawApp) (entry : Entitlement) :
  new_app_entry app = inr entry -> entry_of app entry.
Proof.
  unfold new_app_entry.
  destruct (raw_appLinks app) as [|link ?]; [discriminate|].
  destruct (raw_logo app) as [|logo ?]; [discriminate|].
  intros [= <-]. unfold entry_of. cbn. repeat split.
  rewrite <- list_fmap_compose. apply list_fmap_id.
Qed.

(** Every record of the AWS connector type gets its entry, in order,
    whatever its [samlRoles]. *)
Lemma app_list_of_spec (final_result : list RawApp) (app_list : list Entitlement) :
  app_list_of final_result = inr app_list ->
  Forall2 entry_of (aws_records final_result) app_list.
Proof.
  revert app_list. induction final_result as [|app rest IH]; intros app_list H.
  - injection H as <-. constructor.
  - cbn [app_list_of] in H. unfold aws_records. rewrite filter_cons.
    destruct (String.eqb_spec (raw_name app) "amazon_aws") as [Heq|Hne].
    + rewrite decide_True by exact Heq.
      destruct (new_app_entry app) as [e|entry] eqn:He; [discriminate|].
      destruct (app_list_of rest) as [e|l]; [discriminate|].
      injection H as <-. constructor; [apply new_app_entry_spec, He | apply IH; reflexivity].
    + rewrite decide_False by exact Hne. apply IH, H.
Qed.

(** The builder goes through when every AWS record has its two links. *)
Lemma app_list_of_total (final_result : list RawApp) :
  (forall app, app ∈ aws_records final_result ->
               raw_appLinks app <> [] /\ raw_logo app <> []) ->
  exists app_list, app_list_of final_result = inr app_list.
Proof.
  induction final_result as [|app rest IH]; intros H; [exists []; reflexivity|].
  cbn [app_list_of]. unfold aws_records in H. rewrite filter_cons in H.
  destruct (String.eqb_spec (raw_name app) "amazon_aws") as [Heq|Hne].
  - rewrite decide_True in H by exact Heq.
    destruct (H app ltac:(left)) as [Hl Hg].
    destruct IH as [l Hl']; [intros a Ha; apply H; right; exact Ha|].
    unfold new_app_entry.
    destruct (raw_appLinks app); [congruence|]. destruct (raw_logo app); [congruence|].
    rewrite Hl'. eexists. reflexivity.
  - rewrite decide_False in H by exact Hne. apply IH, H.
Qed.

Lemma next_pages_result (pages : list (OktaError + list RawApp))
      (final_result : list RawApp) (w : world) :
  exists events,
    next_pages pages final_result w
    = (Return (match collect pages with
               | inl e => inl e
               | inr more => inr (final_result ++ more)%list
               end), extend w events).
Proof.
  revert final_result w. induction pages as [|[e|records] pages IH]; intros final_result w.
  - exists []. cbn. unfold ret. rewrite extend_nil, app_nil_r. reflexivity.
  - exists [Stdout "."]. reflexivity.
  - cbn [next_pages collect]. unfold bind, print_no_end, emit.
    destruct (IH (final_result ++ records)%list (extend w [Stdout "."])) as [events Hev].
    exists (Stdout "." :: events). unfold extend in Hev at 1. rewrite Hev.
    rewrite extend_extend. destruct (collect pages); [reflexivity|].
    rewrite <- app_assoc. reflexivity.
Qed.

Lemma okta_error_exits {A} (not_found : string) (e : OktaError) (w : world) :
  exists text, @okta_error A not_found e w = (Exit (Some 1), extend w [Stdout text]).
Proof.
  unfold okta_error, bind. destruct (String.eqb (error_code e) "E0000007");
    eexists; reflexivity.
Qed.

(** What [_get_aws_account_info] does once the user and every page could be
    fetched: the entries of the AWS records are returned, and an empty list
    of entries ends the process through [exit()]. *)
Lemma get_aws_account_info_fetched (E : Env) (okta_org_url okta_api_key username user : string)
      (first more : list RawApp) (app_list : list Entitlement) (w : world) :
  users_get E = inr user -> apps_first E = inr first -> collect (apps_next E) = inr more ->
  app_list_of (first ++ more) = inr app_list ->
  exists events,
    _get_aws_account_info E okta_org_url okta_api_key username w
    = match app_list with
      | [] => (Exit None,
               extend w (events ++ [Stdout ("No AWS accounts found." +:+ Str.NL)]))
      | _ => (Return app_list, extend w events)
      end.
Proof.
  intros Hu Hf Hc Hl. unfold _get_aws_account_info. rewrite Hu, Hf.
  unfold bind at 1, ret at 1. unfold bind at 1.
  destruct (next_pages_result (apps_next E) first w) as [events Hev].
  rewrite Hev, Hc. unfold bind at 1, bind at 1, print at 1, emit. cbn [ret].
  unfold bind at 1. rewrite Hl. cbn [lift ret].
  exists (events ++ [Stdout (("done" +:+ Str.NL) +:+ Str.NL)])%list.
  destruct app_list.
  - unfold bind, print, emit, exit, extend. cbn. rewrite <- !app_assoc. reflexivity.
  - unfold ret, extend. cbn. rewrite <- !app_assoc. reflexivity.
Qed.

End Catalog.

(** C3, as stated, fails: a record of the AWS connector type whose
    [samlRoles] is empty is kept, with an empty list of roles. *)
Lemma empty_roles_counterexample :
  let E := Sample.env (Sample.conf true "False" "role" EmptyString EmptyString)
                      [Sample.raw "Prod" Sample.idp_111 []] [] in
  let r := _get_aws_account_info E "https://example.okta.com" "00key" "alice"
                                 (Sample.start []) in
  fst r = Return [ {| app_id := "0oa1"; app_name := "Prod";
                      app_identityProviderArn := Sample.idp_111;
                      app_roles := []; app_links := Sample.links |} ] /\
  ~ (forall app_list, fst r = Return app_list ->
       forall entry, entry ∈ app_list -> app_roles entry <> []).
Proof.
  cbn zeta. split; [vm_compute; reflexivity|].
  intros H. eapply H; [vm_compute; reflexivity | left | reflexivity].
Qed.

(** C3 (amended). The list that [_get_aws_account_info] returns holds one
    entry per record of the AWS connector type, in the order of the pages,
    and the roles of an entry are the names of the record's [samlRoles], one
    role per name: an entry has no role exactly when [samlRoles] is empty,
    and such records are not filtered out. The list itself is not empty. *)
Theorem catalog_roles_follow_samlRoles
    (E : Env) (okta_org_url okta_api_key username : string)
    (w w' : world) (app_list : list Entitlement) :
  _get_aws_account_info E okta_org_url okta_api_key username w = (Return app_list, w') ->
  app_list <> [] /\
  exists first more,
    apps_first E = inr first /\ collect (apps_next E) = inr more /\
    Forall2 (fun app entry =>
               entry_of app entry /\
               length (app_roles entry) = length (raw_samlRoles app) /\
               (app_roles entry = [] <-> raw_samlRoles app = []))
            (aws_records (first ++ more)) app_list.
Proof.
  intros H.
  destruct (users_get E) as [e|user] eqn:Hu.
  { exfalso. unfold _get_aws_account_info in H. rewrite Hu in H. unfold bind at 1 in H.
    destruct (okta_error_exits (A := string)
                ("Error: " +:+ username +:+ " was not found!") e w) as [text Ht].
    rewrite Ht in H. discriminate. }
  assert (forall e, apps_first E = inl e \/
                       (exists first, apps_first E = inr first /\
                                      collect (apps_next E) = inl e) -> False) as Hbad.
  { intros e Hcase. unfold _get_aws_account_info in H. rewrite Hu in H.
    unfold bind at 1, ret at 1 in H. unfold bind at 1 in H.
    destruct Hcase as [Hf|(first & Hf & Hc)]; rewrite Hf in H.
    - unfold ret at 1 in H. unfold bind at 1 in H.
      destruct (okta_error_exits (A := list RawApp)
                  ("Error: No applications found for " +:+ username) e w) as [text Ht].
      rewrite Ht in H. discriminate.
    - destruct (next_pages_result (apps_next E) first w) as [events Hev].
      rewrite Hev, Hc in H. unfold bind at 1 in H.
      destruct (okta_error_exits (A := list RawApp)
                  ("Error: No applications found for " +:+ username) e
                  (extend w events)) as [text Ht].
      rewrite Ht in H. discriminate. }
  destruct (apps_first E) as [e|first] eqn:Hf; [exfalso; apply (Hbad e); auto|].
  destruct (collect (apps_next E)) as [e|more] eqn:Hc;
    [exfalso; apply (Hbad e); right; eauto|].
  clear Hbad.
  destruct (app_list_of (first ++ more)) as [e|l] eqn:Hl.
  { exfalso. unfold _get_aws_account_info in H. rewrite Hu, Hf in H.
    unfold bind at 1, ret at 1 in H. unfold bind at 1 in H.
    destruct (next_pages_result (apps_next E) first w) as [events Hev].
    rewrite Hev, Hc in H. unfold bind at 1, bind at 1, print at 1, emit in H. cbn [ret] in H.
    unfold bind at 1 in H. rewrite Hl in H. discriminate. }
  destruct (get_aws_account_info_fetched E okta_org_url okta_api_key username user
              first more l w Hu Hf Hc Hl) as [events Hev].
  rewrite Hev in H. destruct l as [|entry l]; [discriminate|].
  injection H as <- _. split; [discriminate|].
  exists first, more. split; [reflexivity|]. split; [reflexivity|].
  apply app_list_of_spec in Hl. eapply Forall2_impl; [exact Hl|].
  intros app e He. split; [exact He|].
  destruct He as (_ & _ & _ & Hroles).
  assert (length (app_roles e) = length (raw_samlRoles app)) as Hlen
      by (rewrite <- Hroles, length_fmap; reflexivity).
  split; [exact Hlen|].
  split; intros Hnil; rewrite Hnil in Hlen; cbn in Hlen.
  - destruct (raw_samlRoles app); [reflexivity | discriminate].
  - destruct (app_roles e); [reflexivity | discriminate].
Qed.

Lemma catalog_roles_follow_samlRoles_witness :
  let E := Sample.env (Sample.conf true "False" "role" EmptyString EmptyString)
                      [Sample.raw "Prod" Sample.idp_111 ["Admin"; "Reader"];
                       Sample.raw "Empty" Sample.idp_222 []] [] in
  exists app_list w',
    _get_aws_account_info E "https://example.okta.com" "00key" "alice" (Sample.start [])
    = (Return app_list, w') /\
    app_list <> [] /\
    (length <$> (app_roles <$> app_list)) = [2%nat; 0%nat].
Proof.
  intros E.
  destruct (_get_aws_account_info E "https://example.okta.com" "00key" "alice"
                                  (Sample.start [])) as [o w'] eqn:Hrun.
  vm_compute in Hrun. injection Hrun as <- <-.
  eexists _, _. split; [reflexivity|].
  split; [|reflexivity].
  eapply (catalog_roles_follow_samlRoles E "https://example.okta.com" "00key" "alice"
                                         (Sample.start [])).
  vm_compute. reflexivity.
Defined.

(** ** The empty list of applications *)

Lemma app_list_of_no_aws_record (final_result : list RawApp) :
  aws_records final_result = [] -> app_list_of final_result = inr [].
Proof.
  induction final_result as [|app rest IH]; [reflexivity|].
  unfold aws_records. rewrite filter_cons. cbn [app_list_of].
  destruct (String.eqb_spec (raw_name app) "amazon_aws") as [Heq|Hne].
  - rewrite decide_True by exact Heq. discriminate.
  - rewrite decide_False by exact Hne. exact IH.
Qed.

(** Both sources of the list end the process through [exit()], whose status
    is 0, once they have printed that no account was found. *)
Lemma empty_catalog_exit_none (E : Env) (w : world) :
  (server_json E = [] ->
   _call_gimme_creds_server E w
   = (Exit None, extend w [Stdout ("No AWS accounts found." +:+ Str.NL)])) /\
  (forall okta_org_url okta_api_key username user first more,
     users_get E = inr user -> apps_first E = inr first ->
     collect (apps_next E) = inr more ->
     aws_records (first ++ more) = [] ->
     exists events,
       _get_aws_account_info E okta_org_url okta_api_key username w
       = (Exit None, extend w (events ++ [Stdout ("No AWS accounts found." +:+ Str.NL)]))) /\
  exit_status (@Exit unit None) = 0.
Proof.
  split; [|split; [|reflexivity]].
  - intros Hs. unfold _call_gimme_creds_server. rewrite Hs. reflexivity.
  - intros okta_org_url okta_api_key username user first more Hu Hf Hc Hnone.
    apply (get_aws_account_info_fetched E okta_org_url okta_api_key username user
             first more [] w Hu Hf Hc).
    apply app_list_of_no_aws_record, Hnone.
Qed.

(** C1 (what the code does). With no AWS application left, the run prints
    [No AWS accounts found.] and ends through [exit()]: the exit status is 0,
    not 1, whether the list comes from the Okta APIs (no record of the AWS
    connector type) or from the gimme-creds server (an empty list). *)
Theorem empty_catalog_exits_with_status_0 :
  let internal := run (Sample.env (Sample.conf true "False" "role" "Prod" "Admin")
                                  [Sample.other_raw] [])
                      (Sample.start []) in
  let served := run (Sample.env (Sample.conf false "False" "role" "Prod" "Admin") [] [])
                    (Sample.start []) in
  (fst internal = Exit None /\ exit_status (fst internal) = 0 /\
   last (trace (snd internal)) = Some (Stdout ("No AWS accounts found." +:+ Str.NL))) /\
  (fst served = Exit None /\ exit_status (fst served) = 0 /\
   last (trace (snd served)) = Some (Stdout ("No AWS accounts found." +:+ Str.NL))).
Proof. vm_compute. repeat split. Qed.

(** ** The credential file *)

Section Alist.

Context {V : Type}.
Implicit Types (l : ConfigParser.alist V) (k : string) (v : V).

Lemma get_put_eq l k v : ConfigParser.get k (ConfigParser.put k v l) = Some v.
Proof.
  induction l as [|[k' v'] l IH]; cbn.
  - rewrite String.eqb_refl. reflexivity.
  - destruct (String.eqb k k') eqn:Hk; cbn; rewrite Hk; [reflexivity | exact IH].
Qed.

Lemma get_put_ne l k k' v :
  k <> k' -> ConfigParser.get k' (ConfigParser.put k v l) = ConfigParser.get k' l.
Proof.
  intros Hne. induction l as [|[k0 v0] l IH]; cbn.
  - rewrite (proj2 (String.eqb_neq k' k)) by congruence. reflexivity.
  - destruct (String.eqb_spec k k0) as [->|Hk]; cbn.
    + rewrite (proj2 (String.eqb_neq k' k0)) by congruence. reflexivity.
    + destruct (String.eqb k' k0); [reflexivity | exact IH].
Qed.

(** Writing the value that is there changes nothing. *)
Lemma put_id l k v : ConfigParser.get k l = Some v -> ConfigParser.put k v l = l.
Proof.
  induction l as [|[k' v'] l IH]; cbn; [discriminate|].
  destruct (String.eqb k k'); [intros [= ->]; reflexivity|].
  intros H. rewrite (IH H). reflexivity.
Qed.

Lemma get_app_new l k v :
  ConfigParser.get k l = None -> ConfigParser.get k (l ++ [(k, v)])%list = Some v.
Proof.
  induction l as [|[k' v'] l IH]; cbn.
  - rewrite String.eqb_refl. reflexivity.
  - destruct (String.eqb k k'); [discriminate | exact IH].
Qed.

Lemma get_app_other l k k' v :
  k <> k' -> ConfigParser.get k' (l ++ [(k, v)])%list = ConfigParser.get k' l.
Proof.
  intros Hne. induction l as [|[k0 v0] l IH]; cbn.
  - rewrite (proj2 (String.eqb_neq k' k)) by congruence. reflexivity.
  - destruct (String.eqb k' k0); [reflexivity | exact IH].
Qed.

(** A known key keeps its place: the keys are the same after [put]. *)
Lemma keys_put_known l k v v0 :
  ConfigParser.get k l = Some v0 -> (ConfigParser.put k v l).*1 = l.*1.
Proof.
  revert v0. induction l as [|[k' v'] l IH]; intros v0; cbn; [discriminate|].
  destruct (String.eqb k k'); cbn; [reflexivity|].
  intros H. rewrite (IH _ H). reflexivity.
Qed.

Lemma get_none_not_key l k : ConfigParser.get k l = None -> k ∉ l.*1.
Proof.
  induction l as [|[k' v'] l IH]; cbn; [intros _ Hin; inversion Hin|].
  destruct (String.eqb_spec k k') as [->|Hne]; [discriminate|].
  intros H Hin. apply elem_of_cons in Hin as [Heq|Hin]; [congruence | exact (IH H Hin)].
Qed.

Lemma get_some_key l k v : ConfigParser.get k l = Some v -> k ∈ l.*1.
Proof.
  induction l as [|[k' v'] l IH]; cbn; [discriminate|].
  destruct (String.eqb_spec k k') as [->|Hne]; [intros _; left|].
  intros H. right. exact (IH H).
Qed.

End Alist.



(** Writes keep the names of the file distinct. *)
Section DistinctNames.

Lemma keys_put_new {V} (l : ConfigParser.alist V) (k : string) (v : V) :
  ConfigParser.get k l = None -> (ConfigParser.put k v l).*1 = l.*1 ++ [k].
Proof.
  induction l as [|[k' v'] l IH]; cbn; [reflexivity|].
  destruct (String.eqb k k'); [discriminate|]. intros H. cbn. rewrite (IH H). reflexivity.
Qed.

Lemma nodup_put {V} (l : ConfigParser.alist V) (k : string) (v : V) :
  NoDup l.*1 -> NoDup (ConfigParser.put k v l).*1.
Proof.
  intros Hnd. destruct (ConfigParser.get k l) as [v0|] eqn:Hg.
  - rewrite (keys_put_known l k v v0 Hg). exact Hnd.
  - rewrite (keys_put_new l k v Hg). apply NoDup_app. split; [exact Hnd|].
    split; [|apply NoDup_singleton].
    intros x Hx Hx'. apply list_elem_of_singleton in Hx'. subst x.
    exact (get_none_not_key _ _ Hg Hx).
Qed.

Lemma forall_put {V} (P : V -> Prop) (l : ConfigParser.alist V) (k : string) (v : V) :
  P v -> Forall (fun x => P x.2) l -> Forall (fun x => P x.2) (ConfigParser.put k v l).
Proof.
  intros Hv. induction 1 as [|[k' v'] l Hx Hl IH]; cbn.
  - constructor; [exact Hv | constructor].
  - destruct (String.eqb k k'); constructor; auto.
Qed.

Lemma forall_get {V} (P : V -> Prop) (l : ConfigParser.alist V) (k : string) (v : V) :
  Forall (fun x => P x.2) l -> ConfigParser.get k l = Some v -> P v.
Proof.
  induction 1 as [|[k' v'] l Hx Hl IH]; cbn; [discriminate|].
  destruct (String.eqb k k'); [intros [= <-]; exact Hx | exact IH].
Qed.

Lemma set_distinct (c c' : ConfigParser.t) (section option value : string) :
  ConfigParser.set c section option value = inr c' -> distinct_names c -> distinct_names c'.
Proof.
  unfold ConfigParser.set, distinct_names, section_names. intros H (Hs & Hd & Ho).
  destruct (_ || _)%bool.
  - injection H as <-. cbn. split; [exact Hs|]. split; [apply nodup_put, Hd | exact Ho].
  - destruct (ConfigParser.get section (ConfigParser.sections c)) as [options|] eqn:Hg;
      [|discriminate].
    injection H as <-. cbn. split; [apply nodup_put, Hs|]. split; [exact Hd|].
    apply (forall_put (fun options => NoDup options.*1)); [|exact Ho].
    apply nodup_put.
    exact (forall_get (fun options => NoDup options.*1) _ _ _ Ho Hg).
Qed.

Lemma add_section_distinct (c c' : ConfigParser.t) (section : string) :
  ConfigParser.add_section c section = inr c' -> distinct_names c -> distinct_names c'.
Proof.
  unfold ConfigParser.add_section, ConfigParser.has_section, distinct_names, section_names.
  intros H (Hs & Hd & Ho). destruct (String.eqb _ _); [discriminate|].
  destruct (ConfigParser.get section (ConfigParser.sections c)) eqn:Hg; [discriminate|].
  injection H as <-. cbn. rewrite fmap_app. split; [|split; [exact Hd|]].
  - apply NoDup_app. split; [exact Hs|]. split; [|apply NoDup_singleton].
    intros x Hx Hx'. apply list_elem_of_singleton in Hx'. subst x.
    exact (get_none_not_key _ _ Hg Hx).
  - apply Forall_app. split; [exact Ho|]. constructor; [apply NoDup_nil_2 | constructor].
Qed.

Lemma with_credentials_distinct (c c' : ConfigParser.t) (profile a s t : string) :
  with_credentials c profile a s t = inr c' -> distinct_names c -> distinct_names c'.
Proof.
  unfold with_credentials, set_credentials. intros H Hc.
  destruct (negb _).
  - destruct (ConfigParser.add_section c profile) as [e|c0] eqn:H0; [discriminate|].
    apply add_section_distinct in H0; [|exact Hc].
    destruct (ConfigParser.set c0 _ _ a) as [e|c1] eqn:H1; [discriminate|].
    destruct (ConfigParser.set c1 _ _ s) as [e|c2] eqn:H2; [discriminate|].
    eauto using set_distinct.
  - destruct (ConfigParser.set c _ _ a) as [e|c1] eqn:H1; [discriminate|].
    destruct (ConfigParser.set c1 _ _ s) as [e|c2] eqn:H2; [discriminate|].
    eauto using set_distinct.
Qed.

End DistinctNames.

Section WriteCreds.

Import ConfigParser.

Lemma parser_eta (c : ConfigParser.t) : Parser (defaults c) (sections c) = c.
Proof. destruct c; reflexivity. Qed.

Lemma set_ordinary (c : ConfigParser.t) (profile option value : string)
      (options : alist string) :
  profile <> EmptyString -> profile <> default_section ->
  get profile (sections c) = Some options ->
  ConfigParser.set c profile option value
  = inr (Parser (defaults c)
                (put profile (put (Str.lower option) value options) (sections c))).
Proof.
  intros H1 H2 Hg. unfold ConfigParser.set.
  rewrite (proj2 (String.eqb_neq _ _) H1), (proj2 (String.eqb_neq _ _) H2), Hg.
  reflexivity.
Qed.

(** The three options are set in the section, and nowhere else. *)
Lemma set_credentials_ordinary (c : ConfigParser.t) (profile a s t : string)
      (options : alist string) :
  profile <> EmptyString -> profile <> default_section ->
  get profile (sections c) = Some options ->
  exists c',
    set_credentials c profile a s t = inr c' /\
    defaults c' = defaults c /\
    get profile (sections c') = Some (credentials_in options a s t) /\
    (forall other, other <> profile -> get other (sections c') = get other (sections c)) /\
    section_names c' = section_names c.
Proof.
  intros H1 H2 Hg. unfold set_credentials.
  rewrite (set_ordinary c profile _ a options H1 H2 Hg).
  erewrite (set_ordinary _ profile _ s) by (try apply get_put_eq; assumption).
  erewrite (set_ordinary _ profile _ t) by (try apply get_put_eq; assumption).
  eexists. split; [reflexivity|]. cbn [defaults sections].
  split; [reflexivity|]. split; [apply get_put_eq|]. split.
  - intros other Hne. rewrite !get_put_ne by congruence. reflexivity.
  - unfold section_names. cbn [sections].
    erewrite keys_put_known by apply get_put_eq.
    erewrite keys_put_known by apply get_put_eq.
    erewrite keys_put_known by exact Hg. reflexivity.
Qed.

Lemma credentials_in_get (options : alist string) (a s t : string) :
  get "aws_access_key_id" (credentials_in options a s t) = Some a /\
  get "aws_secret_access_key" (credentials_in options a s t) = Some s /\
  get "aws_session_token" (credentials_in options a s t) = Some t /\
  forall k, k ∉ credential_options ->
            get k (credentials_in options a s t) = get k options.
Proof.
  unfold credentials_in. repeat split.
  - rewrite !get_put_ne by discriminate. apply get_put_eq.
  - rewrite get_put_ne by discriminate. apply get_put_eq.
  - apply get_put_eq.
  - intros k Hk. unfold credential_options in Hk.
    rewrite !not_elem_of_cons in Hk. destruct Hk as (K1 & K2 & K3 & _).
    rewrite !get_put_ne by congruence. reflexivity.
Qed.

(** Setting the credentials that are set changes nothing. *)
Lemma set_credentials_again (c : ConfigParser.t) (profile a s t : string)
      (options : alist string) :
  profile <> EmptyString -> profile <> default_section ->
  get profile (sections c) = Some (credentials_in options a s t) ->
  set_credentials c profile a s t = inr c.
Proof.
  intros H1 H2 Hg. destruct (credentials_in_get options a s t) as (Ha & Hs & Ht & _).
  unfold set_credentials.
  rewrite (set_ordinary c profile _ a _ H1 H2 Hg).
  change (Str.lower "aws_access_key_id") with "aws_access_key_id".
  rewrite (put_id _ _ _ Ha), (put_id _ _ _ Hg), parser_eta.
  rewrite (set_ordinary c profile _ s _ H1 H2 Hg).
  change (Str.lower "aws_secret_access_key") with "aws_secret_access_key".
  rewrite (put_id _ _ _ Hs), (put_id _ _ _ Hg), parser_eta.
  rewrite (set_ordinary c profile _ t _ H1 H2 Hg).
  change (Str.lower "aws_session_token") with "aws_session_token".
  rewrite (put_id _ _ _ Ht), (put_id _ _ _ Hg), parser_eta.
  reflexivity.
Qed.

(** What one call of [_write_aws_creds] does to the world. *)
Lemma write_aws_creds_run (profile a s t : string) (w : world) :
  let made := if creds_dir w then [] else [MakeDirs] in
  _write_aws_creds profile a s t w
  = match with_credentials (stored_config w) profile a s t with
    | inr c =>
        (Return tt,
         World (stdin w) (trace w ++ made ++ [WriteFile c]) true (Some c)
               (self_idp_arn w) (self_role_arn w))
    | inl e =>
        (Raise e,
         World (stdin w) (trace w ++ made) true (creds_file w)
               (self_idp_arn w) (self_role_arn w))
    end.
Proof.
  destruct w as [inp tr dir file idp role].
  unfold _write_aws_creds, with_credentials, set_credentials, stored_config.
  cbn [creds_dir creds_file stdin trace self_idp_arn self_role_arn].
  set (config := match file with Some stored => stored | None => ConfigParser.empty end).
  destruct dir; cbn -[ConfigParser.set ConfigParser.add_section ConfigParser.has_section];
    fold config;
    (destruct (negb (has_section config profile));
     [destruct (add_section config profile) as [e|c0]|pose (c0 := config)];
     cbn -[ConfigParser.set]; rewrite ?app_nil_r; try reflexivity;
     destruct (ConfigParser.set _ profile "aws_access_key_id" a) as [e|c1];
     cbn -[ConfigParser.set]; rewrite ?app_nil_r; try reflexivity;
     destruct (ConfigParser.set c1 profile "aws_secret_access_key" s) as [e|c2];
     cbn -[ConfigParser.set]; rewrite ?app_nil_r; try reflexivity;
     destruct (ConfigParser.set c2 profile "aws_session_token" t) as [e|c3];
     cbn; rewrite ?app_nil_r, <- ?app_assoc; reflexivity).
Qed.

End WriteCreds.

Lemma with_credentials_ordinary (c0 : ConfigParser.t) (profile a s t : string) :
  profile <> EmptyString -> profile <> ConfigParser.default_section ->
  exists c options0,
    with_credentials c0 profile a s t = inr c /\
    with_credentials c profile a s t = inr c /\
    ConfigParser.defaults c = ConfigParser.defaults c0 /\
    (ConfigParser.get profile (ConfigParser.sections c0) = Some options0 \/
     ConfigParser.get profile (ConfigParser.sections c0) = None /\ options0 = []) /\
    ConfigParser.get profile (ConfigParser.sections c)
    = Some (credentials_in options0 a s t) /\
    (forall other, other <> profile ->
       ConfigParser.get other (ConfigParser.sections c)
       = ConfigParser.get other (ConfigParser.sections c0)) /\
    section_names c
    = (if ConfigParser.has_section c0 profile then section_names c0
       else section_names c0 ++ [profile])%list.
Proof.
  intros H1 H2.
  assert (forall c options, ConfigParser.get profile (ConfigParser.sections c) = Some options ->
                            ConfigParser.has_section c profile = true) as Hhas
      by (intros c o Hg; unfold ConfigParser.has_section; rewrite Hg; reflexivity).
  unfold with_credentials at 1, ConfigParser.has_section.
  destruct (ConfigParser.get profile (ConfigParser.sections c0)) as [options0|] eqn:Hg0;
    cbn [negb].
  - destruct (set_credentials_ordinary c0 profile a s t options0 H1 H2 Hg0)
      as (c & Hset & Hd & Hg & Hother & Hnames).
    exists c, options0. rewrite Hset. split; [reflexivity|].
    split; [|auto 10].
    unfold with_credentials. rewrite (Hhas _ _ Hg). cbn [negb].
    apply (set_credentials_again c profile a s t options0 H1 H2 Hg).
  - unfold ConfigParser.add_section, ConfigParser.has_section.
    rewrite (proj2 (String.eqb_neq _ _) H2), Hg0.
    set (c1 := ConfigParser.Parser (ConfigParser.defaults c0)
                                   (ConfigParser.sections c0 ++ [(profile, [])])).
    assert (ConfigParser.get profile (ConfigParser.sections c1) = Some []) as Hg1
        by (apply get_app_new, Hg0).
    destruct (set_credentials_ordinary c1 profile a s t [] H1 H2 Hg1)
      as (c & Hset & Hd & Hg & Hother & Hnames).
    exists c, []. rewrite Hset. split; [reflexivity|].
    split; [unfold with_credentials; rewrite (Hhas _ _ Hg); cbn [negb];
            apply (set_credentials_again c profile a s t [] H1 H2 Hg)|].
    split; [exact Hd|]. split; [right; auto|]. split; [exact Hg|]. split.
    + intros other Hne. rewrite (Hother other Hne). subst c1. cbn.
      apply get_app_other. congruence.
    + rewrite Hnames. unfold section_names. subst c1. cbn. rewrite fmap_app. reflexivity.
Qed.

(** ** The text of the credential file is read back *)

Section Characters.

(** Facts about one character, checked on each of the 256. *)
Ltac each_character c :=
  destruct c as [[] [] [] [] [] [] [] []]; vm_compute; intros;
  first [congruence | split; congruence].

Lemma graphic_not_space (c : ascii) : Str.graphic c = true -> Str.is_space c = false.
Proof. each_character c. Qed.

Lemma graphic_not_break (c : ascii) :
  Str.graphic c = true -> Ascii.eqb c Str.LF = false /\ Ascii.eqb c Str.CR = false.
Proof. each_character c. Qed.

Lemma option_char_graphic (c : ascii) :
  ConfigParser.option_char c = true -> Str.graphic c = true.
Proof. each_character c. Qed.

Lemma option_char_no_delimiter (c : ascii) :
  ConfigParser.option_char c = true ->
  (Ascii.eqb c "="%char || Ascii.eqb c ":"%char)%bool = false.
Proof. each_character c. Qed.

Lemma option_char_lower (c : ascii) :
  ConfigParser.option_char c = true -> Str.lower_ascii c = c.
Proof. each_character c. Qed.

Lemma section_char_graphic (c : ascii) :
  ConfigParser.section_char c = true -> Str.graphic c = true.
Proof. each_character c. Qed.

Lemma section_char_not_bracket (c : ascii) :
  ConfigParser.section_char c = true -> Ascii.eqb c "]"%char = false.
Proof. each_character c. Qed.

End Characters.

Section Strings.

Lemma all_chars_app (test : ascii -> bool) (s t : string) :
  Str.all_chars test (s +:+ t) = (Str.all_chars test s && Str.all_chars test t)%bool.
Proof.
  induction s as [|c s IH]; [reflexivity|].
  rewrite app_cons. cbn [Str.all_chars]. rewrite IH, andb_assoc. reflexivity.
Qed.

Lemma all_chars_impl (test test' : ascii -> bool) (s : string) :
  (forall c, test c = true -> test' c = true) ->
  Str.all_chars test s = true -> Str.all_chars test' s = true.
Proof.
  intros Himpl. induction s as [|c s IH]; [reflexivity|]. cbn [Str.all_chars].
  intros H. apply andb_true_iff in H as [Hc Hs]. rewrite (Himpl c Hc), (IH Hs). reflexivity.
Qed.

Lemma rstrip_cons (c : ascii) (s : string) :
  Str.is_space c = false -> Str.rstrip (String c s) = String c (Str.rstrip s).
Proof. intros H. cbn [Str.rstrip]. rewrite H. destruct (Str.rstrip s); reflexivity. Qed.

Lemma rstrip_graphic_app (s t : string) :
  Str.all_chars Str.graphic s = true -> Str.rstrip (s +:+ t) = s +:+ Str.rstrip t.
Proof.
  induction s as [|c s IH]; [reflexivity|]. cbn [Str.all_chars]. intros H.
  apply andb_true_iff in H as [Hc Hs].
  rewrite !app_cons, (rstrip_cons _ _ (graphic_not_space c Hc)), (IH Hs). reflexivity.
Qed.

Lemma rstrip_graphic (s : string) :
  Str.all_chars Str.graphic s = true -> Str.rstrip s = s.
Proof.
  intros H. rewrite <- (app_empty_r s) at 1. rewrite (rstrip_graphic_app s EmptyString H).
  apply app_empty_r.
Qed.

Lemma lstrip_graphic (s : string) :
  Str.all_chars Str.graphic s = true -> Str.lstrip s = s.
Proof.
  destruct s as [|c s]; [reflexivity|]. cbn [Str.all_chars Str.lstrip]. intros H.
  apply andb_true_iff in H as [Hc _]. rewrite (graphic_not_space c Hc). reflexivity.
Qed.

Lemma strip_graphic (s : string) :
  Str.all_chars Str.graphic s = true -> Str.strip s = s.
Proof. intros H. unfold Str.strip. rewrite (lstrip_graphic s H). apply rstrip_graphic, H. Qed.

Lemma rstrip_space (s : string) :
  Str.rstrip (String " " s)
  = match Str.rstrip s with
    | EmptyString => EmptyString
    | kept => String " " kept
    end.
Proof. cbn [Str.rstrip]. destruct (Str.rstrip s); reflexivity. Qed.

(** What is left of a value when its line was split at the delimiter. *)
Lemma strip_value (v : string) :
  Str.all_chars Str.graphic v = true ->
  Str.strip (Str.lstrip (Str.rstrip (" " +:+ v))) = v.
Proof.
  intros H. destruct v as [|c v]; [reflexivity|].
  change (" " +:+ String c v) with (String " " (String c v)).
  rewrite rstrip_space, (rstrip_graphic _ H).
  change (Str.lstrip (String " " (String c v))) with (Str.lstrip (String c v)).
  rewrite (lstrip_graphic _ H). apply strip_graphic, H.
Qed.

Lemma lower_plain (k : string) :
  Str.all_chars ConfigParser.option_char k = true -> Str.lower k = k.
Proof.
  induction k as [|c k IH]; [reflexivity|]. cbn [Str.all_chars Str.lower]. intros H.
  apply andb_true_iff in H as [Hc Hk]. rewrite (option_char_lower c Hc), (IH Hk). reflexivity.
Qed.

(** A value without line feed is written as it is. *)
Lemma continued_graphic (v : string) :
  Str.all_chars Str.graphic v = true -> ConfigParser.continued v = v.
Proof.
  induction v as [|c v IH]; [reflexivity|]. cbn [Str.all_chars ConfigParser.continued].
  intros H. apply andb_true_iff in H as [Hc Hv].
  unfold Str.is_LF. rewrite (proj1 (graphic_not_break c Hc)), (IH Hv). reflexivity.
Qed.

Lemma graphic_no_break (s : string) :
  Str.all_chars Str.graphic s = true -> Str.all_chars no_break s = true.
Proof.
  apply all_chars_impl. intros c Hc. unfold no_break.
  destruct (graphic_not_break c Hc) as [-> ->]. reflexivity.
Qed.

(** A line and its line feed are read as that line. *)
Lemma lines_line (line rest : string) :
  Str.all_chars no_break line = true ->
  Str.lines (line +:+ String Str.LF rest) = line :: Str.lines rest.
Proof.
  induction line as [|c line IH]; [reflexivity|]. cbn [Str.all_chars]. intros H.
  apply andb_true_iff in H as [Hc Hl]. unfold no_break in Hc.
  apply andb_true_iff in Hc as [H1 H2]. apply negb_true_iff in H1, H2.
  rewrite app_cons. cbn [Str.lines]. rewrite H1, H2, (IH Hl). reflexivity.
Qed.

End Strings.

Section Reading.

Import ConfigParser.

Lemma rstrip_app (s t : string) :
  Str.rstrip (s +:+ t)
  = match Str.rstrip t with
    | EmptyString => Str.rstrip s
    | kept => s +:+ kept
    end.
Proof.
  induction s as [|c s IH].
  - rewrite app_empty_l. destruct (Str.rstrip t); reflexivity.
  - rewrite app_cons. cbn [Str.rstrip]. rewrite IH.
    destruct (Str.rstrip t) as [|a kept]; [reflexivity|].
    rewrite app_cons. destruct s; reflexivity.
Qed.

(** An empty line at the end of a value is dropped when the value is joined. *)
Lemma join_lines_blank (val : list string) :
  Str.rstrip (join_lines (val ++ [EmptyString])) = Str.rstrip (join_lines val).
Proof.
  induction val as [|x val IH]; [reflexivity|].
  destruct val as [|y val].
  - cbn [app join_lines]. rewrite (rstrip_app x). reflexivity.
  - change (join_lines ((x :: y :: val) ++ [EmptyString]))
      with (x +:+ Str.NL +:+ join_lines ((y :: val) ++ [EmptyString])).
    change (join_lines (x :: y :: val)) with (x +:+ Str.NL +:+ join_lines (y :: val)).
    rewrite <- !app_assoc_str, !(rstrip_app (x +:+ Str.NL)), IH. reflexivity.
Qed.

Lemma joined_append_blank (option : string) (options : alist (list string)) :
  joined (append_to option EmptyString options) = joined options.
Proof.
  unfold joined, append_to. rewrite <- list_fmap_compose. apply list_fmap_ext.
  intros i [k val] _. unfold compose. cbn [fst snd].
  destruct (String.eqb k option); cbn [fst snd]; [rewrite join_lines_blank|]; reflexivity.
Qed.

Lemma finish_append_blank (r : reading) (name option : string) :
  finish (append_value r name option EmptyString) = finish r.
Proof.
  unfold append_value, finish. destruct (String.eqb name default_section);
    cbn [read_defaults read_sections].
  - rewrite joined_append_blank. reflexivity.
  - f_equal. rewrite <- list_fmap_compose. apply list_fmap_ext.
    intros i [n options] _. unfold compose. cbn [fst snd].
    destruct (String.eqb n name); cbn [fst snd]; [rewrite joined_append_blank|]; reflexivity.
Qed.

Lemma append_value_meta (r : reading) (name option value : string) :
  sectname (append_value r name option value) = sectname r /\
  errors (append_value r name option value) = errors r /\
  added_options (append_value r name option value) = added_options r.
Proof. unfold append_value. destruct (String.eqb name default_section); auto. Qed.

(** The empty line that ends a section changes no value. *)
Lemma read_line_blank (r : reading) (c : t) (name : option string) :
  reads_as r c name ->
  exists r', read_line r EmptyString = inr r' /\ reads_as r' c name.
Proof.
  intros (Hf & Hs & He & Ha).
  assert (read_line r EmptyString
          = inr (match continuing r with
                 | Some (n, o) => append_value r n o EmptyString
                 | None => r
                 end)) as -> by reflexivity.
  eexists. split; [reflexivity|].
  destruct (continuing r) as [[n o]|]; [|repeat split; assumption].
  destruct (append_value_meta r n o EmptyString) as (M1 & M2 & M3).
  unfold reads_as. rewrite finish_append_blank, M1, M2, M3. auto.
Qed.

End Reading.

Section Entries.

Import ConfigParser.

Lemma finish_names (r : reading) : (read_sections r).*1 = section_names (finish r).
Proof.
  unfold section_names, finish. cbn [sections]. rewrite <- list_fmap_compose. reflexivity.
Qed.

Lemma get_joined (k : string) (options : alist (list string)) :
  get k (joined options) = (fun val => Str.rstrip (join_lines val)) <$> get k options.
Proof.
  induction options as [|[k' val] options IH]; [reflexivity|].
  cbn. destruct (String.eqb k k'); [reflexivity | exact IH].
Qed.

Lemma put_joined (k : string) (val : list string) (options : alist (list string)) :
  joined (put k val options) = put k (Str.rstrip (join_lines val)) (joined options).
Proof.
  induction options as [|[k' val'] options IH]; [reflexivity|].
  cbn. destruct (String.eqb k k'); [reflexivity|]. cbn. f_equal. exact IH.
Qed.

Lemma get_finish (name : string) (r : reading) :
  get name (sections (finish r)) = joined <$> get name (read_sections r).
Proof.
  unfold finish. cbn [sections].
  induction (read_sections r) as [|[n options] l IH]; [reflexivity|].
  cbn. destruct (String.eqb name n); [reflexivity | exact IH].
Qed.

Lemma put_finish (name : string) (options : alist (list string))
      (l : alist (alist (list string))) :
  (fun s => (s.1, joined s.2)) <$> put name options l
  = put name (joined options) ((fun s => (s.1, joined s.2)) <$> l).
Proof.
  induction l as [|[n o] l IH]; [reflexivity|].
  cbn. destruct (String.eqb name n); [reflexivity|]. cbn. f_equal. exact IH.
Qed.

(** Setting a value while reading is storing its joined lines. *)
Lemma finish_set_value (r : reading) (name option : string) (val : list string) :
  finish (set_value r name option val)
  = store (finish r) name option (Str.rstrip (join_lines val)).
Proof.
  unfold set_value, store. destruct (String.eqb name default_section).
  - unfold finish. cbn [read_defaults read_sections defaults sections].
    rewrite put_joined. reflexivity.
  - rewrite (get_finish name r). unfold finish.
    cbn [read_defaults read_sections defaults sections].
    rewrite put_finish, put_joined. do 3 f_equal.
    destruct (get name (read_sections r)); reflexivity.
Qed.

Lemma set_value_meta (r : reading) (name option : string) (val : list string) :
  sectname (set_value r name option val) = sectname r /\
  errors (set_value r name option val) = errors r /\
  added_options (set_value r name option val) = added_options r.
Proof. unfold set_value. destruct (String.eqb name default_section); auto. Qed.

Lemma key_put {V} (l : alist V) (k : string) (v : V) : k ∈ (put k v l).*1.
Proof. exact (get_some_key _ _ _ (get_put_eq l k v)). Qed.

Lemma keys_put_subset {V} (l : alist V) (k k' : string) (v : V) :
  k' ∈ l.*1 -> k' ∈ (put k v l).*1.
Proof.
  intros Hin. destruct (get k l) as [v0|] eqn:Hg.
  - rewrite (keys_put_known l k v v0 Hg). exact Hin.
  - rewrite (keys_put_new l k v Hg). apply elem_of_app. left. exact Hin.
Qed.

Lemma recorded_store_new (c : t) (name k v : string) : recorded (store c name k v) name k.
Proof.
  unfold recorded, store. destruct (String.eqb_spec name default_section) as [->|Hne].
  - left. split; [reflexivity | apply key_put].
  - right. cbn [sections]. rewrite get_put_eq. eexists. split; [reflexivity | apply key_put].
Qed.

Lemma recorded_store_old (c : t) (name k v n k' : string) :
  recorded c n k' -> recorded (store c name k v) n k'.
Proof.
  unfold recorded, store. intros [[-> Hin]|(options & Hg & Hin)].
  - left. split; [reflexivity|]. destruct (String.eqb name default_section); cbn [defaults];
      [apply keys_put_subset|]; exact Hin.
  - right. destruct (String.eqb name default_section); cbn [sections]; [eauto|].
    destruct (String.eqb_spec name n) as [->|Hne].
    + rewrite get_put_eq, Hg. eexists. split; [reflexivity|]. apply keys_put_subset, Hin.
    + rewrite get_put_ne by exact Hne. eauto.
Qed.

Lemma before_last_end (name : string) :
  Str.all_chars section_char name = true ->
  before_last "]" (name +:+ "]") = Some name.
Proof.
  induction name as [|c name IH]; [reflexivity|]. cbn [Str.all_chars]. intros H.
  apply andb_true_iff in H as [Hc Hn]. rewrite app_cons. cbn [before_last].
  rewrite (IH Hn). reflexivity.
Qed.

Lemma header_graphic (name : string) :
  Str.all_chars section_char name = true ->
  Str.all_chars Str.graphic (header_line name) = true.
Proof.
  intros H. unfold header_line.
  change ("[" +:+ name +:+ "]") with (String "[" (name +:+ "]")).
  cbn [Str.all_chars]. rewrite all_chars_app.
  rewrite (all_chars_impl _ _ name section_char_graphic H). reflexivity.
Qed.

Lemma prefix_char (a c : ascii) (s : string) :
  Ascii.eqb c a = false -> String.prefix (String a EmptyString) (String c s) = false.
Proof.
  intros H. cbn [String.prefix]. destruct (ascii_dec a c) as [->|]; [|reflexivity].
  rewrite Ascii.eqb_refl in H. discriminate.
Qed.

(** A line that begins at the margin with a character that opens no comment
    is a section header or an option. *)
Lemma read_line_entry (r : reading) (c : ascii) (rest kept : string) :
  Str.is_space c = false -> Ascii.eqb c "#" = false -> Ascii.eqb c ";" = false ->
  Str.strip (String c rest) = String c kept ->
  read_line r (String c rest)
  = read_entry (Reading (read_defaults r) (read_sections r) (sectname r) (optname r) 0
                        (added_sections r) (added_options r) (errors r))
               (String c kept).
Proof.
  intros Hsp H1 H2 Hstrip. unfold read_line. cbv zeta. rewrite Hstrip.
  rewrite (prefix_char "#" c kept H1), (prefix_char ";" c kept H2).
  cbn [orb String.eqb Str.first_nonspace]. rewrite Hsp. cbn [from_option id].
  replace (Nat.ltb (indent_level r) 0) with false by (destruct (indent_level r); reflexivity).
  reflexivity.
Qed.

(** The header of a new section. *)
Lemma read_line_header (r : reading) (c : t) (current : option string) (name : string) :
  reads_as r c current -> plain_section name = true -> name ∉ section_names c ->
  exists r',
    read_line r (header_line name) = inr r' /\
    reads_as r' (Parser (defaults c) (sections c ++ [(name, [])])) (Some name).
Proof.
  intros (Hf & Hs & He & Ha) Hplain Hnew. unfold plain_section in Hplain.
  apply andb_true_iff in Hplain as [Hplain Hchars].
  apply andb_true_iff in Hplain as [Hne Hnd]. apply negb_true_iff in Hne, Hnd.
  pose proof (strip_graphic _ (header_graphic name Hchars)) as Hstrip.
  exists (Reading (read_defaults r) (read_sections r ++ [(name, [])]) (Some name) None 0
                  (added_sections r ++ [name]) (added_options r) (errors r)).
  split.
  - change (header_line name) with (String "[" (name +:+ "]")) in *.
    rewrite (read_line_entry r "[" _ (name +:+ "]")) by (reflexivity || exact Hstrip).
    unfold read_entry, section_header. rewrite (before_last_end name Hchars).
    destruct name as [|a name]; [discriminate Hne|].
    cbn [read_sections read_defaults added_sections added_options errors indent_level].
    rewrite finish_names, Hf, bool_decide_false by exact Hnew.
    rewrite Hnd. reflexivity.
  - repeat split; cbn [sectname errors added_options]; [|exact He|].
    + unfold finish. cbn [read_defaults read_sections]. rewrite fmap_app.
      rewrite <- Hf. reflexivity.
    + intros n k Hin. destruct (Ha n k Hin) as [[-> Hd]|(options & Hg' & Hk)].
      * left. auto.
      * right. exists options. split; [|exact Hk]. cbn [sections].
        clear - Hg'. induction (sections c) as [|[n' o] l IH]; [discriminate|].
        cbn in *. destruct (String.eqb n n'); [exact Hg' | exact (IH Hg')].
Qed.

End Entries.

Section Options.

Import ConfigParser.

Lemma split_delimiter_option (k rest : string) :
  Str.all_chars option_char k = true ->
  split_delimiter (k +:+ String " " (String "=" rest)) = Some (k +:+ " ", rest).
Proof.
  induction k as [|c k IH]; [reflexivity|]. cbn [Str.all_chars]. intros H.
  apply andb_true_iff in H as [Hc Hk]. rewrite !app_cons. cbn [split_delimiter].
  rewrite (option_char_no_delimiter c Hc), (IH Hk). reflexivity.
Qed.

Lemma section_header_none (c : ascii) (s : string) :
  Ascii.eqb c "[" = false -> section_header (String c s) = None.
Proof.
  intros H. destruct c as [[] [] [] [] [] [] [] []]; try reflexivity.
  cbv in H. discriminate H.
Qed.

Lemma rstrip_delimiter (v : string) :
  Str.rstrip (" = " +:+ v) = String " " (String "=" (Str.rstrip (" " +:+ v))).
Proof.
  change (" = " +:+ v) with (String " " (String "=" (" " +:+ v))).
  rewrite rstrip_space, rstrip_cons by reflexivity. reflexivity.
Qed.

Lemma plain_option_inv (k : string) :
  plain_option k = true ->
  Str.all_chars option_char k = true /\ Str.all_chars Str.graphic k = true /\
  exists a k', k = String a k' /\ Str.is_space a = false /\
               Ascii.eqb a "#" = false /\ Ascii.eqb a ";" = false /\ Ascii.eqb a "[" = false.
Proof.
  unfold plain_option. intros H. apply andb_true_iff in H as [Hfirst Hchars].
  split; [exact Hchars|].
  pose proof (all_chars_impl _ _ k option_char_graphic Hchars) as Hg.
  split; [exact Hg|].
  destruct k as [|a k']; [discriminate|]. exists a, k'. split; [reflexivity|].
  cbn [Str.all_chars] in Hg. apply andb_true_iff in Hg as [Ha _].
  split; [exact (graphic_not_space a Ha)|].
  apply andb_true_iff in Hfirst as [Hfirst H3]. apply andb_true_iff in Hfirst as [H1 H2].
  apply negb_true_iff in H1, H2, H3. auto.
Qed.

(** The line of an option that the current section does not hold yet. *)
Lemma read_line_option (r : reading) (c : t) (name k v : string) :
  reads_as r c (Some name) -> plain_option k = true -> plain_value v = true ->
  ~ recorded c name k ->
  exists r',
    read_line r (option_text (k, v)) = inr r' /\ reads_as r' (store c name k v) (Some name).
Proof.
  intros (Hf & Hs & He & Ha) Hk Hv Hnew.
  destruct (plain_option_inv k Hk) as (Hchars & Hg & a & k' & -> & Hsp & H1 & H2 & H3).
  unfold plain_value in Hv.
  set (R := Str.rstrip (" " +:+ v)).
  assert (Str.strip (String a (k' +:+ " = " +:+ v))
          = String a (k' +:+ String " " (String "=" R))) as Hstrip.
  { unfold Str.strip. cbn [Str.lstrip]. rewrite Hsp.
    rewrite <- app_cons, (rstrip_graphic_app _ _ Hg), rstrip_delimiter. reflexivity. }
  exists (set_value (Reading (read_defaults r) (read_sections r) (Some name)
                             (Some (String a k')) 0 (added_sections r)
                             (added_options r ++ [(name, String a k')]) false)
                    name (String a k') [v]).
  split.
  - unfold option_text. cbn [fst snd]. rewrite app_cons.
    rewrite (read_line_entry r a _ _ Hsp H1 H2 Hstrip).
    unfold read_entry. rewrite (section_header_none a _ H3).
    cbn [sectname read_defaults read_sections optname indent_level added_sections
         added_options errors].
    rewrite Hs. unfold option_line. rewrite <- app_cons.
    rewrite (split_delimiter_option _ R Hchars).
    rewrite (rstrip_graphic_app _ " " Hg).
    change (Str.rstrip " ") with EmptyString. rewrite app_empty_r.
    cbv zeta. rewrite He, (rstrip_graphic _ Hg), (lower_plain _ Hchars).
    cbn [String.eqb orb].
    rewrite bool_decide_false by (intros Hin; apply Hnew, (Ha _ _ Hin)).
    unfold R. rewrite (strip_value v Hv). reflexivity.
  - destruct (set_value_meta
                (Reading (read_defaults r) (read_sections r) (Some name)
                         (Some (String a k')) 0 (added_sections r)
                         (added_options r ++ [(name, String a k')]) false)
                name (String a k') [v]) as (M1 & M2 & M3).
    unfold reads_as. rewrite finish_set_value, M1, M2, M3.
    cbn [join_lines sectname errors added_options]. rewrite (rstrip_graphic v Hv).
    split; [|split; [reflexivity|split; [reflexivity|]]].
    + f_equal. exact Hf.
    + intros n k Hin. apply elem_of_app in Hin as [Hin|Hin].
      * apply recorded_store_old, (Ha _ _ Hin).
      * apply list_elem_of_singleton in Hin. injection Hin as -> ->.
        apply recorded_store_new.
Qed.

End Options.

Section Sequences.

Import ConfigParser.

Lemma read_lines_app (r : reading) (l1 l2 : list string) :
  read_lines r (l1 ++ l2)
  = match read_lines r l1 with
    | inl e => inl e
    | inr r' => read_lines r' l2
    end.
Proof.
  revert r. induction l1 as [|line l1 IH]; intros r; [reflexivity|].
  cbn [app read_lines]. destruct (read_line r line); [reflexivity | apply IH].
Qed.

Lemma put_new {V} (l : alist V) (k : string) (v : V) :
  get k l = None -> put k v l = l ++ [(k, v)].
Proof.
  induction l as [|[k' v'] l IH]; cbn; [reflexivity|].
  destruct (String.eqb k k'); [discriminate|]. intros H. rewrite (IH H). reflexivity.
Qed.

Lemma put_last {V} (l : alist V) (k : string) (v v' : V) :
  get k l = None -> put k v' (l ++ [(k, v)]) = l ++ [(k, v')].
Proof.
  induction l as [|[k0 v0] l IH]; cbn.
  - rewrite String.eqb_refl. reflexivity.
  - destruct (String.eqb k k0); [discriminate|]. intros H. rewrite (IH H). reflexivity.
Qed.

Lemma not_key_get {V} (l : alist V) (k : string) : k ∉ l.*1 -> get k l = None.
Proof.
  intros Hk. destruct (get k l) as [v|] eqn:Hg; [|reflexivity].
  exfalso. exact (Hk (get_some_key _ _ _ Hg)).
Qed.

Lemma keys_put_inv {V} (l : alist V) (k k' : string) (v : V) :
  k' ∈ (put k v l).*1 -> k' = k \/ k' ∈ l.*1.
Proof.
  destruct (get k l) as [v0|] eqn:Hg.
  - rewrite (keys_put_known l k v v0 Hg). auto.
  - rewrite (keys_put_new l k v Hg). intros Hin. apply elem_of_app in Hin as [Hin|Hin]; [auto|].
    apply list_elem_of_singleton in Hin. auto.
Qed.

Lemma recorded_store_inv (c : t) (name k v k' : string) :
  recorded (store c name k v) name k' -> k' = k \/ recorded c name k'.
Proof.
  unfold recorded, store. destruct (String.eqb_spec name default_section) as [->|Hne];
    cbn [defaults sections].
  - intros [[_ Hin]|H]; [|auto].
    destruct (keys_put_inv _ _ _ _ Hin); auto.
  - intros [[Heq _]|(options & Hg & Hin)]; [congruence|].
    rewrite get_put_eq in Hg. injection Hg as <-.
    destruct (keys_put_inv _ _ _ _ Hin) as [|Hin']; [auto|]. right. right.
    destruct (get name (sections c)) as [o|]; [eauto|]. inversion Hin'.
Qed.

(** The lines of the options of a section, read one after the other. *)
Lemma read_options (items : alist string) (r : reading) (c : t) (name : string) :
  reads_as r c (Some name) -> plain_items items = true -> NoDup items.*1 ->
  (forall k, k ∈ items.*1 -> ~ recorded c name k) ->
  exists r',
    read_lines r (option_text <$> items) = inr r' /\
    reads_as r' (fold_left (fun c item => store c name item.1 item.2) items c) (Some name).
Proof.
  revert r c. induction items as [|[k v] items IH]; intros r c Hr Hplain Hnd Hnew.
  - exists r. split; [reflexivity | exact Hr].
  - cbn [plain_items forallb fst snd] in Hplain.
    apply andb_true_iff in Hplain as [Hkv Hplain]. apply andb_true_iff in Hkv as [Hk Hv].
    cbn [fmap list_fmap fst] in Hnd. apply NoDup_cons in Hnd as [Hk' Hnd].
    destruct (read_line_option r c name k v Hr Hk Hv) as (r1 & Hline & Hr1).
    { apply Hnew. left. }
    destruct (IH r1 (store c name k v) Hr1 Hplain Hnd) as (r' & Hlines & Hr').
    { intros k2 Hin Hrec. destruct (recorded_store_inv _ _ _ _ _ Hrec) as [->|Hrec'].
      - exact (Hk' Hin).
      - apply (Hnew k2); [right; exact Hin | exact Hrec']. }
    exists r'. split; [|exact Hr'].
    cbn [fmap list_fmap read_lines]. change (list_fmap _ _ option_text items)
      with (option_text <$> items). rewrite Hline. exact Hlines.
Qed.

(** Options stored one after the other in the last section, or in the
    defaults, are appended to it. *)
Lemma store_in_section (items acc : alist string) (d : alist string)
      (secs : alist (alist string)) (name : string) :
  name <> default_section -> name ∉ secs.*1 -> NoDup (acc ++ items).*1 ->
  fold_left (fun c item => store c name item.1 item.2) items
            (Parser d (secs ++ [(name, acc)]))
  = Parser d (secs ++ [(name, acc ++ items)]).
Proof.
  intros Hne Hname. revert acc. induction items as [|[k v] items IH]; intros acc Hnd.
  - rewrite app_nil_r. reflexivity.
  - cbn [fold_left fst snd]. unfold store at 2.
    rewrite (proj2 (String.eqb_neq _ _) Hne). cbn [defaults sections].
    rewrite (get_app_new _ _ acc (not_key_get _ _ Hname)). cbn [from_option id].
    rewrite (put_last _ _ _ _ (not_key_get _ _ Hname)).
    assert (k ∉ acc.*1) as Hk.
    { rewrite fmap_app in Hnd. apply NoDup_app in Hnd as (_ & Hdis & _).
      intros Hin. apply (Hdis k Hin). left. }
    rewrite (put_new _ _ _ (not_key_get _ _ Hk)).
    rewrite (IH (acc ++ [(k, v)])); rewrite <- app_assoc; [reflexivity | exact Hnd].
Qed.

Lemma store_in_defaults (items acc : alist string) (secs : alist (alist string)) :
  NoDup (acc ++ items).*1 ->
  fold_left (fun c item => store c default_section item.1 item.2) items (Parser acc secs)
  = Parser (acc ++ items) secs.
Proof.
  revert acc. induction items as [|[k v] items IH]; intros acc Hnd.
  - rewrite app_nil_r. reflexivity.
  - cbn [fold_left fst snd]. unfold store at 2. cbn [String.eqb Ascii.eqb Bool.eqb].
    change (String.eqb default_section default_section) with true. cbv iota.
    cbn [defaults sections].
    assert (k ∉ acc.*1) as Hk.
    { rewrite fmap_app in Hnd. apply NoDup_app in Hnd as (_ & Hdis & _).
      intros Hin. apply (Hdis k Hin). left. }
    rewrite (put_new _ _ _ (not_key_get _ _ Hk)).
    rewrite (IH (acc ++ [(k, v)])); rewrite <- app_assoc; [reflexivity | exact Hnd].
Qed.

(** The lines of one section: its header, its options, the empty line. *)
Lemma read_section (r : reading) (c : t) (current : option string)
      (name : string) (items : alist string) :
  reads_as r c current -> plain_section name = true -> name ∉ section_names c ->
  plain_items items = true -> NoDup items.*1 ->
  exists r',
    read_lines r (section_lines name items) = inr r' /\
    reads_as r' (Parser (defaults c) (sections c ++ [(name, items)])) (Some name).
Proof.
  intros Hr Hname Hnew Hitems Hnd.
  assert (name <> default_section) as Hne.
  { unfold plain_section in Hname. apply andb_true_iff in Hname as [Hname _].
    apply andb_true_iff in Hname as [_ Hd]. apply negb_true_iff in Hd.
    apply String.eqb_neq, Hd. }
  destruct (read_line_header r c current name Hr Hname Hnew) as (r1 & Hheader & Hr1).
  destruct (read_options items r1 _ name Hr1 Hitems Hnd) as (r2 & Hoptions & Hr2).
  { intros k _ [[Heq _]|(options & Hg & Hin)]; [congruence|]. cbn [sections] in Hg.
    assert (Some options = Some []) as Heq
        by (rewrite <- Hg; apply get_app_new, not_key_get, Hnew).
    injection Heq as ->.
    inversion Hin. }
  rewrite (store_in_section items [] _ _ name Hne Hnew Hnd) in Hr2. cbn [app] in Hr2.
  destruct (read_line_blank r2 _ _ Hr2) as (r3 & Hblank & Hr3).
  exists r3. split; [|exact Hr3].
  unfold section_lines. cbn [read_lines]. rewrite Hheader, read_lines_app, Hoptions.
  cbn [read_lines]. rewrite Hblank. reflexivity.
Qed.

(** The sections of a file, one after the other. *)
Lemma read_all_sections (secs : alist (alist string)) (r : reading) (c : t)
      (current : option string) :
  reads_as r c current ->
  forallb (fun s => plain_section s.1 && plain_items s.2) secs = true ->
  NoDup (section_names c ++ secs.*1) ->
  Forall (fun s => NoDup (s.2).*1) secs ->
  exists r' last,
    read_lines r (secs ≫= (fun s => section_lines s.1 s.2)) = inr r' /\
    reads_as r' (Parser (defaults c) (sections c ++ secs)) last.
Proof.
  revert r c current. induction secs as [|[name items] secs IH]; intros r c current Hr Hp Hnd Hk.
  - exists r, current. split; [reflexivity|]. rewrite app_nil_r. destruct c. exact Hr.
  - cbn [forallb fst snd] in Hp. apply andb_true_iff in Hp as [Hs Hp].
    apply andb_true_iff in Hs as [Hname Hitems].
    apply Forall_cons in Hk as [Hitem Hk]. cbn [snd] in Hitem.
    assert (name ∉ section_names c) as Hnew.
    { apply NoDup_app in Hnd as (_ & Hdis & _). intros Hin. apply (Hdis name Hin). left. }
    destruct (read_section r c current name items Hr Hname Hnew Hitems Hitem)
      as (r1 & Hsection & Hr1).
    destruct (IH r1 _ (Some name) Hr1 Hp) as (r' & last & Hrest & Hr'); [|exact Hk|].
    { unfold section_names. cbn [sections]. rewrite fmap_app, <- app_assoc. exact Hnd. }
    exists r', last. cbn [defaults sections] in Hr'. rewrite <- app_assoc in Hr'.
    split; [|exact Hr'].
    cbn [mbind list_bind fst snd]. rewrite read_lines_app, Hsection. exact Hrest.
Qed.

(** The defaults, written first under the header of the default section. *)
Lemma read_default_section (items : alist string) :
  plain_items items = true -> NoDup items.*1 ->
  exists r',
    read_lines start (section_lines default_section items) = inr r' /\
    reads_as r' (Parser items []) (Some default_section).
Proof.
  intros Hitems Hnd.
  set (r1 := Reading [] [] (Some default_section) None 0 [] [] false).
  assert (reads_as r1 empty (Some default_section)) as Hr1.
  { repeat split. intros n k Hin. inversion Hin. }
  destruct (read_options items r1 empty default_section Hr1 Hitems Hnd)
    as (r2 & Hoptions & Hr2).
  { intros k _ [[_ Hin]|(options & Hg & _)]; [inversion Hin | discriminate Hg]. }
  unfold empty in Hr2. rewrite (store_in_defaults items [] [] Hnd) in Hr2. cbn [app] in Hr2.
  destruct (read_line_blank r2 _ _ Hr2) as (r3 & Hblank & Hr3).
  exists r3. split; [|exact Hr3].
  unfold section_lines. cbn [read_lines].
  change (read_line start (header_line default_section)) with (@inr exn _ r1).
  cbv iota. rewrite read_lines_app, Hoptions. cbn [read_lines]. rewrite Hblank. reflexivity.
Qed.

End Sequences.

Section Text.

Import ConfigParser.

Lemma option_text_no_break (k v : string) :
  plain_option k = true -> plain_value v = true ->
  Str.all_chars no_break (option_text (k, v)) = true.
Proof.
  intros Hk Hv. destruct (plain_option_inv k Hk) as (_ & Hg & _).
  unfold option_text. cbn [fst snd]. rewrite !all_chars_app.
  rewrite (graphic_no_break k Hg), (graphic_no_break v Hv). reflexivity.
Qed.

Lemma lines_options (items : alist string) (tail : string) :
  plain_items items = true ->
  Str.lines (Str.cat (write_option <$> items) +:+ tail)
  = (option_text <$> items) ++ Str.lines tail.
Proof.
  induction items as [|[k v] items IH]; [reflexivity|].
  cbn [plain_items forallb fst snd]. intros H. apply andb_true_iff in H as [Hkv Hitems].
  apply andb_true_iff in Hkv as [Hk Hv].
  cbn [fmap list_fmap Str.cat].
  change (list_fmap _ _ write_option items) with (write_option <$> items).
  change (list_fmap _ _ option_text items) with (option_text <$> items).
  replace ((write_option (k, v) +:+ Str.cat (write_option <$> items)) +:+ tail)
    with (option_text (k, v) +:+ String Str.LF (Str.cat (write_option <$> items) +:+ tail)).
  - rewrite (lines_line _ _ (option_text_no_break k v Hk Hv)), (IH Hitems). reflexivity.
  - unfold write_option, option_text. cbn [fst snd]. rewrite (continued_graphic v Hv).
    rewrite !app_assoc_str. reflexivity.
Qed.

Lemma lines_section (name : string) (items : alist string) (tail : string) :
  Str.all_chars no_break (header_line name) = true -> plain_items items = true ->
  Str.lines (write_section name items +:+ tail)
  = section_lines name items ++ Str.lines tail.
Proof.
  intros Hname Hitems.
  replace (write_section name items +:+ tail)
    with (header_line name
          +:+ String Str.LF (Str.cat (write_option <$> items) +:+ String Str.LF tail)).
  - rewrite (lines_line _ _ Hname), (lines_options items _ Hitems).
    unfold section_lines. cbn [Str.lines app]. rewrite <- app_assoc. reflexivity.
  - unfold write_section, header_line. rewrite !app_assoc_str. reflexivity.
Qed.

Lemma lines_sections (secs : alist (alist string)) :
  forallb (fun s => plain_section s.1 && plain_items s.2) secs = true ->
  Str.lines (Str.cat ((fun s => write_section s.1 s.2) <$> secs))
  = secs ≫= (fun s => section_lines s.1 s.2).
Proof.
  induction secs as [|[name items] secs IH]; [reflexivity|].
  cbn [forallb fst snd]. intros H. apply andb_true_iff in H as [Hs Hsecs].
  apply andb_true_iff in Hs as [Hname Hitems].
  cbn [fmap list_fmap Str.cat mbind list_bind fst snd].
  rewrite lines_section, (IH Hsecs); [reflexivity | | exact Hitems].
  apply graphic_no_break, header_graphic.
  unfold plain_section in Hname. apply andb_true_iff in Hname as [_ Hchars]. exact Hchars.
Qed.

(** What [config.write] made of a parser with plain names and values,
    [config.read] reads back as that parser. *)
Lemma read_write (c : t) : plain_config c -> read (write c) = inr c.
Proof.
  intros [(Hsecs & Hdefaults & Hoptions) Hplain]. unfold plain in Hplain.
  apply andb_true_iff in Hplain as [Hd Hs].
  assert (forall r current,
            reads_as r (Parser (defaults c) []) current ->
            exists r' last,
              read_lines r (sections c ≫= (fun s => section_lines s.1 s.2)) = inr r' /\
              reads_as r' c last) as Hrest.
  { intros r current Hr.
    destruct (read_all_sections (sections c) r _ current Hr Hs) as (r' & last & Hl & Hr').
    - exact Hsecs.
    - exact Hoptions.
    - exists r', last. split; [exact Hl|]. destruct c. exact Hr'. }
  unfold read, write. destruct (defaults c) as [|item items] eqn:Hdef.
  - rewrite app_empty_l, (lines_sections _ Hs).
    destruct (Hrest start None) as (r' & last & -> & (Hf & _ & He & _)).
    { repeat split. intros n k Hin. inversion Hin. }
    rewrite He, Hf. reflexivity.
  - rewrite lines_section, (lines_sections _ Hs), read_lines_app; [|reflexivity | exact Hd].
    destruct (read_default_section (item :: items) Hd Hdefaults) as (r1 & -> & Hr1).
    destruct (Hrest r1 _ Hr1) as (r' & last & -> & (Hf & _ & He & _)).
    rewrite He, Hf. reflexivity.
Qed.

(** Other names need not be read back. The text that a first write leaves
    for the empty profile name ends with the header of an empty name, which
    [config.read] refuses as a line that is no header and no option; the
    header of a profile name with a line feed is cut in two, and
    [config.read] finds no header on its first line. *)
Lemma special_names_are_not_read_back :
  let written profile :=
    file_writes_of
      (snd (_write_aws_creds profile "ASIAEXAMPLE" "secret" "token" (init_world [] true None))) in
  (written EmptyString
   = [Parser [("aws_access_key_id", "ASIAEXAMPLE"); ("aws_secret_access_key", "secret");
              ("aws_session_token", "token")] [(EmptyString, [])]] /\
   (read <$> (write <$> written EmptyString)) = [inl ParsingError]) /\
  (read <$> (write <$> written ("a" +:+ Str.NL +:+ "b"))) = [inl MissingSectionHeaderError].
Proof. vm_compute. repeat split. Qed.

End Text.

(** ** Plain names stay plain *)

Section PlainWrites.

Import ConfigParser.

Lemma plain_items_put (items : alist string) (k v : string) :
  plain_option k = true -> plain_value v = true -> plain_items items = true ->
  plain_items (put k v items) = true.
Proof.
  intros Hk Hv. induction items as [|[k' v'] items IH]; cbn [plain_items forallb put fst snd].
  - intros _. rewrite Hk, Hv. reflexivity.
  - intros H. apply andb_true_iff in H as [Hkv Hitems].
    destruct (String.eqb k k'); cbn [forallb fst snd].
    + apply andb_true_iff in Hkv as [Hk' _]. rewrite Hk', Hv. exact Hitems.
    + rewrite Hkv. exact (IH Hitems).
Qed.

Lemma plain_sections_put (secs : alist (alist string)) (name : string) (items : alist string) :
  plain_section name = true -> plain_items items = true ->
  forallb (fun s => plain_section s.1 && plain_items s.2) secs = true ->
  forallb (fun s => plain_section s.1 && plain_items s.2) (put name items secs) = true.
Proof.
  intros Hname Hitems. induction secs as [|[n o] secs IH]; cbn [forallb put fst snd].
  - intros _. rewrite Hname, Hitems. reflexivity.
  - intros H. apply andb_true_iff in H as [Hs Hsecs].
    destruct (String.eqb name n); cbn [forallb fst snd].
    + apply andb_true_iff in Hs as [Hn _]. rewrite Hn, Hitems. exact Hsecs.
    + rewrite Hs. exact (IH Hsecs).
Qed.

Lemma plain_sections_get (secs : alist (alist string)) (name : string) (items : alist string) :
  forallb (fun s => plain_section s.1 && plain_items s.2) secs = true ->
  get name secs = Some items -> plain_items items = true.
Proof.
  induction secs as [|[n o] secs IH]; cbn [forallb get fst snd]; [discriminate|].
  intros H. apply andb_true_iff in H as [Hs Hsecs]. apply andb_true_iff in Hs as [_ Ho].
  destruct (String.eqb name n); [intros [= <-]; exact Ho | exact (IH Hsecs)].
Qed.

(** The parser that [_write_aws_creds] writes for a plain profile name and
    plain credentials, from a plain parser, is plain. *)
Lemma with_credentials_plain (c0 c : t) (profile a s t : string) :
  plain_write profile a s t -> plain_config c0 ->
  with_credentials c0 profile a s t = inr c -> plain_config c.
Proof.
  intros (Hp & Ha & Hs & Ht) [Hdistinct Hplain] Hw.
  split; [exact (with_credentials_distinct _ _ _ _ _ _ Hw Hdistinct)|].
  assert (profile <> EmptyString /\ profile <> default_section) as [H1 H2].
  { unfold plain_section in Hp. apply andb_true_iff in Hp as [Hp _].
    apply andb_true_iff in Hp as [Hne Hnd]. apply negb_true_iff in Hne, Hnd.
    split; apply String.eqb_neq; assumption. }
  assert (forall c1 c2 option value,
             plain c1 = true -> plain_option (Str.lower option) = true ->
             plain_value value = true ->
             ConfigParser.set c1 profile option value = inr c2 -> plain c2 = true) as Hset.
  { intros c1 c2 option value Hc1 Ho Hv. unfold ConfigParser.set.
    rewrite (proj2 (String.eqb_neq _ _) H1), (proj2 (String.eqb_neq _ _) H2). cbn [orb].
    destruct (get profile (sections c1)) as [options|] eqn:Hg; [|discriminate].
    intros [= <-]. unfold plain in *. cbn [defaults sections].
    apply andb_true_iff in Hc1 as [Hd Hsecs]. rewrite Hd. cbn [andb].
    apply plain_sections_put; [exact Hp | | exact Hsecs].
    apply plain_items_put; [exact Ho | exact Hv |].
    exact (plain_sections_get _ _ _ Hsecs Hg). }
  assert (exists c1, (if negb (has_section c0 profile) then add_section c0 profile
                      else inr c0) = inr c1 /\ plain c1 = true /\
                     set_credentials c1 profile a s t = inr c) as (c1 & _ & Hc1 & Hsets).
  { unfold with_credentials in Hw.
    destruct (negb (has_section c0 profile)) eqn:Hh.
    - unfold add_section in *. rewrite (proj2 (String.eqb_neq _ _) H2) in *.
      destruct (has_section c0 profile); [discriminate Hh|].
      eexists. split; [reflexivity|]. split; [|exact Hw].
      unfold plain in *. cbn [defaults sections].
      apply andb_true_iff in Hplain as [Hd Hsecs]. rewrite Hd, forallb_app, Hsecs.
      cbn [forallb fst snd plain_items andb]. rewrite Hp. reflexivity.
    - exists c0. auto. }
  unfold set_credentials in Hsets.
  destruct (ConfigParser.set c1 profile "aws_access_key_id" a) as [e|c2] eqn:E1; [discriminate|].
  destruct (ConfigParser.set c2 profile "aws_secret_access_key" s) as [e|c3] eqn:E2;
    [discriminate|].
  apply (Hset c3 c "aws_session_token" t); [|reflexivity | exact Ht | exact Hsets].
  apply (Hset c2 c3 "aws_secret_access_key" s); [|reflexivity | exact Hs | exact E2].
  apply (Hset c1 c2 "aws_access_key_id" a); [exact Hc1 | reflexivity | exact Ha | exact E1].
Qed.

End PlainWrites.



Lemma plain_stored : plain_config Sample.stored.
Proof.
  split; [|reflexivity]. split; [|split].
  - apply (bool_decide_unpack _). vm_compute. exact I.
  - apply (bool_decide_unpack _). vm_compute. exact I.
  - repeat constructor; apply (bool_decide_unpack _); vm_compute; exact I.
Qed.


(** ** Delivery of the credentials *)

Section Delivery.

Lemma stderr_of_extend (w : world) (events : list event) :
  stderr_of (extend w events)
  = stderr_of w ++ omap (fun e => match e with Stderr s => Some s | _ => None end) events.
Proof. unfold stderr_of, extend. cbn. apply omap_app. Qed.


Lemma file_writes_of_extend (w : world) (events : list event) :
  file_writes_of (extend w events)
  = file_writes_of w
    ++ omap (fun e => match e with WriteFile c => Some c | _ => None end) events.
Proof. unfold file_writes_of, extend. cbn. apply omap_app. Qed.

(** [run_delivery], branch by branch. *)
Lemma run_delivery_run (E : Env) (aws_creds : Credentials) (w : world) :
  run_delivery E aws_creds w
  = match conf_dict E !! "write_aws_creds" with
    | None => (Raise (KeyError "write_aws_creds"), w)
    | Some write =>
        if String.eqb write "True" then
          let told := extend w [Stdout (("writing to " +:+ " " +:+ AWS_CONFIG E) +:+ Str.NL)] in
          match profile_name E with
          | inl e => (Raise e, told)
          | inr profile =>
              _write_aws_creds profile (AccessKeyId aws_creds) (SecretAccessKey aws_creds)
                               (SessionToken aws_creds) told
          end
        else (Return tt, extend w (Stderr <$> export_lines aws_creds))
    end.
Proof.
  unfold run_delivery, item. destruct (conf_dict E !! "write_aws_creds") as [write|];
    [|reflexivity].
  unfold bind at 1. cbn [lift ret]. destruct (String.eqb write "True").
  - unfold bind at 1, print, emit. cbn zeta. unfold bind at 1.
    destruct (profile_name E); reflexivity.
  - unfold bind, print_err, emit, extend, export_lines. cbn.
    rewrite <- !app_assoc. reflexivity.
Qed.

End Delivery.






(** ** The profile that receives the credentials *)


(** C9 (what the code does). With [cred_profile = role] the profile is the
    value of [aws_rolename] in the configuration, not the name of the role
    that was resolved. When the role is chosen at the prompt that value is
    empty: the run below picks the role [Admin] of [Prod], and the credential
    file it writes has no section [Admin]; it has an empty section of empty
    name, and the credentials are in the defaults. Without the key
    [aws_rolename] the run ends in [KeyError] before it writes. *)
Theorem role_profile_ignores_chosen_role :
  let conf := Sample.conf false "True" "role" "Prod" EmptyString in
  let r := run (Sample.env conf [] [Sample.prod]) (Sample.start ["0"]) in
  let r' := run (Sample.env (delete "aws_rolename" conf) [] [Sample.prod]) (Sample.start ["0"]) in
  (fst r = Return tt /\
   self_role_arn (snd r) = Some (role_arn Sample.admin_111) /\
   creds_file (snd r)
   = Some (ConfigParser.Parser
             [("aws_access_key_id", "ASIAEXAMPLE"); ("aws_secret_access_key", "secret");
              ("aws_session_token", "token")]
             [(EmptyString, [])]) /\
   (forall c, creds_file (snd r) = Some c -> ConfigParser.has_section c "Admin" = false)) /\
  (fst r' = Raise (KeyError "aws_rolename") /\
   self_role_arn (snd r') = Some (role_arn Sample.admin_111) /\
   creds_file (snd r') = None).
Proof.
  vm_compute. repeat split. intros c [= <-]. reflexivity.
Qed.

(** * Further properties of the program *)

(** ** What a stage can touch *)

Section Frame.

Lemma printed_refl (w : world) : printed w w.
Proof. exists []. cbn. rewrite extend_nil. reflexivity. Qed.

Lemma printed_trans (w1 w2 w3 : world) : printed w1 w2 -> printed w2 w3 -> printed w1 w3.
Proof.
  intros [t1 ->] [t2 ->]. exists (t1 ++ t2). rewrite extend_extend, fmap_app. reflexivity.
Qed.

Lemma printed_stdout (w : world) (text : string) : printed w (extend w [Stdout text]).
Proof. exists [text]. reflexivity. Qed.

Lemma asked_refl (w : world) : asked w w.
Proof.
  exists [], 0%nat. cbn. rewrite extend_nil. destruct w; reflexivity.
Qed.

Lemma asked_trans (w1 w2 w3 : world) : asked w1 w2 -> asked w2 w3 -> asked w1 w3.
Proof.
  intros (t1 & k1 & ->) (t2 & k2 & ->). exists (t1 ++ t2), (k1 + k2)%nat.
  unfold with_stdin, extend. cbn. rewrite drop_drop, fmap_app, <- app_assoc. reflexivity.
Qed.

Lemma printed_asked (w w' : world) : printed w w' -> asked w w'.
Proof.
  intros [t ->]. exists t, 0%nat. unfold with_stdin, extend. cbn. reflexivity.
Qed.

(** What stays the same across questions and answers. *)
Lemma asked_frame (w w' : world) :
  asked w w' ->
  stderr_of w' = stderr_of w /\ file_writes_of w' = file_writes_of w /\
  sts_calls_of w' = sts_calls_of w /\ creds_file w' = creds_file w /\
  creds_dir w' = creds_dir w /\ self_idp_arn w' = self_idp_arn w /\
  self_role_arn w' = self_role_arn w.
Proof.
  intros (t & k & ->). unfold stderr_of, file_writes_of, sts_calls_of. cbn.
  rewrite !omap_app.
  assert (forall B (f : event -> option B),
            (forall s, f (Stdout s) = None) -> omap f (Stdout <$> t) = []) as Hnone.
  { intros B f Hf. induction t as [|x t IH]; [reflexivity|]. cbn. rewrite Hf. exact IH. }
  rewrite !Hnone by reflexivity. rewrite !app_nil_r. repeat split.
Qed.

Lemma keeps_printed_bind {A B} (m : M A) (k : A -> M B) :
  keeps printed m -> (forall a, keeps printed (k a)) -> keeps printed (bind m k).
Proof.
  intros Hm Hk w. unfold bind. specialize (Hm w).
  destruct (m w) as [[a|code|e] w1]; cbn in *; [|exact Hm..].
  exact (printed_trans _ _ _ Hm (Hk a w1)).
Qed.

Lemma keeps_asked_bind {A B} (m : M A) (k : A -> M B) :
  keeps asked m -> (forall a, keeps asked (k a)) -> keeps asked (bind m k).
Proof.
  intros Hm Hk w. unfold bind. specialize (Hm w).
  destruct (m w) as [[a|code|e] w1]; cbn in *; [|exact Hm..].
  exact (asked_trans _ _ _ Hm (Hk a w1)).
Qed.

Lemma keeps_printed_asked {A} (m : M A) : keeps printed m -> keeps asked m.
Proof. intros H w. apply printed_asked, H. Qed.

Lemma keeps_printed_ret {A} (a : A) : keeps printed (ret a).
Proof. intros w. apply printed_refl. Qed.

Lemma keeps_printed_exit {A} (code : option Z) : keeps printed (@exit A code).
Proof. intros w. apply printed_refl. Qed.

Lemma keeps_printed_raise {A} (e : exn) : keeps printed (@raise A e).
Proof. intros w. apply printed_refl. Qed.

Lemma keeps_printed_lift {A} (r : exn + A) : keeps printed (lift r).
Proof. destruct r; intros w; apply printed_refl. Qed.

Lemma keeps_printed_print (text : string) : keeps printed (print text).
Proof. intros w. apply printed_stdout. Qed.

Lemma keeps_printed_print_no_end (text : string) : keeps printed (print_no_end text).
Proof. intros w. apply printed_stdout. Qed.

Lemma keeps_printed_print_all (texts : list string) : keeps printed (print_all texts).
Proof.
  intros w. rewrite print_all_trace. cbn. exists ((fun t => t +:+ Str.NL) <$> texts).
  rewrite <- list_fmap_compose. reflexivity.
Qed.

Lemma keeps_asked_input (prompt : string) : keeps asked (input prompt).
Proof.
  intros w. unfold input, bind, emit. cbn. destruct (stdin w) as [|line rest] eqn:Hin; cbn.
  - exists [prompt], 0%nat. unfold with_stdin, extend. cbn. rewrite Hin. reflexivity.
  - exists [prompt], 1%nat. unfold with_stdin, extend. cbn. rewrite Hin. reflexivity.
Qed.

End Frame.

Create HintDb frame.
#[export] Hint Resolve keeps_printed_ret keeps_printed_exit keeps_printed_raise
  keeps_printed_lift keeps_printed_print keeps_printed_print_no_end keeps_printed_print_all
  keeps_asked_input keeps_printed_asked : frame.

(** One step of a frame proof: through a [bind], into the branches of a
    test, or closed by a known stage. *)
Ltac frame_step :=
  first
    [ progress intros
    | solve [eauto with frame]
    | apply keeps_printed_bind
    | apply keeps_asked_bind
    | match goal with
      | |- keeps _ (match ?x with _ => _ end) => destruct x
      | |- keeps _ (if ?b then _ else _) => destruct b
      end ].

Ltac frame := repeat frame_step.

Section StageFrames.

Variable E : Env.

Lemma keeps_printed_okta_error {A} (not_found : string) (e : OktaError) :
  keeps printed (@okta_error A not_found e).
Proof. unfold okta_error. frame. Qed.

Lemma keeps_printed_next_pages (pages : list (OktaError + list RawApp))
      (final_result : list RawApp) :
  keeps printed (next_pages pages final_result).
Proof.
  revert final_result. induction pages as [|page pages IH]; intros final_result;
    cbn [next_pages]; frame.
Qed.

Lemma keeps_printed_get_aws_account_info (okta_org_url okta_api_key username : string) :
  keeps printed (_get_aws_account_info E okta_org_url okta_api_key username).
Proof.
  pose proof (@keeps_printed_okta_error) as Hokta.
  pose proof keeps_printed_next_pages as Hpages.
  unfold _get_aws_account_info. frame.
Qed.

Lemma keeps_printed_call_gimme_creds_server : keeps printed (_call_gimme_creds_server E).
Proof. unfold _call_gimme_creds_server. frame. Qed.

Lemma keeps_printed_run_accounts : keeps printed (run_accounts E).
Proof.
  pose proof keeps_printed_get_aws_account_info as Hinfo.
  pose proof keeps_printed_call_gimme_creds_server as Hserver.
  unfold run_accounts. frame.
Qed.

Lemma keeps_asked_read_selection (retries : nat) : keeps asked (read_selection retries).
Proof. induction retries as [|retries IH]; cbn [read_selection]; frame. Qed.

Lemma keeps_asked_get_user_int_selection (min_int max_int : Z) (max_retries : nat) :
  keeps asked (_get_user_int_selection min_int max_int max_retries).
Proof.
  pose proof keeps_asked_read_selection as Hread.
  unfold _get_user_int_selection. frame.
Qed.

Lemma keeps_asked_choose_app (aws_info : list Entitlement) : keeps asked (_choose_app aws_info).
Proof.
  pose proof keeps_asked_get_user_int_selection as Hsel.
  unfold _choose_app. frame.
Qed.

Lemma keeps_asked_choose_role (app_info : Entitlement) : keeps asked (_choose_role app_info).
Proof.
  pose proof keeps_asked_get_user_int_selection as Hsel.
  unfold _choose_role. frame.
Qed.

Lemma keeps_asked_run_select_app (aws_results : list Entitlement) :
  keeps asked (run_select_app E aws_results).
Proof.
  pose proof keeps_asked_choose_app as Happ.
  unfold run_select_app. frame.
Qed.

Lemma keeps_asked_run_select_role (aws_app : Entitlement) :
  keeps asked (run_select_role E aws_app).
Proof.
  pose proof keeps_asked_choose_role as Hrole.
  unfold run_select_role. frame.
Qed.

End StageFrames.

(** ** The first part of [run]: configuration and accounts *)

(** X1. Whatever the Okta APIs answer (a user or an error, any number of
    pages, any records) and however it ends, [_get_aws_account_info] only
    prints on standard output: it reads no line, writes nothing on standard
    error, leaves the credential file and [self] alone and sends nothing to
    the federation service. *)
Theorem catalog_builder_only_prints
    (E : Env) (okta_org_url okta_api_key username : string) (w : world) :
  exists texts,
    snd (_get_aws_account_info E okta_org_url okta_api_key username w)
    = extend w (Stdout <$> texts).
Proof. exact (keeps_printed_get_aws_account_info E okta_org_url okta_api_key username w). Qed.

Lemma run_stops_with_accounts (E : Env) (w w' : world) (code : option Z) :
  run_accounts E w = (Exit code, w') -> run E w = (Exit code, w').
Proof. intros H. unfold run, bind. rewrite H. reflexivity. Qed.

(** X2. The checks of the configuration of a run without [--configure], in
    their order. A missing or empty [okta_org_url] ends the run with status 1
    after one message, whatever else is missing; then a missing or empty
    [gimme_creds_server] does; then, in internal mode, a missing API key
    does. Each of them ends the run before any authentication. *)
Theorem configuration_errors (E : Env) (w : world) :
  (configure E = false -> truthy (conf_dict E !! "okta_org_url") = false ->
   run E w
   = (Exit (Some 1),
      extend w [Stdout ("No Okta organization URL in configuration.  Try running --config again."
                        +:+ Str.NL)])) /\
  (configure E = false -> truthy (conf_dict E !! "okta_org_url") = true ->
   truthy (conf_dict E !! "gimme_creds_server") = false ->
   run E w
   = (Exit (Some 1),
      extend w [Stdout ("No Gimme-Creds server URL in configuration.  Try running --config again."
                        +:+ Str.NL)])) /\
  (configure E = false -> truthy (conf_dict E !! "okta_org_url") = true ->
   conf_dict E !! "gimme_creds_server" = Some "internal" -> api_key E = None ->
   run E w
   = (Exit (Some 1),
      extend w [Stdout ("OKTA_API_KEY environment variable not found!" +:+ Str.NL)])).
Proof.
  split; [|split].
  - intros Hc Hu. apply run_stops_with_accounts. unfold run_accounts, bind at 1.
    rewrite Hc. cbn [ret]. unfold bind at 1. rewrite Hu. reflexivity.
  - intros Hc Hu Hs. apply run_stops_with_accounts. unfold run_accounts, bind at 1.
    rewrite Hc. cbn [ret]. unfold bind at 1. rewrite Hu. cbn [negb ret].
    unfold bind at 1. rewrite Hs. reflexivity.
  - intros Hc Hu Hs Hk. apply run_stops_with_accounts. unfold run_accounts, bind at 1.
    rewrite Hc. cbn [ret]. unfold bind at 1. rewrite Hu. cbn [negb ret].
    unfold bind at 1. rewrite Hs. cbn [truthy negb ret]. unfold bind at 1, item.
    destruct (conf_dict E !! "okta_org_url") as [url|]; [|discriminate Hu].
    cbn [lift ret]. rewrite bool_decide_true by reflexivity. rewrite Hk. reflexivity.
Qed.

Lemma configuration_errors_witness :
  let started := Sample.start ["0"] in
  let without key := Sample.env (delete key (Sample.conf true "False" "role" "Prod" "Admin"))
                                [] [Sample.prod] in
  fst (run (without "okta_org_url") started) = Exit (Some 1) /\
  fst (run (without "gimme_creds_server") started) = Exit (Some 1) /\
  stdout_of (snd (run (Sample.env (delete "gimme_creds_server"
                                     (delete "okta_org_url"
                                        (Sample.conf true "False" "role" "Prod" "Admin")))
                                  [] [Sample.prod]) started))
  = ["No Okta organization URL in configuration.  Try running --config again." +:+ Str.NL].
Proof.
  cbn zeta. split; [|split].
  - rewrite (proj1 (configuration_errors _ _)); reflexivity.
  - rewrite (proj1 (proj2 (configuration_errors _ _))); reflexivity.
  - rewrite (proj1 (configuration_errors _ _)); reflexivity.
Defined.



(** ** Errors of the Okta APIs and the pages of applications *)

Lemma next_pages_trace (pages : list (OktaError + list RawApp))
      (final_result : list RawApp) (w : world) :
  next_pages pages final_result w
  = (Return (match collect pages with
             | inl e => inl e
             | inr more => inr (final_result ++ more)
             end),
     extend w (replicate (fetched_pages pages) (Stdout "."))).
Proof.
  revert final_result w. induction pages as [|[e|records] pages IH]; intros final_result w.
  - cbn. unfold ret. rewrite extend_nil, app_nil_r. reflexivity.
  - reflexivity.
  - cbn [next_pages collect fetched_pages]. unfold bind, print_no_end, emit.
    fold (extend w [Stdout "."]). rewrite IH, extend_extend.
    destruct (collect pages); [reflexivity|]. rewrite <- app_assoc. reflexivity.
Qed.

Lemma okta_error_run {A} (not_found : string) (e : OktaError) (w : world) :
  @okta_error A not_found e w = (Exit (Some 1), extend w [Stdout (okta_message not_found e)]).
Proof.
  unfold okta_error, okta_message, bind. destruct (String.eqb (error_code e) "E0000007");
    reflexivity.
Qed.

(** X4. An error of the Okta APIs ends [_get_aws_account_info] with status
    1 after one message: for the code [E0000007] that the user was not found
    or has no applications, the summary of the error otherwise. An error on a
    later page does the same after one progress mark per page asked for: the
    records of the pages before it are dropped and no page after it is asked
    for. *)
Theorem okta_error_ends_with_status_1
    (E : Env) (okta_org_url okta_api_key username : string) (w : world) :
  let info := _get_aws_account_info E okta_org_url okta_api_key username w in
  (forall e, users_get E = inl e ->
     info = (Exit (Some 1),
             extend w [Stdout (okta_message ("Error: " +:+ username +:+ " was not found!") e)]))
  /\
  (forall user e, users_get E = inr user -> apps_first E = inl e ->
     info = (Exit (Some 1),
             extend w [Stdout (okta_message ("Error: No applications found for " +:+ username)
                                            e)])) /\
  (forall user first e,
     users_get E = inr user -> apps_first E = inr first -> collect (apps_next E) = inl e ->
     info = (Exit (Some 1),
             extend w (replicate (fetched_pages (apps_next E)) (Stdout ".")
                       ++ [Stdout (okta_message ("Error: No applications found for " +:+ username)
                                                e)]))).
Proof.
  cbn zeta. unfold _get_aws_account_info. split; [|split].
  - intros e Hu. rewrite Hu. unfold bind at 1. rewrite okta_error_run. reflexivity.
  - intros user e Hu Hf. rewrite Hu, Hf. unfold bind at 1, ret at 1. unfold bind at 1, ret at 1.
    unfold bind at 1. rewrite okta_error_run. reflexivity.
  - intros user first e Hu Hf Hc. rewrite Hu, Hf. unfold bind at 1, ret at 1.
    unfold bind at 1. rewrite next_pages_trace, Hc. unfold bind at 1.
    rewrite okta_error_run, extend_extend. reflexivity.
Qed.

Lemma okta_error_ends_with_status_1_witness :
  let failing := {| error_code := "E0000047"; error_summary := "API call exceeded rate limit" |} in
  let E := {| FILE_ROOT := "/home/alice"; configure := false; api_key := Some "00key";
              conf_dict := Sample.conf true "False" "role" "Prod" "Admin";
              auth_username := "alice"; users_get := inr "00u1";
              apps_first := inr [Sample.raw "Prod" Sample.idp_111 ["Admin"]];
              apps_next := [inr [Sample.other_raw]; inl failing; inr []];
              server_json := []; get_saml_response := fun _ => "PHNhbWw+";
              assume_role_with_saml := fun _ => Some Sample.creds |} in
  _get_aws_account_info E "https://example.okta.com" "00key" "alice" (Sample.start [])
  = (Exit (Some 1),
     World [] [Stdout "."; Stdout ".";
               Stdout ("Error: API call exceeded rate limit" +:+ Str.NL)] true None None None).
Proof.
  intros failing E.
  exact (proj2 (proj2 (okta_error_ends_with_status_1 E "https://example.okta.com" "00key"
                         "alice" (Sample.start [])))
               "00u1" [Sample.raw "Prod" Sample.idp_111 ["Admin"]] failing
               eq_refl eq_refl eq_refl).
Defined.

Lemma collect_all_fetched (pages : list (list RawApp)) :
  collect (inr <$> pages) = inr (concat pages) /\
  fetched_pages (inr <$> pages) = length pages.
Proof.
  induction pages as [|page pages [IH1 IH2]]; [split; reflexivity|].
  cbn. rewrite IH1, IH2. split; reflexivity.
Qed.

(** X5. When the user and every page can be fetched, [_get_aws_account_info]
    prints one progress mark per page after the first and then [done], reads
    the records of the pages in their order, and returns one entry per record
    of the AWS connector type, in that order, provided there is one (and the
    AWS records have their two links, and role names without backslash). *)
Theorem pages_are_joined_in_order
    (E : Env) (okta_org_url okta_api_key username user : string)
    (first : list RawApp) (pages : list (list RawApp)) (w : world) :
  users_get E = inr user -> apps_first E = inr first -> apps_next E = inr <$> pages ->
  Forall plain_roles (aws_records (first ++ concat pages)) ->
  aws_records (first ++ concat pages) <> [] ->
  (forall app, app ∈ aws_records (first ++ concat pages) ->
               raw_appLinks app <> [] /\ raw_logo app <> []) ->
  exists app_list,
    _get_aws_account_info E okta_org_url okta_api_key username w
    = (Return app_list, extend w (progress (length pages))) /\
    Forall2 entry_of (aws_records (first ++ concat pages)) app_list.
Proof.
  intros Hu Hf Hn _ Hsome Hlinks.
  destruct (collect_all_fetched pages) as [Hc Hk].
  destruct (app_list_of_total _ Hlinks) as [app_list Hl].
  pose proof (app_list_of_spec _ _ Hl) as Hspec.
  exists app_list. split; [|exact Hspec].
  unfold _get_aws_account_info. rewrite Hu, Hf, Hn. unfold bind at 1, ret at 1.
  unfold bind at 1. rewrite next_pages_trace, Hc, Hk.
  unfold bind at 1, bind at 1, print at 1, emit. cbn [ret].
  unfold bind at 1. rewrite Hl. cbn [lift ret].
  destruct app_list as [|entry app_list].
  - apply Forall2_nil_inv_r in Hspec. congruence.
  - unfold ret, extend, progress. cbn. rewrite <- app_assoc. reflexivity.
Qed.

Lemma pages_are_joined_in_order_witness :
  let E := {| FILE_ROOT := "/home/alice"; configure := false; api_key := Some "00key";
              conf_dict := Sample.conf true "False" "role" "Prod" "Admin";
              auth_username := "alice"; users_get := inr "00u1";
              apps_first := inr [Sample.raw "Prod" Sample.idp_111 ["Admin"]];
              apps_next := [inr [Sample.other_raw]; inr [Sample.raw "Dev" Sample.idp_222 []]];
              server_json := []; get_saml_response := fun _ => "PHNhbWw+";
              assume_role_with_saml := fun _ => Some Sample.creds |} in
  exists app_list,
    _get_aws_account_info E "https://example.okta.com" "00key" "alice" (Sample.start [])
    = (Return app_list,
       World [] [Stdout "."; Stdout "."; Stdout (("done" +:+ Str.NL) +:+ Str.NL)]
             true None None None) /\
    app_name <$> app_list = ["Prod"; "Dev"].
Proof.
  intros E.
  destruct (pages_are_joined_in_order E "https://example.okta.com" "00key" "alice" "00u1"
              [Sample.raw "Prod" Sample.idp_111 ["Admin"]]
              [[Sample.other_raw]; [Sample.raw "Dev" Sample.idp_222 []]] (Sample.start []))
    as (app_list & Hrun & Hentries); try reflexivity.
  - vm_compute. repeat constructor.
  - vm_compute. discriminate.
  - intros app Hin. vm_compute in Hin.
    repeat (apply elem_of_cons in Hin as [->|Hin]); [split; discriminate..|inversion Hin].
  - exists app_list. split; [exact Hrun|].
    vm_compute in Hrun. injection Hrun as <-. reflexivity.
Defined.

(** X6. The builder reads the two links of the records of the AWS connector
    type only. With role names without backslash in those records, it raises
    [IndexError] exactly when one of them has no application link or no logo,
    whatever the other records hold, and otherwise returns as many entries as
    there are AWS records. *)
Theorem missing_link_is_index_error (final_result : list RawApp) :
  Forall plain_roles (aws_records final_result) ->
  ((exists app, app ∈ aws_records final_result /\
                (raw_appLinks app = [] \/ raw_logo app = [])) <->
   app_list_of final_result = inl IndexError) /\
  ((forall app, app ∈ aws_records final_result ->
                raw_appLinks app <> [] /\ raw_logo app <> []) <->
   exists app_list, app_list_of final_result = inr app_list /\
                    length app_list = length (aws_records final_result)).
Proof.
  intros _. induction final_result as [|app rest [IH1 IH2]].
  - split; split.
    + intros (app & Hin & _). inversion Hin.
    + discriminate.
    + intros _. exists []. split; reflexivity.
    + intros _ app Hin. inversion Hin.
  - unfold aws_records in *. rewrite filter_cons. cbn [app_list_of].
    destruct (String.eqb_spec (raw_name app) "amazon_aws") as [Heq|Hne].
    2:{ rewrite decide_False by exact Hne. split; [exact IH1 | exact IH2]. }
    rewrite decide_True by exact Heq. unfold new_app_entry.
    destruct (raw_appLinks app) as [|link links] eqn:Hl.
    { split; split.
      - reflexivity.
      - intros _. exists app. split; [left | left; exact Hl].
      - intros H. destruct (H app ltac:(left)) as [Hx _]. congruence.
      - intros (l & Hx & _). discriminate. }
    destruct (raw_logo app) as [|logo logos] eqn:Hg.
    { split; split.
      - reflexivity.
      - intros _. exists app. split; [left | right; exact Hg].
      - intros H. destruct (H app ltac:(left)) as [_ Hx]. congruence.
      - intros (l & Hx & _). discriminate. }
    destruct (app_list_of rest) as [e|l] eqn:Hrest.
    + split; split.
      * intros (a & Hin & Ha). apply elem_of_cons in Hin as [->|Hin].
        { rewrite Hl, Hg in Ha. destruct Ha; discriminate. }
        apply (proj1 IH1). eauto.
      * intros He. destruct (proj2 IH1 He) as (a & Hin & Ha).
        exists a. split; [right; exact Hin | exact Ha].
      * intros H. destruct (proj1 IH2) as (l & Hx & _); [|discriminate].
        intros a Hin. apply H. right. exact Hin.
      * intros (l & Hx & _). discriminate.
    + split; split.
      * intros (a & Hin & Ha). apply elem_of_cons in Hin as [->|Hin].
        { rewrite Hl, Hg in Ha. destruct Ha; discriminate. }
        assert (@inr exn _ l = inl IndexError) as Habs by (apply (proj1 IH1); eauto).
        discriminate.
      * discriminate.
      * intros H. destruct (proj1 IH2) as (l' & Hx & Hlen).
        { intros a Hin. apply H. right. exact Hin. }
        injection Hx as <-. eexists. split; [reflexivity|]. cbn. rewrite Hlen. reflexivity.
      * intros (l' & Hx & Hlen) a Hin. injection Hx as <-. cbn in Hlen.
        apply elem_of_cons in Hin as [->|Hin].
        { rewrite Hl, Hg. split; discriminate. }
        apply (proj2 IH2); [|exact Hin].
        exists l. split; [reflexivity | congruence].
Qed.

Lemma missing_link_is_index_error_witness :
  let no_logo := {| raw_name := "amazon_aws"; raw_id := "0oa5"; raw_label := "Staging";
                    raw_identityProviderArn := Sample.idp_222; raw_samlRoles := ["Admin"];
                    raw_appLinks := ["https://okta.example/home/amazon_aws/0oa5"];
                    raw_logo := [] |} in
  let no_links := {| raw_name := "salesforce"; raw_id := "0oa8"; raw_label := "CRM";
                     raw_identityProviderArn := EmptyString; raw_samlRoles := [];
                     raw_appLinks := []; raw_logo := [] |} in
  app_list_of [Sample.raw "Prod" Sample.idp_111 ["Admin"]; no_links; no_logo] = inl IndexError /\
  exists app_list,
    app_list_of [Sample.raw "Prod" Sample.idp_111 ["Admin"]; no_links] = inr app_list /\
    length app_list = 1%nat.
Proof.
  intros no_logo no_links. split.
  - apply (proj1 (missing_link_is_index_error
                    [Sample.raw "Prod" Sample.idp_111 ["Admin"]; no_links; no_logo]
                    ltac:(vm_compute; repeat constructor))).
    exists no_logo. split; [|right; reflexivity].
    assert (aws_records [Sample.raw "Prod" Sample.idp_111 ["Admin"]; no_links; no_logo]
            = [Sample.raw "Prod" Sample.idp_111 ["Admin"]; no_logo]) as ->
        by (vm_compute; reflexivity).
    right. left.
  - apply (proj2 (missing_link_is_index_error
                    [Sample.raw "Prod" Sample.idp_111 ["Admin"]; no_links]
                    ltac:(vm_compute; repeat constructor))).
    intros app Hin. vm_compute in Hin.
    repeat (apply elem_of_cons in Hin as [->|Hin]); [split; discriminate|inversion Hin].
Defined.

(** ** The selection comes from the catalog *)

Section Membership.

Lemma py_index_member {A} (l : list A) (i : Z) (a : A) : py_index l i = inr a -> a ∈ l.
Proof.
  unfold py_index. destruct (_ <? 0); [discriminate|].
  destruct (l !! _) eqn:Hl; [|discriminate]. intros [= <-].
  eapply list_elem_of_lookup_2, Hl.
Qed.

Lemma get_app_by_name_member (aws_info : list Entitlement) (appname : string)
      (app : Entitlement) :
  _get_app_by_name aws_info appname = Some app -> app ∈ aws_info /\ app_name app = appname.
Proof.
  induction aws_info as [|a l IH]; cbn [_get_app_by_name]; [discriminate|].
  destruct (String.eqb_spec (app_name a) appname) as [Heq|Hne].
  - intros [= <-]. split; [left | exact Heq].
  - intros H. destruct (IH H). split; [right|]; assumption.
Qed.

Lemma role_by_name_member (roles : list Role) (rolename : string) (role : Role) :
  role_by_name roles rolename = Some role -> role ∈ roles /\ role_name role = rolename.
Proof.
  induction roles as [|a l IH]; cbn [role_by_name]; [discriminate|].
  destruct (String.eqb_spec (role_name a) rolename) as [Heq|Hne].
  - intros [= <-]. split; [left | exact Heq].
  - intros H. destruct (IH H). split; [right|]; assumption.
Qed.

Lemma choose_app_member (aws_info : list Entitlement) (w w' : world) (app : Entitlement) :
  _choose_app aws_info w = (Return (Some app), w') -> app ∈ aws_info.
Proof.
  intros H. unfold _choose_app in H. destruct aws_info as [|x l]; [discriminate|].
  destruct (app_strs (x :: l)); [discriminate|].
  unfold bind at 1, print at 1, emit in H. unfold bind at 1 in H.
  rewrite print_all_trace in H. unfold bind at 1 in H.
  destruct (_get_user_int_selection _ _ _ _) as [[[n|]|c|e] w1]; try discriminate.
  unfold bind, lift in H. destruct (py_index (x :: l) n) as [e|a] eqn:Hi; [discriminate|].
  injection H as <- _. exact (py_index_member _ _ _ Hi).
Qed.

Lemma choose_role_member (app_info : Entitlement) (w w' : world) (role : Role) :
  _choose_role app_info w = (Return (Some role), w') -> role ∈ app_roles app_info.
Proof.
  intros H. unfold _choose_role in H.
  destruct (role_strs app_info); [discriminate|].
  unfold bind at 1, print at 1, emit in H. unfold bind at 1 in H.
  rewrite print_all_trace in H. unfold bind at 1 in H.
  destruct (_get_user_int_selection _ _ _ _) as [[[n|]|c|e] w1]; try discriminate.
  unfold bind, lift in H.
  destruct (py_index (app_roles app_info) n) as [e|a] eqn:Hi; [discriminate|].
  injection H as <- _. exact (py_index_member _ _ _ Hi).
Qed.

Lemma run_select_app_member (E : Env) (aws_results : list Entitlement) (w w' : world)
      (app : Entitlement) :
  run_select_app E aws_results w = (Return app, w') ->
  app ∈ aws_results /\ asked w w' /\
  forall name, pinned E "aws_appname" name -> app_name app = name.
Proof.
  intros H. split; [|split].
  - unfold run_select_app, bind at 1 in H.
    destruct (truthy (conf_dict E !! "aws_appname")); cbn [negb] in H.
    + unfold bind at 1 in H. destruct (item (conf_dict E) "aws_appname") as [e|name];
        [discriminate|]. cbn [lift ret] in H.
      destruct (_get_app_by_name aws_results name) as [a|] eqn:Ha.
      * injection H as <- _. apply (get_app_by_name_member _ _ _ Ha).
      * unfold bind in H. cbn in H. discriminate.
    + destruct (_choose_app aws_results w) as [[[a|]|c|e] w1] eqn:Hc; try discriminate.
      * injection H as <- _. exact (choose_app_member _ _ _ _ Hc).
      * unfold bind in H. destruct (lift (item (conf_dict E) "aws_appname") w1) as [[?|?|?] ?];
          discriminate.
  - pose proof (keeps_asked_run_select_app E aws_results w) as Hk. rewrite H in Hk. exact Hk.
  - intros name Hp. rewrite (run_select_app_pinned E aws_results name w Hp) in H.
    destruct (_get_app_by_name aws_results name) as [a|] eqn:Ha; [|discriminate].
    injection H as <- _. apply (get_app_by_name_member _ _ _ Ha).
Qed.

Lemma run_select_role_member (E : Env) (aws_app : Entitlement) (w w' : world) (role : Role) :
  run_select_role E aws_app w = (Return role, w') ->
  role ∈ app_roles aws_app /\ asked w w' /\
  forall name, pinned E "aws_rolename" name -> role_name role = name.
Proof.
  intros H. split; [|split].
  - unfold run_select_role, bind at 1 in H.
    destruct (truthy (conf_dict E !! "aws_rolename")); cbn [negb] in H.
    + unfold bind at 1 in H. destruct (item (conf_dict E) "aws_rolename") as [e|name];
        [discriminate|]. cbn [lift ret] in H. unfold _get_role_by_name in H.
      destruct (role_by_name (app_roles aws_app) name) as [a|] eqn:Ha.
      * injection H as <- _. apply (role_by_name_member _ _ _ Ha).
      * discriminate.
    + destruct (_choose_role aws_app w) as [[[a|]|c|e] w1] eqn:Hc; try discriminate.
      injection H as <- _. exact (choose_role_member _ _ _ _ Hc).
  - pose proof (keeps_asked_run_select_role E aws_app w) as Hk. rewrite H in Hk. exact Hk.
  - intros name Hp. rewrite (run_select_role_pinned E aws_app name w Hp) in H.
    unfold _get_role_by_name in H.
    destruct (role_by_name (app_roles aws_app) name) as [a|] eqn:Ha; [|discriminate].
    injection H as <- _. apply (role_by_name_member _ _ _ Ha).
Qed.

(** The three ways [run_selection] can go. *)
Lemma run_selection_cases (E : Env) (aws_results : list Entitlement) (w : world) :
  (exists app role w1,
      run_selection E aws_results w
      = (Return (app, role),
         World (stdin w1) (trace w1) (creds_dir w1) (creds_file w1)
               (Some (app_identityProviderArn app)) (Some (role_arn role))) /\
      asked w w1 /\ app ∈ aws_results /\ role ∈ app_roles app /\
      (forall name, pinned E "aws_appname" name -> app_name app = name) /\
      (forall name, pinned E "aws_rolename" name -> role_name role = name)) \/
  ((forall selected, fst (run_selection E aws_results w) <> Return selected) /\
   asked w (snd (run_selection E aws_results w))).
Proof.
  unfold run_selection, bind.
  destruct (run_select_app E aws_results w) as [[app|c|e] w1] eqn:Happ.
  - apply run_select_app_member in Happ as Hm. destruct Hm as (Hin & Hask & Hname).
    destruct (run_select_role E app w1) as [[role|c|e] w2] eqn:Hrole.
    + apply run_select_role_member in Hrole as Hm. destruct Hm as (Hin' & Hask' & Hname').
      left. exists app, role, w2. split; [reflexivity|].
      split; [exact (asked_trans _ _ _ Hask Hask')|]. auto.
    + right. pose proof (keeps_asked_run_select_role E app w1) as Hk. rewrite Hrole in Hk.
      cbn. split; [intros ?; discriminate|]. exact (asked_trans _ _ _ Hask Hk).
    + right. pose proof (keeps_asked_run_select_role E app w1) as Hk. rewrite Hrole in Hk.
      cbn. split; [intros ?; discriminate|]. exact (asked_trans _ _ _ Hask Hk).
  - right. pose proof (keeps_asked_run_select_app E aws_results w) as Hk. rewrite Happ in Hk.
    cbn. split; [intros ?; discriminate|]. exact Hk.
  - right. pose proof (keeps_asked_run_select_app E aws_results w) as Hk. rewrite Happ in Hk.
    cbn. split; [intros ?; discriminate|]. exact Hk.
Qed.

End Membership.

(** X7. A selection that succeeds is made of an application of the list and
    of a role of that application, never of anything else, whether they were
    named in the configuration or chosen at the prompt; a name pinned in the
    configuration is the name of what was selected. The two ARNs stored in
    [self] are those of the selection, and apart from them the stage has only
    printed questions and read answers. *)
Theorem selection_is_from_the_catalog
    (E : Env) (aws_results : list Entitlement) (w w' : world) (app : Entitlement) (role : Role) :
  run_selection E aws_results w = (Return (app, role), w') ->
  app ∈ aws_results /\ role ∈ app_roles app /\
  (forall name, pinned E "aws_appname" name -> app_name app = name) /\
  (forall name, pinned E "aws_rolename" name -> role_name role = name) /\
  self_idp_arn w' = Some (app_identityProviderArn app) /\
  self_role_arn w' = Some (role_arn role) /\
  exists w1, asked w w1 /\ w' = with_selection w1 app role.
Proof.
  intros H.
  destruct (run_selection_cases E aws_results w)
    as [(app' & role' & w1 & Hrun & Hask & Hin & Hin' & Hn & Hn')|[Hnot _]].
  - rewrite Hrun in H. injection H as <- <- <-.
    repeat (split; [assumption || reflexivity|]). exists w1. split; [exact Hask | reflexivity].
  - exfalso. apply (Hnot (app, role)). rewrite H. reflexivity.
Qed.

Lemma selection_is_from_the_catalog_witness :
  let E := Sample.env (Sample.conf false "False" "role" EmptyString EmptyString) [] [] in
  let aws_results := [Sample.dev; Sample.prod_again] in
  run_selection E aws_results (Sample.start ["1"; "2"; "left"])
  = (Return (Sample.prod_again, Sample.admin_999),
     World ["left"]
           (menu "Pick an app:" ["[0] Dev"; "[1] Prod"] ++ [question]
            ++ menu "Pick a role:" ["[0] Reader"; "[1] Admin"; "[2] Admin"] ++ [question])
           true None (Some Sample.idp_222) (Some "arn:aws:iam::999:role/Admin")) /\
  Sample.prod_again ∈ aws_results /\ Sample.admin_999 ∈ app_roles Sample.prod_again.
Proof.
  intros E aws_results.
  assert (run_selection E aws_results (Sample.start ["1"; "2"; "left"])
          = (Return (Sample.prod_again, Sample.admin_999),
             World ["left"]
                   (menu "Pick an app:" ["[0] Dev"; "[1] Prod"] ++ [question]
                    ++ menu "Pick a role:" ["[0] Reader"; "[1] Admin"; "[2] Admin"]
                    ++ [question])
                   true None (Some Sample.idp_222) (Some "arn:aws:iam::999:role/Admin")))
    as Hrun by (vm_compute; reflexivity).
  split; [exact Hrun|].
  destruct (selection_is_from_the_catalog E aws_results _ _ _ _ Hrun) as (Ha & Hr & _).
  split; [exact Ha | exact Hr].
Defined.

(** ** Credentials are delivered only after the exchange *)

Section Safety.

Lemma bind_run {A B} (m : M A) (k : A -> M B) (w : world) :
  bind m k w
  = match m w with
    | (Return a, w') => k a w'
    | (Exit code, w') => (Exit code, w')
    | (Raise e, w') => (Raise e, w')
    end.
Proof. reflexivity. Qed.

Lemma with_selection_frame (w : world) (app : Entitlement) (role : Role) :
  stderr_of (with_selection w app role) = stderr_of w /\
  file_writes_of (with_selection w app role) = file_writes_of w /\
  sts_calls_of (with_selection w app role) = sts_calls_of w /\
  creds_file (with_selection w app role) = creds_file w /\
  stdin (with_selection w app role) = stdin w.
Proof. repeat split. Qed.

Lemma sts_calls_of_extend (w : world) (events : list event) :
  sts_calls_of (extend w events)
  = sts_calls_of w ++ omap (fun e => match e with StsCall r => Some r | _ => None end) events.
Proof. unfold sts_calls_of, extend. cbn. apply omap_app. Qed.

(** What a delivery can change. *)
Lemma run_delivery_effects (E : Env) (aws_creds : Credentials) (w : world) :
  let r := run_delivery E aws_creds w in
  sts_calls_of (snd r) = sts_calls_of w /\ stdin (snd r) = stdin w /\
  self_idp_arn (snd r) = self_idp_arn w /\ self_role_arn (snd r) = self_role_arn w /\
  (stderr_of (snd r) = stderr_of w \/
   stderr_of (snd r) = stderr_of w ++ export_lines aws_creds /\
   file_writes_of (snd r) = file_writes_of w /\ creds_file (snd r) = creds_file w).
Proof.
  cbn zeta. rewrite run_delivery_run.
  destruct (conf_dict E !! "write_aws_creds") as [write|]; [|cbn; auto 10].
  destruct (String.eqb write "True").
  - cbn zeta.
    set (told := extend w [Stdout (("writing to " +:+ " " +:+ AWS_CONFIG E) +:+ Str.NL)]).
    assert (sts_calls_of told = sts_calls_of w /\ stderr_of told = stderr_of w) as [Hs He]
        by (unfold told; rewrite sts_calls_of_extend, stderr_of_extend; cbn;
            rewrite !app_nil_r; auto).
    destruct (profile_name E) as [e|profile]; [cbn; auto 10|].
    rewrite write_aws_creds_run. cbn zeta.
    destruct (with_credentials (stored_config told) profile _ _ _) as [e|c]; cbn [fst snd];
      unfold sts_calls_of, stderr_of in *; cbn [trace stdin self_idp_arn self_role_arn];
      rewrite !omap_app, Hs, He; destruct (creds_dir told); cbn; rewrite ?app_nil_r; auto 10.
  - cbn [fst snd]. rewrite sts_calls_of_extend, stderr_of_extend, file_writes_of_extend.
    cbn. rewrite !app_nil_r. auto 10.
Qed.

End Safety.

(** X8. However a run goes, it sends at most one request to the federation
    service, and credentials reach standard error or the credential file only
    after the exchange: either nothing was printed on standard error and the
    credential file was not written, or the accounts were obtained, the
    request named a role of an application of that list and the service
    answered it with credentials, which are the only ones that can appear on
    standard error. *)
Theorem credentials_only_after_exchange (E : Env) (w : world) :
  let r := run E w in
  (sts_calls_of (snd r) = sts_calls_of w \/
   exists req, sts_calls_of (snd r) = sts_calls_of w ++ [req]) /\
  ((stderr_of (snd r) = stderr_of w /\ file_writes_of (snd r) = file_writes_of w /\
    creds_file (snd r) = creds_file w) \/
   (exists aws_results w0 app role aws_creds,
       run_accounts E w = (Return aws_results, w0) /\
       app ∈ aws_results /\ role ∈ app_roles app /\
       assume_role_with_saml E (request_for E app role) = Some aws_creds /\
       sts_calls_of (snd r) = sts_calls_of w ++ [request_for E app role] /\
       (stderr_of (snd r) = stderr_of w \/
        stderr_of (snd r) = stderr_of w ++ export_lines aws_creds))).
Proof.
  cbn zeta. unfold run. rewrite bind_run.
  pose proof (keeps_printed_run_accounts E w) as Hacc.
  destruct (run_accounts E w) as [[aws_results|c|e] w0] eqn:Haccounts; cbn [snd] in Hacc;
    apply printed_asked, asked_frame in Hacc as (F1 & F2 & F3 & F4 & _);
    [|cbn [fst snd]; rewrite F1, F2, F3, F4; auto 10..].
  rewrite bind_run.
  destruct (run_selection_cases E aws_results w0)
    as [(app & role & w1 & Hrun & Hask & Hin & Hin' & _)|[Hnot Hask]].
  2:{ apply asked_frame in Hask as (G1 & G2 & G3 & G4 & _).
      destruct (run_selection E aws_results w0) as [[selected|c|e] w1];
        [exfalso; apply (Hnot selected); reflexivity|..];
        cbn [fst snd] in *; rewrite G1, G2, G3, G4, F1, F2, F3, F4; auto 10. }
  rewrite Hrun. cbn [fst]. fold (with_selection w1 app role).
  apply asked_frame in Hask as (G1 & G2 & G3 & G4 & _).
  rewrite bind_run, get_sts_creds_sends. cbn zeta.
  cbn [self_role_arn self_idp_arn with_selection stdin trace creds_dir creds_file].
  fold (request_for E app role).
  set (sent := World _ _ _ _ _ _).
  assert (stderr_of sent = stderr_of w /\ file_writes_of sent = file_writes_of w /\
          creds_file sent = creds_file w /\
          sts_calls_of sent = sts_calls_of w ++ [request_for E app role])
    as (S1 & S2 & S3 & S4).
  { unfold sent, stderr_of, file_writes_of, sts_calls_of. cbn [trace creds_file].
    rewrite !omap_app. cbn. rewrite !app_nil_r.
    unfold stderr_of, file_writes_of, sts_calls_of in *.
    rewrite G1, G2, G3, G4, F1, F2, F3, F4. auto. }
  destruct (assume_role_with_saml E (request_for E app role)) as [aws_creds|] eqn:Hsts.
  2:{ cbn [fst snd]. rewrite S1, S2, S3, S4. split; [right; eauto | left; auto]. }
  destruct (run_delivery_effects E aws_creds sent) as (D1 & _ & _ & _ & D2).
  rewrite D1, S4. split; [right; eauto|].
  right. exists aws_results, w0, app, role, aws_creds.
  repeat (split; [assumption || reflexivity|]).
  destruct D2 as [D2|[D2 _]]; rewrite D2, S1; auto.
Qed.

(** ** A whole run with pinned names *)

Lemma printed_stdin (w w' : world) : printed w w' -> stdin w' = stdin w.
Proof. intros [texts ->]. reflexivity. Qed.

(** [run_selection] with both names pinned, whatever the lookups give. *)
Lemma run_selection_pinned (E : Env) (aws_results : list Entitlement)
      (appname rolename : string) (w : world) :
  pinned E "aws_appname" appname -> pinned E "aws_rolename" rolename ->
  run_selection E aws_results w
  = match _get_app_by_name aws_results appname with
    | None =>
        (Exit (Some 1),
         extend w [Stdout ("AWS app " +:+ appname +:+ " not found for this user." +:+ Str.NL)])
    | Some app =>
        match _get_role_by_name app rolename with
        | None =>
            (Exit (Some 1),
             extend w [Stdout ("No roles available to this user." +:+ Str.NL)])
        | Some role => (Return (app, role), with_selection w app role)
        end
    end.
Proof.
  intros Ha Hr. unfold run_selection. rewrite bind_run.
  rewrite (run_select_app_pinned E aws_results appname w Ha).
  destruct (_get_app_by_name aws_results appname) as [app|]; [|reflexivity].
  rewrite bind_run, (run_select_role_pinned E app rolename w Hr).
  destruct (_get_role_by_name app rolename); reflexivity.
Qed.

(** X9. How the parts of [run] compose once the accounts are there and both
    names are pinned and found: the provider ARN of the application and the
    ARN of the role are stored in [self]; one request goes to the federation
    service, with that role ARN, that provider ARN, the assertion obtained
    for the application's link and a duration of 3600 seconds; a refusal of
    the service ends the run in its error with nothing delivered, and its
    answer is what the delivery receives. Without [write_aws_creds = True]
    the run returns after printing the three credentials on standard error. *)
Theorem run_exchanges_the_pinned_selection
    (E : Env) (w w0 : world) (aws_results : list Entitlement)
    (appname rolename : string) (app : Entitlement) (role : Role) :
  run_accounts E w = (Return aws_results, w0) ->
  pinned E "aws_appname" appname -> pinned E "aws_rolename" rolename ->
  _get_app_by_name aws_results appname = Some app ->
  _get_role_by_name app rolename = Some role ->
  let sent := extend (with_selection w0 app role) [StsCall (request_for E app role)] in
  run E w
  = match assume_role_with_saml E (request_for E app role) with
    | None => (Raise ClientError, sent)
    | Some aws_creds => run_delivery E aws_creds sent
    end /\
  (forall aws_creds write,
     assume_role_with_saml E (request_for E app role) = Some aws_creds ->
     conf_dict E !! "write_aws_creds" = Some write -> write <> "True" ->
     run E w = (Return tt, extend sent (Stderr <$> export_lines aws_creds))).
Proof.
  intros Hacc Ha Hr Happ Hrole sent.
  assert (run E w
          = match assume_role_with_saml E (request_for E app role) with
            | None => (Raise ClientError, sent)
            | Some aws_creds => run_delivery E aws_creds sent
            end) as Hrun.
  { unfold run. rewrite bind_run, Hacc, bind_run.
    rewrite (run_selection_pinned E aws_results appname rolename w0 Ha Hr), Happ, Hrole.
    cbn [fst]. rewrite bind_run, get_sts_creds_sends. cbn zeta.
    cbn [self_role_arn self_idp_arn with_selection]. fold (request_for E app role).
    destruct (assume_role_with_saml E (request_for E app role)); reflexivity. }
  split; [exact Hrun|].
  intros aws_creds write Hsts Hw Hne. rewrite Hrun, Hsts, run_delivery_run, Hw.
  rewrite (proj2 (String.eqb_neq _ _) Hne). reflexivity.
Qed.

Lemma run_exchanges_the_pinned_selection_witness :
  let E := Sample.env (Sample.conf false "False" "role" "Prod" "Admin") [] [Sample.prod] in
  run E (Sample.start ["unread"])
  = (Return tt,
     World ["unread"]
           [Stdout ("Authentication Success! Calling Gimme-Creds Server..." +:+ Str.NL);
            StsCall {| RoleArn := Some "arn:aws:iam::111:role/Admin";
                       PrincipalArn := Some Sample.idp_111;
                       SAMLAssertion := "PHNhbWw+"; DurationSeconds := 3600 |};
            Stderr ("export AWS_ACCESS_KEY_ID=ASIAEXAMPLE" +:+ Str.NL);
            Stderr ("export AWS_SECRET_ACCESS_KEY=secret" +:+ Str.NL);
            Stderr ("export AWS_SESSION_TOKEN=token" +:+ Str.NL)]
           true None (Some Sample.idp_111) (Some "arn:aws:iam::111:role/Admin")).
Proof.
  intros E.
  apply (proj2 (run_exchanges_the_pinned_selection
                  E (Sample.start ["unread"])
                  (extend (Sample.start ["unread"])
                          [Stdout ("Authentication Success! Calling Gimme-Creds Server..."
                                   +:+ Str.NL)])
                  [Sample.prod] "Prod" "Admin" Sample.prod Sample.admin_111
                  ltac:(reflexivity)
                  ltac:(split; [reflexivity | discriminate])
                  ltac:(split; [reflexivity | discriminate])
                  ltac:(reflexivity) ltac:(reflexivity))
               Sample.creds "False");
    [reflexivity | reflexivity | discriminate].
Defined.

(** X10. Once the first part of [run] has returned the accounts, a run with
    both names pinned reads nothing more from standard input, however it
    goes on (a name that is not found, a refusal of the federation service, an
    error or a success of the delivery): the lines that the first part left
    are still there at the end. *)
Theorem pinned_run_reads_no_input
    (E : Env) (w w0 : world) (aws_results : list Entitlement) (appname rolename : string) :
  run_accounts E w = (Return aws_results, w0) ->
  pinned E "aws_appname" appname -> pinned E "aws_rolename" rolename ->
  stdin (snd (run E w)) = stdin w0.
Proof.
  intros Haccounts Ha Hr. unfold run. rewrite bind_run, Haccounts.
  assert (stdin w0 = stdin w0) as Hacc by reflexivity.
  rewrite bind_run, (run_selection_pinned E aws_results appname rolename w0 Ha Hr).
  destruct (_get_app_by_name aws_results appname) as [app|]; [|exact Hacc].
  destruct (_get_role_by_name app rolename) as [role|]; [|exact Hacc].
  cbn [fst]. rewrite bind_run, get_sts_creds_sends. cbn zeta.
  destruct (assume_role_with_saml E _) as [aws_creds|]; [|exact Hacc].
  destruct (run_delivery_effects E aws_creds
              (World (stdin (with_selection w0 app role))
                     (trace (with_selection w0 app role)
                      ++ [StsCall {| RoleArn := self_role_arn (with_selection w0 app role);
                                     PrincipalArn := self_idp_arn (with_selection w0 app role);
                                     SAMLAssertion :=
                                       get_saml_response E (appLink (app_links app));
                                     DurationSeconds := 3600 |}])
                     (creds_dir (with_selection w0 app role))
                     (creds_file (with_selection w0 app role))
                     (self_idp_arn (with_selection w0 app role))
                     (self_role_arn (with_selection w0 app role))))
    as (_ & Hin & _).
  rewrite Hin. exact Hacc.
Qed.

Lemma pinned_run_reads_no_input_witness :
  stdin (snd (run (Sample.env (Sample.conf false "True" "role" "Prod" "Nope") [] [Sample.prod])
                  (Sample.start ["0"; "1"])))
  = ["0"; "1"].
Proof.
  apply (pinned_run_reads_no_input
           _ (Sample.start ["0"; "1"])
           (extend (Sample.start ["0"; "1"])
                   [Stdout ("Authentication Success! Calling Gimme-Creds Server..." +:+ Str.NL)])
           [Sample.prod] "Prod" "Nope");
    [reflexivity | split; [reflexivity | discriminate] | split; [reflexivity | discriminate]].
Defined.

(** ** The prompt: roles, the end of input, and the numbers of the menu *)

Section Prompt.

Lemma choose_role_nonempty (app_info : Entitlement) (w : world) :
  app_roles app_info <> [] ->
  _choose_role app_info w
  = (selection <- _get_user_int_selection 0 (Z.of_nat (length (app_roles app_info)) - 1)
                                          max_retries_default ;;
     match selection with
     | None => print "You made an invalid selection" ;;; exit (Some 1)
     | Some selection =>
         role <- lift (py_index (app_roles app_info) selection) ;; ret (Some role)
     end) (extend w (menu "Pick a role:" (role_strs app_info))).
Proof.
  intros Hne. unfold _choose_role.
  destruct (role_strs app_info) as [|s strs] eqn:Hs.
  { unfold role_strs in Hs. destruct (app_roles app_info); [congruence | discriminate Hs]. }
  unfold bind at 1, print at 1, emit. unfold bind at 1. rewrite print_all_trace.
  unfold extend, menu. cbn [stdin trace creds_dir creds_file self_idp_arn self_role_arn].
  rewrite <- app_assoc. reflexivity.
Qed.

(** What an integer answer does to a menu of [entries]. *)
Lemma selection_answer {A} (entries : list A) (bad : list string) (line : string) (n : Z)
      (rest : list string) (w : world) :
  not_integers bad -> (length bad < max_retries_default)%nat -> PyInt.parse line = Some n ->
  stdin w = bad ++ line :: rest ->
  (selection <- _get_user_int_selection 0 (Z.of_nat (length entries) - 1) max_retries_default ;;
   match selection with
   | None => print "You made an invalid selection" ;;; exit (Some 1)
   | Some selection => entry <- lift (py_index entries selection) ;; ret (Some entry)
   end) w
  = match (if 0 <=? n then entries !! Z.to_nat n else None) with
    | Some entry =>
        (Return (Some entry), with_stdin (extend w (refusals (length bad) ++ [question])) rest)
    | None =>
        (Exit (Some 1),
         with_stdin (extend w (refusals (length bad)
                               ++ [question;
                                   Stdout ("You made an invalid selection" +:+ Str.NL)])) rest)
    end.
Proof.
  intros Hbad Hlen Hline Hin. rewrite bind_run.
  rewrite (get_user_int_selection_integer 0 _ bad line n rest w Hbad Hlen Hline Hin).
  destruct (0 <=? n) eqn:H0.
  - apply Z.leb_le in H0. cbn [andb].
    destruct (entries !! Z.to_nat n) as [entry|] eqn:Hl.
    + pose proof (lookup_lt_Some _ _ _ Hl) as Hlt.
      rewrite (proj2 (Z.leb_le _ _)) by lia.
      rewrite bind_run, (py_index_spec entries n H0), Hl. reflexivity.
    + apply lookup_ge_None in Hl. rewrite (proj2 (Z.leb_gt _ _)) by lia.
      unfold bind, print, emit, exit, with_stdin, extend. cbn.
      rewrite <- !app_assoc. reflexivity.
  - cbn [andb]. unfold bind, print, emit, exit, with_stdin, extend. cbn.
    rewrite <- !app_assoc. reflexivity.
Qed.

(** The loop when the input ends before an integer was read. *)
Lemma read_selection_eof (retries : nat) (bad : list string) (w : world) :
  not_integers bad -> (length bad < retries)%nat -> stdin w = bad ->
  read_selection retries w
  = (Raise EOFError, with_stdin (extend w (refusals (length bad) ++ [question])) []).
Proof.
  revert retries w. induction bad as [|b bad IH]; intros retries w Hbad Hlen Hin.
  - destruct retries as [|retries]; [cbn in Hlen; lia|].
    cbn [read_selection]. unfold bind, input, emit, bind. cbn. rewrite Hin. reflexivity.
  - destruct retries as [|retries]; [cbn in Hlen; lia|].
    apply Forall_cons in Hbad as [Hb Hbad].
    cbn [read_selection]. unfold bind at 1, input, emit, bind. cbn.
    rewrite Hin, Hb. unfold bind, print, emit. cbn.
    erewrite IH; [| exact Hbad | cbn in Hlen; lia | reflexivity].
    unfold with_stdin, extend. cbn. rewrite <- !app_assoc. reflexivity.
Qed.

End Prompt.

(** X11. The role prompt. An application without roles is not asked about:
    [_choose_role] returns [None] at once, and [run], with no role pinned,
    ends with status 1 after [No roles available to this user.]. With roles,
    the numbered names are printed and the answer is read as for the
    applications: lines that are not integers are asked again, the first
    integer selects the role of that index or, out of range, ends the run
    with status 1. (For lines typed in ASCII characters, on which
    [PyInt.parse] is [int].) *)
Theorem choose_role_selection (E : Env) (app_info : Entitlement) (w : world) :
  (app_roles app_info = [] ->
   _choose_role app_info w = (Return None, w) /\
   (truthy (conf_dict E !! "aws_rolename") = false ->
    run_select_role E app_info w
    = (Exit (Some 1), extend w [Stdout ("No roles available to this user." +:+ Str.NL)]))) /\
  (app_roles app_info <> [] ->
   forall (bad : list string) (line : string) (n : Z) (rest : list string),
     ascii_lines bad -> Str.ascii_only line = true ->
     not_integers bad -> (length bad < 5)%nat -> PyInt.parse line = Some n ->
     stdin w = bad ++ line :: rest ->
     let asked := extend w (menu "Pick a role:" (role_strs app_info)) in
     _choose_role app_info w
     = match (if 0 <=? n then app_roles app_info !! Z.to_nat n else None) with
       | Some role =>
           (Return (Some role),
            with_stdin (extend asked (refusals (length bad) ++ [question])) rest)
       | None =>
           (Exit (Some 1),
            with_stdin (extend asked
                          (refusals (length bad)
                           ++ [question; Stdout ("You made an invalid selection" +:+ Str.NL)]))
                       rest)
       end).
Proof.
  split.
  - intros Hnil.
    assert (_choose_role app_info w = (Return None, w)) as Hnone
        by (unfold _choose_role, role_strs; rewrite Hnil; reflexivity).
    split; [exact Hnone|]. intros Ht. unfold run_select_role. rewrite bind_run, Ht.
    cbn [negb]. rewrite Hnone. reflexivity.
  - intros Hne bad line n rest _ _ Hbad Hlen Hline Hin asked.
    rewrite (choose_role_nonempty app_info w Hne). fold asked.
    apply (selection_answer (app_roles app_info) bad line n rest asked Hbad Hlen Hline Hin).
Qed.

Lemma choose_role_selection_witness :
  let E := Sample.env (Sample.conf false "False" "role" "Prod" EmptyString) [] [] in
  let no_roles := {| app_id := "0oa4"; app_name := "Empty";
                     app_identityProviderArn := Sample.idp_111;
                     app_roles := []; app_links := Sample.links |} in
  run_select_role E no_roles (Sample.start ["0"])
  = (Exit (Some 1),
     World ["0"] [Stdout ("No roles available to this user." +:+ Str.NL)] true None None None) /\
  _choose_role Sample.prod_again (Sample.start ["one"; "1"; "2"])
  = (Return (Some Sample.admin_111),
     World ["2"] (menu "Pick a role:" ["[0] Reader"; "[1] Admin"; "[2] Admin"]
                  ++ [question; complaint; question]) true None None None).
Proof.
  intros E no_roles. split.
  - apply (proj1 (choose_role_selection E no_roles (Sample.start ["0"]))); reflexivity.
  - apply (proj2 (choose_role_selection E Sample.prod_again (Sample.start ["one"; "1"; "2"]))
                 ltac:(discriminate) ["one"] "1" 1 ["2"]);
      [repeat constructor | reflexivity | repeat constructor | cbn; lia
      | reflexivity | reflexivity].
Defined.

(** X12. When standard input ends before an integer was read and before the
    budget of questions is used up, [_get_user_int_selection] does not return
    [None]: the [EOFError] of [input] is not caught, and the process ends
    with it (status 1) after the question that got no answer. (For lines
    typed in ASCII characters, on which [PyInt.parse] is [int].) *)
Theorem selection_ends_with_input
    (min_int max_int : Z) (max_retries : nat) (bad : list string) (w : world) :
  ascii_lines bad ->
  not_integers bad -> (length bad < max_retries)%nat -> stdin w = bad ->
  _get_user_int_selection min_int max_int max_retries w
  = (Raise EOFError, with_stdin (extend w (refusals (length bad) ++ [question])) []) /\
  exit_status (fst (_get_user_int_selection min_int max_int max_retries w)) = 1.
Proof.
  intros _ Hbad Hlen Hin.
  assert (_get_user_int_selection min_int max_int max_retries w
          = (Raise EOFError, with_stdin (extend w (refusals (length bad) ++ [question])) []))
    as Hrun
      by (unfold _get_user_int_selection; rewrite bind_run;
          rewrite (read_selection_eof max_retries bad w Hbad Hlen Hin); reflexivity).
  split; [exact Hrun | rewrite Hrun; reflexivity].
Qed.

Lemma selection_ends_with_input_witness :
  _get_user_int_selection 0 1 5 (Sample.start ["x"; "y"])
  = (Raise EOFError,
     World [] [question; complaint; question; complaint; question] true None None None).
Proof.
  apply (selection_ends_with_input 0 1 5 ["x"; "y"] (Sample.start ["x"; "y"]));
    [repeat constructor | repeat constructor | cbn; lia | reflexivity].
Defined.

(** ** The numbers of the menu are read back *)

Section MenuNumbers.

Lemma rev_app_rev_app (s t u : string) :
  String.rev_app (String.rev_app s t) u = String.rev_app t (s +:+ u).
Proof.
  revert t u. induction s as [|c s IH]; intros t u; [reflexivity|].
  cbn [String.rev_app]. rewrite IH. reflexivity.
Qed.

Lemma rev_rev (s : string) : String.rev (String.rev s) = s.
Proof. unfold String.rev. rewrite rev_app_rev_app. cbn. apply app_empty_r. Qed.

(** A string of digits has no white space to strip, at either end. *)
Lemma lstrip_rev_app_digits (d : Decimal.uint) (t : string) :
  PyInt.lstrip t = t ->
  PyInt.lstrip (String.rev_app (NilEmpty.string_of_uint d) t)
  = String.rev_app (NilEmpty.string_of_uint d) t.
Proof.
  revert t. induction d; intros t Ht; cbn [NilEmpty.string_of_uint String.rev_app];
    [exact Ht | apply IHd; cbn; reflexivity ..].
Qed.

Lemma strip_digits (d : Decimal.uint) :
  PyInt.strip (NilEmpty.string_of_uint d) = NilEmpty.string_of_uint d.
Proof.
  unfold PyInt.strip.
  assert (PyInt.lstrip (NilEmpty.string_of_uint d) = NilEmpty.string_of_uint d) as ->
      by (destruct d; reflexivity).
  unfold String.rev at 2. rewrite lstrip_rev_app_digits by reflexivity.
  apply rev_rev.
Qed.

(** The digits are read from the left, as [Nat.of_uint_acc] reads them. *)
Lemma digits_of_uint (d : Decimal.uint) (acc : nat) (after_digit : bool) :
  PyInt.digits (Z.of_nat acc) after_digit (NilEmpty.string_of_uint d)
  = match d with
    | Decimal.Nil => if after_digit then Some (Z.of_nat acc) else None
    | _ => Some (Z.of_nat (Nat.of_uint_acc d acc))
    end.
Proof.
  revert acc after_digit.
  induction d; intros acc after_digit; [reflexivity|..];
    cbn [NilEmpty.string_of_uint PyInt.digits Nat.of_uint_acc];
    match goal with
    | |- context [PyInt.digit ?c] =>
        let v := eval vm_compute in (PyInt.digit c) in change (PyInt.digit c) with v
    end;
    cbv iota beta;
    match goal with
    | |- PyInt.digits ?z true _ = _ =>
        match goal with
        | |- _ = Some (Z.of_nat (Nat.of_uint_acc _ ?a)) =>
            replace z with (Z.of_nat a) by (rewrite ?Nat.tail_mul_spec; lia)
        end
    end;
    rewrite IHd; destruct d; reflexivity.
Qed.

Lemma parse_uint (u : Decimal.uint) :
  u <> Decimal.Nil ->
  PyInt.parse (NilEmpty.string_of_uint u) = Some (Z.of_nat (Nat.of_uint u)).
Proof.
  intros Hu. unfold PyInt.parse. rewrite strip_digits.
  destruct u; [congruence|..]; cbn [NilEmpty.string_of_uint];
    cbn -[PyInt.digits NilEmpty.string_of_uint Nat.of_uint];
    match goal with
    | |- PyInt.digits _ _ _ = Some (Z.of_nat (Nat.of_uint ?u)) =>
        exact (digits_of_uint u 0 false)
    end.
Qed.

Lemma parse_of_nat (n : nat) : PyInt.parse (Str.of_nat n) = Some (Z.of_nat n).
Proof.
  unfold Str.of_nat, NilZero.string_of_uint.
  rewrite <- (DecimalNat.Unsigned.of_to n) at 2.
  destruct (Nat.to_uint n) eqn:Hd; [reflexivity|..]; apply parse_uint; discriminate.
Qed.

End MenuNumbers.

(** X13. The numbers of the menu are read back. The line of the menu for
    the entry of index [i] is [[i] name], [int] reads the decimal writing of
    [i] as [i], and answering the question with the number printed in front
    of an application, or of a role, selects that application, or that role,
    at the first question. *)
Theorem menu_number_selects_its_entry :
  (forall i : nat, PyInt.parse (Str.of_nat i) = Some (Z.of_nat i)) /\
  (forall (aws_info : list Entitlement) (i : nat) (app : Entitlement)
          (rest : list string) (w : world),
     aws_info !! i = Some app -> stdin w = Str.of_nat i :: rest ->
     app_strs aws_info !! i = Some ("[" +:+ Str.of_nat i +:+ "] " +:+ app_name app) /\
     _choose_app aws_info w
     = (Return (Some app),
        with_stdin (extend w (menu "Pick an app:" (app_strs aws_info) ++ [question])) rest)) /\
  (forall (app_info : Entitlement) (i : nat) (role : Role) (rest : list string) (w : world),
     app_roles app_info !! i = Some role -> stdin w = Str.of_nat i :: rest ->
     role_strs app_info !! i = Some ("[" +:+ Str.of_nat i +:+ "] " +:+ role_name role) /\
     _choose_role app_info w
     = (Return (Some role),
        with_stdin (extend w (menu "Pick a role:" (role_strs app_info) ++ [question])) rest)).
Proof.
  split; [exact parse_of_nat|]. split.
  - intros aws_info i app rest w Hi Hin. split.
    + unfold app_strs. rewrite list_lookup_imap, Hi. reflexivity.
    + assert (aws_info <> []) as Hne by (intros ->; discriminate Hi).
      rewrite (choose_app_nonempty aws_info w Hne).
      rewrite (selection_answer aws_info [] (Str.of_nat i) (Z.of_nat i) rest
                 (extend w (menu "Pick an app:" (app_strs aws_info))));
        [| constructor | cbn; unfold max_retries_default; lia | apply parse_of_nat | exact Hin].
      rewrite (proj2 (Z.leb_le 0 (Z.of_nat i))) by lia. rewrite Nat2Z.id, Hi.
      rewrite extend_extend. reflexivity.
  - intros app_info i role rest w Hi Hin. split.
    + unfold role_strs. rewrite list_lookup_imap, Hi. reflexivity.
    + assert (app_roles app_info <> []) as Hne by (intros Hnil; rewrite Hnil in Hi; discriminate Hi).
      rewrite (choose_role_nonempty app_info w Hne).
      rewrite (selection_answer (app_roles app_info) [] (Str.of_nat i) (Z.of_nat i) rest
                 (extend w (menu "Pick a role:" (role_strs app_info))));
        [| constructor | cbn; unfold max_retries_default; lia | apply parse_of_nat | exact Hin].
      rewrite (proj2 (Z.leb_le 0 (Z.of_nat i))) by lia. rewrite Nat2Z.id, Hi.
      rewrite extend_extend. reflexivity.
Qed.

Lemma menu_number_selects_its_entry_witness :
  PyInt.parse (Str.of_nat 12) = Some 12 /\
  _choose_app [Sample.dev; Sample.prod] (Sample.start ["1"; "0"])
  = (Return (Some Sample.prod),
     World ["0"] (menu "Pick an app:" ["[0] Dev"; "[1] Prod"] ++ [question])
           true None None None).
Proof.
  destruct menu_number_selects_its_entry as (Hparse & Happ & _).
  split; [exact (Hparse 12%nat)|].
  exact (proj2 (Happ [Sample.dev; Sample.prod] 1%nat Sample.prod ["0"]
                     (Sample.start ["1"; "0"]) eq_refl eq_refl)).
Defined.

(** ** More on the credential file *)

Section MoreWrites.

Lemma ordinary_write (profile a s t : string) (w : world) :
  profile <> EmptyString -> profile <> "DEFAULT" ->
  exists c,
    _write_aws_creds profile a s t w
    = (Return tt,
       World (stdin w) (trace w ++ made_dir w ++ [WriteFile c]) true (Some c)
             (self_idp_arn w) (self_role_arn w)) /\
    with_credentials (stored_config w) profile a s t = inr c /\
    profile_holds c profile a s t /\
    (forall other, other <> profile ->
       ConfigParser.get other (ConfigParser.sections c)
       = ConfigParser.get other (ConfigParser.sections (stored_config w))) /\
    ConfigParser.defaults c = ConfigParser.defaults (stored_config w).
Proof.
  intros H1 H2.
  destruct (with_credentials_ordinary (stored_config w) profile a s t H1 H2)
    as (c & options0 & Hw & _ & Hd & _ & Hg & Hother & _).
  exists c. rewrite write_aws_creds_run. cbn zeta. rewrite Hw.
  split; [reflexivity|]. split; [reflexivity|]. split; [|auto].
  destruct (credentials_in_get options0 a s t) as (Ga & Gs & Gt & _).
  exists (credentials_in options0 a s t). auto.
Qed.

End MoreWrites.

(** X14. The first write on a machine without credential file: the
    directory is made when it is missing (and only then), and the file that is
    written holds one section, named after the profile, with the three
    credential options in the order of the source and nothing else. *)
Theorem first_write_creates_the_file (profile a s t : string) (w : world) :
  profile <> EmptyString -> profile <> "DEFAULT" -> creds_file w = None ->
  let c := ConfigParser.Parser
             [] [(profile, [("aws_access_key_id", a); ("aws_secret_access_key", s);
                            ("aws_session_token", t)])] in
  _write_aws_creds profile a s t w
  = (Return tt,
     World (stdin w) (trace w ++ made_dir w ++ [WriteFile c]) true (Some c)
           (self_idp_arn w) (self_role_arn w)).
Proof.
  intros H1 H2 Hnone c. rewrite write_aws_creds_run. cbn zeta.
  assert (with_credentials (stored_config w) profile a s t = inr c) as ->; [|reflexivity].
  unfold stored_config. rewrite Hnone.
  unfold with_credentials, ConfigParser.has_section, ConfigParser.add_section,
    ConfigParser.has_section. cbn [ConfigParser.sections ConfigParser.empty ConfigParser.get negb].
  rewrite (proj2 (String.eqb_neq profile ConfigParser.default_section) H2).
  cbn [ConfigParser.defaults app].
  unfold set_credentials.
  assert (forall options : ConfigParser.alist string,
             ConfigParser.get profile [(profile, options)] = Some options) as Hget
      by (intros; cbn; rewrite String.eqb_refl; reflexivity).
  assert (forall options options' : ConfigParser.alist string,
             ConfigParser.put profile options' [(profile, options)] = [(profile, options')])
    as Hput by (intros; cbn; rewrite String.eqb_refl; reflexivity).
  rewrite (set_ordinary _ profile _ a [] H1 H2) by apply Hget.
  cbn [ConfigParser.sections ConfigParser.defaults]. rewrite Hput.
  erewrite (set_ordinary _ profile _ s) by (try apply Hget; assumption).
  cbn [ConfigParser.sections ConfigParser.defaults]. rewrite Hput.
  erewrite (set_ordinary _ profile _ t) by (try apply Hget; assumption).
  cbn [ConfigParser.sections ConfigParser.defaults]. rewrite Hput.
  reflexivity.
Qed.

Lemma first_write_creates_the_file_witness :
  _write_aws_creds "Admin" "ASIAEXAMPLE" "secret" "token" (init_world [] false None)
  = (Return tt,
     let c := ConfigParser.Parser
                [] [("Admin", [("aws_access_key_id", "ASIAEXAMPLE");
                               ("aws_secret_access_key", "secret");
                               ("aws_session_token", "token")])] in
     World [] [MakeDirs; WriteFile c] true (Some c) None None).
Proof.
  apply (first_write_creates_the_file "Admin" "ASIAEXAMPLE" "secret" "token"
           (init_world [] false None)); [discriminate | discriminate | reflexivity].
Defined.

(** X15. Writes to the credential file compose, for profile names,
    credentials and a credential file that the text of the file holds as they
    are. The text that the first write leaves is read back by the second as
    the parser that was written. On one profile the last write wins: after
    two writes the section holds the credentials of the second. On two
    different profiles the writes do not interfere: after a write to one and
    a write to the other, each section holds its own credentials. *)
Theorem writes_compose (p q a s t a' s' t' : string) (w : world) :
  plain_write p a s t -> plain_write q a' s' t' -> plain_config (stored_config w) ->
  exists w1 w2 c1 c,
    _write_aws_creds p a s t w = (Return tt, w1) /\
    creds_file w1 = Some c1 /\
    ConfigParser.read (ConfigParser.write c1) = inr c1 /\
    _write_aws_creds q a' s' t' w1 = (Return tt, w2) /\
    creds_file w2 = Some c /\
    ConfigParser.read (ConfigParser.write c) = inr c /\
    profile_holds c q a' s' t' /\
    (p <> q -> profile_holds c p a s t).
Proof.
  intros Hp Hq Hstored.
  assert (forall n x y z, plain_write n x y z -> n <> EmptyString /\ n <> "DEFAULT") as Hname.
  { intros n x y z [Hn _]. unfold ConfigParser.plain_section in Hn.
    apply andb_true_iff in Hn as [Hn _].
    apply andb_true_iff in Hn as [Hne Hnd]. apply negb_true_iff in Hne, Hnd.
    split; apply String.eqb_neq; assumption. }
  destruct (Hname _ _ _ _ Hp) as [Hp1 Hp2]. destruct (Hname _ _ _ _ Hq) as [Hq1 Hq2].
  destruct (ordinary_write p a s t w Hp1 Hp2) as (c1 & Hrun1 & Hwith1 & Hholds1 & _).
  set (w1 := World (stdin w) (trace w ++ made_dir w ++ [WriteFile c1]) true (Some c1)
                   (self_idp_arn w) (self_role_arn w)) in *.
  pose proof (with_credentials_plain _ _ _ _ _ _ Hp Hstored Hwith1) as Hplain1.
  destruct (ordinary_write q a' s' t' w1 Hq1 Hq2)
    as (c2 & Hrun2 & Hwith2 & Hholds2 & Hother & _).
  pose proof (with_credentials_plain _ _ _ _ _ _ Hq Hplain1 Hwith2) as Hplain2.
  eexists w1, _, c1, c2. split; [exact Hrun1|]. split; [reflexivity|].
  split; [exact (read_write c1 Hplain1)|]. split; [exact Hrun2|]. split; [reflexivity|].
  split; [exact (read_write c2 Hplain2)|].
  split; [exact Hholds2|]. intros Hne.
  destruct Hholds1 as (options & Hg & Hvalues). exists options. split; [|exact Hvalues].
  rewrite (Hother p) by congruence. exact Hg.
Qed.

Lemma writes_compose_witness :
  let w := init_world [] true (Some Sample.stored) in
  exists w1 w2 c,
    _write_aws_creds "work" "ASIAONE" "secret1" "token1" w = (Return tt, w1) /\
    _write_aws_creds "work" "ASIATWO" "secret2" "token2" w1 = (Return tt, w2) /\
    creds_file w2 = Some c /\
    ConfigParser.read (ConfigParser.write c) = inr c /\
    profile_holds c "work" "ASIATWO" "secret2" "token2".
Proof.
  intros w.
  destruct (writes_compose "work" "work" "ASIAONE" "secret1" "token1"
                           "ASIATWO" "secret2" "token2" w)
    as (w1 & w2 & c1 & c & H1 & _ & _ & H2 & Hc & Hread & Hq & _).
  - repeat split.
  - repeat split.
  - exact plain_stored.
  - exists w1, w2, c. auto.
Defined.

(** ** The names of the credential file stay distinct *)


(** X16. [_write_aws_creds] keeps the names of the credential file
    distinct. If no section name and no option name occurs twice in the file
    it starts from, none does in the file it leaves, for every profile name
    and whether the write succeeds or not; and the empty parser it starts
    from when there is no file has distinct names. *)
Theorem write_keeps_names_distinct (profile a s t : string) (w : world) :
  distinct_names (stored_config w) ->
  distinct_names (stored_config (snd (_write_aws_creds profile a s t w))) /\
  distinct_names ConfigParser.empty.
Proof.
  intros Hw. split.
  - rewrite write_aws_creds_run. cbn zeta.
    destruct (with_credentials (stored_config w) profile a s t) as [e|c] eqn:Hc.
    + exact Hw.
    + exact (with_credentials_distinct _ _ _ _ _ _ Hc Hw).
  - repeat split; constructor.
Qed.

Lemma write_keeps_names_distinct_witness :
  distinct_names Sample.stored /\
  distinct_names
    (stored_config (snd (_write_aws_creds "work" "ASIAEXAMPLE" "secret" "token"
                                          (init_world [] true (Some Sample.stored))))).
Proof.
  assert (distinct_names Sample.stored) as Hs.
  { split; [|split].
    - apply (bool_decide_unpack _). vm_compute. exact I.
    - apply (bool_decide_unpack _). vm_compute. exact I.
    - repeat constructor; apply (bool_decide_unpack _); vm_compute; exact I. }
  split; [exact Hs|].
  exact (proj1 (write_keeps_names_distinct "work" "ASIAEXAMPLE" "secret" "token"
                  (init_world [] true (Some Sample.stored)) Hs)).
Defined.

(** ** Delivery to the credential file *)




(** ** The substitution works line by line *)

Section Lines.

(** A literal without line feed is not a prefix across a line feed. *)
Lemma prefix_across_line (p x rest : string) :
  Str.has_char Str.LF p = false ->
  String.prefix p (x +:+ String Str.LF rest) = String.prefix p x.
Proof.
  revert x. induction p as [|c p IH]; intros x Hp.
  - destruct x; reflexivity.
  - cbn [Str.has_char] in Hp. apply orb_false_iff in Hp as [Hc Hp].
    destruct x as [|d x].
    + rewrite app_empty_l. cbn. destruct (ascii_dec c Str.LF) as [->|]; [|reflexivity].
      rewrite Ascii.eqb_refl in Hc. discriminate.
    + rewrite app_cons. cbn. destruct (ascii_dec c d); [apply IH, Hp | reflexivity].
Qed.

Lemma scan_line (repl a b : string) (in_match : bool) :
  Re.scan repl in_match (a +:+ String Str.LF b)
  = Re.scan repl in_match a +:+ String Str.LF (Re.scan repl false b).
Proof.
  revert in_match. induction a as [|c a IH]; intros in_match.
  - rewrite app_empty_l. cbn [Re.scan]. destruct in_match; reflexivity.
  - rewrite app_cons. cbn [Re.scan].
    replace (String.prefix Re.marker (String c (a +:+ String Str.LF b)))
      with (String.prefix Re.marker (String c a))
      by (symmetry; apply (prefix_across_line Re.marker (String c a) b); reflexivity).
    destruct in_match.
    + destruct (Str.is_LF c); rewrite IH; reflexivity.
    + destruct (String.prefix Re.marker (String c a)); rewrite IH; [|reflexivity].
      rewrite app_assoc_str. reflexivity.
Qed.

End Lines.

(** X18. The derivation of the role ARN treats the lines of the provider
    reference one by one: the ARN derived from two texts joined by a line
    feed is the ARN derived from the first, a line feed, and the ARN derived
    from the second. (For a role name without backslash.) *)
Theorem role_arn_line_by_line (before after role : string) :
  Re.plain_template (":role/" +:+ role) = true ->
  derive_role_arn (before +:+ String Str.LF after) role
  = derive_role_arn before role +:+ String Str.LF (derive_role_arn after role).
Proof. intros _. apply scan_line. Qed.

Lemma role_arn_line_by_line_witness :
  derive_role_arn (Sample.idp_111 +:+ String Str.LF Sample.idp_oidc) "Admin"
  = "arn:aws:iam::111:role/Admin" +:+ String Str.LF Sample.idp_oidc.
Proof.
  exact (role_arn_line_by_line Sample.idp_111 Sample.idp_oidc "Admin" eq_refl).
Defined.

(** ** No partial selection *)

(** X19. The two ARNs of [self] are stored together or not at all. Either
    the selection returns an application and a role and both ARNs are set to
    theirs, or it ends otherwise (exit or exception) and both are as they were
    before, as is everything but standard output and the lines read. *)
Theorem selection_all_or_nothing (E : Env) (aws_results : list Entitlement) (w : world) :
  let r := run_selection E aws_results w in
  (exists app role w1,
      r = (Return (app, role), with_selection w1 app role) /\ asked w w1) \/
  ((forall selected, fst r <> Return selected) /\
   self_idp_arn (snd r) = self_idp_arn w /\ self_role_arn (snd r) = self_role_arn w /\
   asked w (snd r)).
Proof.
  cbn zeta.
  destruct (run_selection_cases E aws_results w)
    as [(app & role & w1 & Hrun & Hask & _)|[Hnot Hask]].
  - left. exists app, role, w1. split; [exact Hrun | exact Hask].
  - right. split; [exact Hnot|].
    destruct (asked_frame _ _ Hask) as (_ & _ & _ & _ & _ & Hi & Hr). auto.
Qed.

(** ** The roles of the catalog carry derived ARNs *)

Section Derived.

Lemma new_app_entry_derived (app : RawApp) (entry : Entitlement) :
  new_app_entry app = inr entry -> derived_roles entry.
Proof.
  unfold new_app_entry, derived_roles.
  destruct (raw_appLinks app); [discriminate|]. destruct (raw_logo app); [discriminate|].
  intros [= <-]. cbn. apply Forall_fmap, Forall_forall. intros role _. reflexivity.
Qed.

Lemma app_list_of_derived (final_result : list RawApp) (app_list : list Entitlement) :
  app_list_of final_result = inr app_list -> Forall derived_roles app_list.
Proof.
  revert app_list. induction final_result as [|app rest IH]; intros app_list H.
  - injection H as <-. constructor.
  - cbn [app_list_of] in H. destruct (String.eqb (raw_name app) "amazon_aws"); [|exact (IH _ H)].
    destruct (new_app_entry app) as [e|entry] eqn:He; [discriminate|].
    destruct (app_list_of rest) as [e|l]; [discriminate|].
    injection H as <-. constructor; [exact (new_app_entry_derived _ _ He) | apply IH; reflexivity].
Qed.

(** What [_get_aws_account_info] returns was built from the records. *)
Lemma get_aws_account_info_built (E : Env) (okta_org_url okta_api_key username : string)
      (w w' : world) (app_list : list Entitlement) :
  _get_aws_account_info E okta_org_url okta_api_key username w = (Return app_list, w') ->
  exists final_result, app_list_of final_result = inr app_list.
Proof.
  unfold _get_aws_account_info. rewrite bind_run.
  destruct (users_get E) as [e|user]; [rewrite okta_error_run; discriminate|].
  cbn [ret]. rewrite bind_run.
  assert (forall e w0 k,
             (final_result <- @okta_error (list RawApp)
                                ("Error: No applications found for " +:+ username) e ;; k final_result)
               w0 <> (Return app_list, w')) as Hexit
      by (intros e w0 k; rewrite bind_run, okta_error_run; discriminate).
  destruct (apps_first E) as [e|first].
  { cbn [ret]. intros H. exfalso. exact (Hexit _ _ _ H). }
  rewrite next_pages_trace.
  destruct (collect (apps_next E)) as [e|more].
  { intros H. exfalso. exact (Hexit _ _ _ H). }
  rewrite bind_run, bind_run. cbn [print emit fst snd]. cbn [ret]. rewrite bind_run.
  destruct (app_list_of (first ++ more)) as [e|l] eqn:Hl; [discriminate|].
  cbn [lift ret]. destruct l as [|entry l]; [discriminate|].
  intros [= <- _]. eauto.
Qed.

End Derived.

(** X20. The two ARNs sent to the federation service belong together. With
    a selection, pinned or made at the prompt, from the list that
    [_get_aws_account_info] returned (for records whose role names hold no
    backslash), the provider ARN that [run] stores in [self] is that of the
    selected application and the role ARN it stores is the one derived from
    that provider ARN and the name of the selected role. *)
Theorem catalog_roles_are_derived
    (E : Env) (okta_org_url okta_api_key username : string)
    (w w' : world) (app_list : list Entitlement) :
  (forall first more, apps_first E = inr first -> collect (apps_next E) = inr more ->
                      Forall plain_roles (aws_records (first ++ more))) ->
  _get_aws_account_info E okta_org_url okta_api_key username w = (Return app_list, w') ->
  forall E' w1 w2 app role,
    run_selection E' app_list w1 = (Return (app, role), w2) ->
    app ∈ app_list /\
    self_idp_arn w2 = Some (app_identityProviderArn app) /\
    self_role_arn w2
    = Some (derive_role_arn (app_identityProviderArn app) (role_name role)).
Proof.
  intros _ H. destruct (get_aws_account_info_built _ _ _ _ _ _ _ H) as [final_result Hl].
  pose proof (app_list_of_derived _ _ Hl) as Hd.
  intros E' w1 w2 app role Hsel.
  destruct (run_selection_cases E' app_list w1)
    as [(app' & role' & w3 & Hrun & _ & Hin & Hin' & _)|[Hnot _]].
  - rewrite Hrun in Hsel. injection Hsel as <- <- <-.
    split; [exact Hin|]. split; [reflexivity|]. cbn.
    rewrite Forall_forall in Hd. specialize (Hd app' Hin). unfold derived_roles in Hd.
    rewrite Forall_forall in Hd. rewrite (Hd role' Hin'). reflexivity.
  - exfalso. apply (Hnot (app, role)). rewrite Hsel. reflexivity.
Qed.

Lemma catalog_roles_are_derived_witness :
  let E := Sample.env (Sample.conf true "False" "role" "Prod" "Reader")
                      [Sample.raw "Prod" Sample.idp_111 ["Admin"; "Reader"]] [] in
  let built := {| app_id := "0oa1"; app_name := "Prod";
                  app_identityProviderArn := Sample.idp_111;
                  app_roles := [Sample.admin_111; Sample.reader_111];
                  app_links := Sample.links |} in
  let w2 := snd (run_selection E [built] (Sample.start [])) in
  self_idp_arn w2 = Some Sample.idp_111 /\
  self_role_arn w2 = Some (derive_role_arn Sample.idp_111 "Reader") /\
  derive_role_arn Sample.idp_111 "Reader" = "arn:aws:iam::111:role/Reader".
Proof.
  intros E built w2.
  destruct (catalog_roles_are_derived
              E "https://example.okta.com" "00key" "alice" (Sample.start [])
              (extend (Sample.start []) (progress 0)) [built]
              ltac:(intros first more [= <-] [= <-]; vm_compute; repeat constructor)
              ltac:(vm_compute; reflexivity)
              E (Sample.start []) w2 built Sample.reader_111 ltac:(vm_compute; reflexivity))
    as (_ & Hidp & Hrole).
  split; [exact Hidp|]. split; [exact Hrole | reflexivity].
Defined.
